(** * XposedOrNot-JS: the request executor, its error taxonomy, the
      configuration gate of the facade and the two endpoint functions that
      absorb a 404.

    Conventions of the embedding.
    - A JavaScript string is a Rocq [string] holding ASCII text.  The
      string functions of the runtime ([trim], [toLowerCase], the class
      [\s], [encodeURIComponent], [length]) are modelled on such text; what
      they do to other characters (white space such as U+00A0, letters
      whose lower case has another length) is outside the model, and the
      statements on the validators carry the premise [is_ascii].
    - A JavaScript number is a rational ([Q]); [Number] adds NaN and the two
      infinities where the code tests for them.  Status codes, the attempt
      counter and the backoff delay are integers ([Z]).
    - A decoded body ([unknown] in the source) is a [Json] value; [undefined]
      is [None] of an option.
    - The built-ins of the JavaScript runtime that the code calls (the URL
      parser, number printing, [JSON.stringify], [ToNumber]) are the members
      of the class [Runtime]; [fetch], the abort timer and [sleep] are the
      members of the class [Host], which threads a host state.
    - A response is held as received in full: its status, its content
      type, what [response.json()] gives ([None] when it rejects) and what
      [response.text()] settles to: the text of the body, or the error it
      rejects with when the body cannot be read.
    - An async function is a computation [Eff]: it takes the host state and
      gives back a completion (a value or a thrown error), the trace of the
      host calls it made, and the new host state.
    - Arguments that TypeScript types exclude (an email that is no string,
      a timeout that is no number) are excluded by the types here. *)

From Stdlib Require Import List String Ascii ZArith QArith Bool Lia.
From Stdlib Require Import Qround DecimalString.
Import ListNotations.

Local Open Scope string_scope.
Local Open Scope Z_scope.

Set Implicit Arguments.

(** ** Values *)

#[warnings="-register-all"]
Inductive Json : Type :=
| JNull
| JBool (b : bool)
| JNum (q : Q)
| JStr (s : string)
| JArr (items : list Json)
| JObj (fields : list (string * Json)).

Inductive Number : Type :=
| Finite (q : Q)
| NaN
| PosInfinity
| NegInfinity.

(** [obj[key]] on the own properties of an object, in entry order. *)
Fixpoint assoc {A : Type} (key : string) (l : list (string * A)) : option A :=
  match l with
  | [] => None
  | (k, v) :: rest => if String.eqb k key then Some v else assoc key rest
  end.

(** [{...a, [key]: v}]: an existing key keeps its place and takes the new
    value, a new key goes last. *)
Fixpoint assign {A : Type} (key : string) (v : A) (l : list (string * A))
  : list (string * A) :=
  match l with
  | [] => [(key, v)]
  | (k, w) :: rest =>
      if String.eqb k key then (k, v) :: rest else (k, w) :: assign key v rest
  end.

(** [{...a, ...b}] *)
Definition spread {A : Type} (a b : list (string * A)) : list (string * A) :=
  fold_left (fun acc kv => assign (fst kv) (snd kv) acc) b a.

(** [s.includes(needle)] *)
Fixpoint includes (needle s : string) : bool :=
  String.prefix needle s ||
  match s with
  | EmptyString => false
  | String _ rest => includes needle rest
  end.

(** JavaScript truthiness of a decoded value. *)
Definition truthy (v : Json) : bool :=
  match v with
  | JNull => false
  | JBool b => b
  | JNum q => negb (Qeq_bool q 0)
  | JStr s => negb (String.eqb s "")
  | JArr _ | JObj _ => true
  end.

(** ** Error taxonomy (errors/index.ts) *)

#[warnings="-register-all"]
Inductive Error : Type :=
| Raw (name message : string)     (* an Error that is no XposedOrNotError *)
| RateLimitError (message : string) (retryAfter : option Q)
| NotFoundError (message : string)
| AuthenticationError (message : string)
| ValidationError (message : string) (field : option string)
| NetworkError (message : string) (cause : option Error)
| TimeoutError (message : string)
| ApiError (message : string) (status : Z) (response : option Json).

Definition isXposedOrNotError (e : Error) : bool :=
  match e with Raw _ _ => false | _ => true end.

Definition isRateLimitError (e : Error) : bool :=
  match e with RateLimitError _ _ => true | _ => false end.

Definition isNotFoundError (e : Error) : bool :=
  match e with NotFoundError _ => true | _ => false end.

Definition error_name (e : Error) : string :=
  match e with
  | Raw name _ => name
  | RateLimitError _ _ => "RateLimitError"
  | NotFoundError _ => "NotFoundError"
  | AuthenticationError _ => "AuthenticationError"
  | ValidationError _ _ => "ValidationError"
  | NetworkError _ _ => "NetworkError"
  | TimeoutError _ => "TimeoutError"
  | ApiError _ _ _ => "ApiError"
  end.

Definition error_message (e : Error) : string :=
  match e with
  | Raw _ m | RateLimitError m _ | NotFoundError m | AuthenticationError m
  | ValidationError m _ | NetworkError m _ | TimeoutError m | ApiError m _ _ => m
  end.

Definition error_code (e : Error) : option string :=
  match e with
  | Raw _ _ => None
  | RateLimitError _ _ => Some "RATE_LIMIT_EXCEEDED"
  | NotFoundError _ => Some "NOT_FOUND"
  | AuthenticationError _ => Some "AUTHENTICATION_FAILED"
  | ValidationError _ _ => Some "VALIDATION_ERROR"
  | NetworkError _ _ => Some "NETWORK_ERROR"
  | TimeoutError _ => Some "TIMEOUT"
  | ApiError _ _ _ => Some "API_ERROR"
  end.

Definition statusCode (e : Error) : option Z :=
  match e with
  | RateLimitError _ _ => Some 429
  | NotFoundError _ => Some 404
  | AuthenticationError _ => Some 401
  | ApiError _ status _ => Some status
  | _ => None
  end.

(** ** The JavaScript runtime *)

Record URL : Type := mkURL {
  protocol : string;                       (* "https:" *)
  location : string;                       (* host, port and path *)
  searchParams : list (string * string)
}.

Class Runtime : Type := {
  (** [new URL(input, base)]; [None] when the constructor throws. *)
  URL_parse : string -> option string -> option URL;
  (** [url.toString()] *)
  URL_toString : URL -> string;
  (** [String(n)] for a finite number. *)
  Number_toString : Q -> string;
  JSON_stringify : Json -> string;
  (** [ToNumber(v)] for the operands of a relational comparison. *)
  ToNumber : Json -> Number
}.

(** ** Completions *)

Inductive Completion (A : Type) : Type :=
| Return (a : A)
| Throw (e : Error).

Arguments Return {A} a.
Arguments Throw {A} e.

(** ** Responses and the host *)

(** What [await response.text()] settles to. *)
Inductive BodyText : Type :=
| Text (s : string)                    (* the text of the body *)
| TextRejects (name message : string). (* the body cannot be read *)

Record Response : Type := mkResponse {
  status : Z;
  content_type : option string;     (* headers.get('content-type') *)
  json : option Json;               (* response.json(); None when it rejects *)
  text : BodyText                   (* response.text() *)
}.

Definition ok (r : Response) : bool :=
  (200 <=? status r) && (status r <=? 299).

Record Request : Type := mkRequest {
  req_url : string;
  req_method : string;
  req_headers : list (string * string);
  req_body : option string
}.

Inductive FetchResult : Type :=
| Resolved (r : Response)
| Rejected (name message : string).

Inductive Event : Type :=
| EvArmAbort (ms : Q)             (* new AbortController + setTimeout(abort, ms) *)
| EvFetch (req : Request) (res : FetchResult)
| EvClearTimeout
| EvJson                          (* response.json() *)
| EvText                          (* response.text() *)
| EvSleep (ms : Z).

Definition Trace : Type := list Event.

Class Host (H : Type) : Type := {
  (** [await fetch(url, { ..., signal })] *)
  host_fetch : Request -> H -> FetchResult * H;
  (** the abort controller of the request and the timer that aborts it *)
  host_armAbort : Q -> H -> H;
  host_clearTimeout : H -> H;
  (** [await sleep(ms)] *)
  host_sleep : Z -> H -> H
}.

(** ** Response handling (utils/http.ts) *)

Definition extractErrorMessage (data : Json) : string :=
  match data with
  | JStr s => s
  | JObj obj =>
      match assoc "Error" obj with
      | Some (JStr s) => s
      | _ =>
          match assoc "error" obj with
          | Some (JStr s) => s
          | _ =>
              match assoc "message" obj with
              | Some (JStr s) => s
              | _ => "An unknown error occurred"
              end
          end
      end
  | _ => "An unknown error occurred"
  end.

Definition extractRetryAfter (data : Json) : option Q :=
  match data with
  | JObj obj =>
      match assoc "retry_after" obj with
      | Some (JNum n) => Some n
      | _ =>
          match assoc "retryAfter" obj with
          | Some (JNum n) => Some n
          | _ => None
          end
      end
  | _ => None
  end.

Section ResponseHandling.
Context {RT : Runtime}.

Definition handleErrorResponse (status : Z) (data : Json) : Error :=
  let message := extractErrorMessage data in
  if status =? 401 then AuthenticationError message
  else if status =? 404 then NotFoundError message
  else if status =? 429 then RateLimitError message (extractRetryAfter data)
  else ApiError
         (if String.eqb message ""
          then "API error: " ++ Number_toString (inject_Z status)
          else message)
         status (Some data).

(** [data = await response.text()]: the call stands in no [try] block of
    [handleResponse], so its rejection leaves the function. *)
Definition readText (response : Response) : Completion Json :=
  match text response with
  | Text s => Return (JStr s)
  | TextRejects name message => Throw (Raw name message)
  end.

(** The body is read only after the 304 test; the trace records which
    reader was called.  A rejection of [response.json()] is caught and
    gives [null]; a rejection of [response.text()] is thrown on. *)
Definition handleResponse (response : Response) : Completion Json * Trace :=
  if status response =? 304 then (Return (JObj []), [])
  else
    let '(data, tr) :=
      match content_type response with
      | Some contentType =>
          if includes "application/json" contentType
          then (Return (match json response with
                        | Some v => v
                        | None => JNull
                        end), [EvJson])
          else (readText response, [EvText])
      | None => (readText response, [EvText])
      end in
    match data with
    | Throw error => (Throw error, tr)
    | Return data =>
        if ok response then (Return data, tr)
        else (Throw (handleErrorResponse (status response) data), tr)
    end.
End ResponseHandling.

(** ** Configuration (types/config.ts) *)

Definition Headers : Type := list (string * string).

(** [retries] is an integer and [timeout] a finite number: the facade builds
    the only [HttpClient] from a configuration that went through
    [resolveConfig] (below). *)
Record ResolvedConfig : Type := mkResolvedConfig {
  baseUrl : string;
  timeout : Q;
  retries : Z;
  headers : Headers
}.

Definition DEFAULT_CONFIG : ResolvedConfig :=
  {| baseUrl := "https://api.xposedornot.com";
     timeout := 30000;
     retries := 3;
     headers := [] |}.

(** ** Request options *)

Inductive Method : Type := GET | POST | PUT | DELETE.

Definition Method_toString (m : Method) : string :=
  match m with GET => "GET" | POST => "POST" | PUT => "PUT" | DELETE => "DELETE" end.

Inductive ParamValue : Type :=
| PString (s : string)
| PBool (b : bool).

(** [Object.entries(params)]: a key with its value, [None] for [undefined]. *)
Definition Params : Type := list (string * option ParamValue).

Record RequestOptions : Type := mkRequestOptions {
  opt_method : option Method;
  opt_headers : option Headers;
  opt_body : option Json;
  opt_params : option Params
}.

(** [String(value)] *)
Definition String_of (value : ParamValue) : string :=
  match value with
  | PString s => s
  | PBool true => "true"
  | PBool false => "false"
  end.

(** [URLSearchParams.set]: the first pair of that name takes the value and
    the other pairs of that name go; with no such pair, one is appended. *)
Fixpoint searchParams_set (key value : string) (l : list (string * string))
  : list (string * string) :=
  match l with
  | [] => [(key, value)]
  | (k, w) :: rest =>
      if String.eqb k key
      then (k, value) :: filter (fun kv => negb (String.eqb (fst kv) key)) rest
      else (k, w) :: searchParams_set key value rest
  end.

(** The body of the loop of [buildUrl] over [Object.entries(params)]. *)
Definition set_present (acc : list (string * string))
           (kv : string * option ParamValue) : list (string * string) :=
  match snd kv with
  | Some value => searchParams_set (fst kv) (String_of value) acc
  | None => acc
  end.

(** ** The effect monad of async code *)

Section Effects.
Variable H : Type.

Definition Eff (A : Type) : Type := H -> Completion A * Trace * H.

Definition ret {A} (a : A) : Eff A := fun h => (Return a, [], h).

Definition throw {A} (e : Error) : Eff A := fun h => (Throw e, [], h).

Definition bind {A B} (m : Eff A) (k : A -> Eff B) : Eff B :=
  fun h =>
    let '(c, t1, h1) := m h in
    match c with
    | Return a => let '(c2, t2, h2) := k a h1 in (c2, (t1 ++ t2)%list, h2)
    | Throw e => (Throw e, t1, h1)
    end.

(** [try { m } catch (error) { handler error }] *)
Definition try_catch {A} (m : Eff A) (handler : Error -> Eff A) : Eff A :=
  fun h =>
    let '(c, t1, h1) := m h in
    match c with
    | Return a => (Return a, t1, h1)
    | Throw e => let '(c2, t2, h2) := handler e h1 in (c2, (t1 ++ t2)%list, h2)
    end.

(** A pure step that already carries its trace. *)
Definition traced {A} (r : Completion A * Trace) : Eff A :=
  fun h => (fst r, snd r, h).
End Effects.

(** The parts of a finished run. *)
Definition result_of {H A : Type} (run : Completion A * Trace * H)
  : Completion A := fst (fst run).

Definition trace_of {H A : Type} (run : Completion A * Trace * H) : Trace :=
  snd (fst run).

Definition host_of {H A : Type} (run : Completion A * Trace * H) : H :=
  snd run.

Arguments ret {H A} a.
Arguments throw {H A} e.
Arguments bind {H A B} m k.
Arguments try_catch {H A} m handler.
Arguments traced {H A} r.

Notation "x <- m ;; k" := (bind m (fun x => k))
  (at level 61, m at next level, right associativity).
Notation "m ;;; k" := (bind m (fun _ => k))
  (at level 61, right associativity).

(** ** HttpClient (utils/http.ts) *)

Section HttpClient.
Context {RT : Runtime} {H : Type} {HO : Host H}.
Variable config : ResolvedConfig.

Definition fetch (req : Request) : Eff H Response :=
  fun h =>
    let '(res, h') := host_fetch req h in
    (match res with
     | Resolved r => Return r
     | Rejected name message => Throw (Raw name message)
     end, [EvFetch req res], h').

Definition armAbort (ms : Q) : Eff H unit :=
  fun h => (Return tt, [EvArmAbort ms], host_armAbort ms h).

Definition clearTimeout : Eff H unit :=
  fun h => (Return tt, [EvClearTimeout], host_clearTimeout h).

Definition sleep (ms : Z) : Eff H unit :=
  fun h => (Return tt, [EvSleep ms], host_sleep ms h).

Definition buildUrl (endpoint : string) (params : option Params)
  : Completion string :=
  match URL_parse endpoint (Some (baseUrl config)) with
  | None => Throw (Raw "TypeError" "Invalid URL")
  | Some url =>
      let search :=
        match params with
        | Some entries => fold_left set_present entries (searchParams url)
        | None => searchParams url
        end in
      Return (URL_toString (mkURL (protocol url) (location url) search))
  end.

(** [Math.min(1000 * Math.pow(2, attempt - 1), 10000)] *)
Definition backoff_delay (attempt : Z) : Z :=
  Z.min (1000 * 2 ^ (attempt - 1)) 10000.

(** The test of the catch block: a classified error with a 4xx status
    that is no rate limit leaves the loop. *)
Definition isClientError (error : Error) : bool :=
  isXposedOrNotError error &&
  match statusCode error with
  | Some s => negb (s =? 0) && (400 <=? s) && (s <? 500)
  | None => false
  end &&
  negb (isRateLimitError error).

Definition isAbortError (error : Error) : bool :=
  String.eqb (error_name error) "AbortError".

(** What the code throws below the loop. *)
Definition exhausted (lastError : option Error) : Error :=
  let failed (message : string) :=
    "Request failed after " ++ Number_toString (inject_Z (retries config))
    ++ " attempts: " ++ message in
  match lastError with
  | Some e =>
      if isXposedOrNotError e then e
      else NetworkError (failed (error_message e)) (Some e)
  | None => NetworkError (failed "undefined") None
  end.

(** The body of the [try] block. *)
Definition attempt_once (req : Request) : Eff H Json :=
  response <- fetch req ;;
  clearTimeout ;;;
  traced (handleResponse response).

(** The [while (attempt < retries)] loop, with [attempt] and [lastError]
    as its variables.  [fuel] bounds the iterations for the recursion: an
    iteration adds one to [attempt], so the guard fails before
    [Z.to_nat retries] iterations of a loop that starts at 0 are used up
    ([retry_loop_fuel]). *)
Fixpoint retry_loop (req : Request) (fuel : nat) (attempt : Z)
         (lastError : option Error) : Eff H Json :=
  if attempt <? retries config then
    match fuel with
    | O => throw (exhausted lastError)
    | S fuel' =>
        let attempt := attempt + 1 in
        try_catch
          (attempt_once req)
          (fun error =>
             if isClientError error then throw error
             else if isAbortError error then
               throw (TimeoutError
                        ("Request timed out after "
                         ++ Number_toString (timeout config) ++ "ms"))
             else
               (if attempt <? retries config
                then sleep (backoff_delay attempt)
                else ret tt) ;;;
               retry_loop req fuel' attempt (Some error))
    end
  else throw (exhausted lastError).

(** The argument of [fetch]: the merged headers, and the body when there is
    one to send. *)
Definition fetch_request (url : string) (options : RequestOptions) : Request :=
  let method := match opt_method options with Some m => m | None => GET end in
  let headers' := match opt_headers options with Some h => h | None => [] end in
  let requestHeaders :=
    spread (spread [("Content-Type", "application/json");
                    ("Accept", "application/json")]
                   (headers config))
           headers' in
  {| req_url := url;
     req_method := Method_toString method;
     req_headers := requestHeaders;
     req_body := match opt_body options with
                 | Some body =>
                     if truthy body then Some (JSON_stringify body) else None
                 | None => None
                 end |}.

Definition request (endpoint : string) (options : RequestOptions)
  : Eff H Json :=
  url <- traced (buildUrl endpoint (opt_params options), []) ;;
  armAbort (timeout config) ;;;
  retry_loop (fetch_request url options) (Z.to_nat (retries config)) 0 None.
End HttpClient.

(** ** Reading a trace *)

Inductive Mark : Type :=
| Attempt
| Wait (ms : Z).

(** The transport attempts and the backoff waits of a trace, in order. *)
Fixpoint timeline (tr : Trace) : list Mark :=
  match tr with
  | [] => []
  | EvFetch _ _ :: rest => Attempt :: timeline rest
  | EvSleep ms :: rest => Wait ms :: timeline rest
  | _ :: rest => timeline rest
  end.

(** What every attempt got from the transport. *)
Fixpoint fetched (tr : Trace) : list FetchResult :=
  match tr with
  | [] => []
  | EvFetch _ res :: rest => res :: fetched rest
  | _ :: rest => fetched rest
  end.

Definition attempts (tr : Trace) : nat := List.length (fetched tr).

Fixpoint sleeps (tr : Trace) : list Z :=
  match tr with
  | [] => []
  | EvSleep ms :: rest => ms :: sleeps rest
  | _ :: rest => sleeps rest
  end.

(** How the [try] block completes for what [fetch] gave. *)
Definition outcome_of {RT : Runtime} (res : FetchResult) : Completion Json :=
  match res with
  | Rejected name message => Throw (Raw name message)
  | Resolved r => fst (handleResponse r)
  end.

(** The error that the catch block receives for an attempt, if any. *)
Definition failure_of {RT : Runtime} (res : FetchResult) : option Error :=
  match outcome_of res with
  | Throw e => Some e
  | Return _ => None
  end.

(** The failure of the last attempt of a trace; [dflt] when there was no
    attempt. *)
Definition last_failure {RT : Runtime} (tr : Trace) (dflt : option Error)
  : option Error :=
  fold_left (fun _ res => failure_of res) (fetched tr) dflt.

(** The decoded body of a response, as [handleResponse] reads it: a value,
    or the error of a text body that cannot be read. *)
Definition decoded (r : Response) : Completion Json :=
  match content_type r with
  | Some contentType =>
      if includes "application/json" contentType
      then Return (match json r with Some v => v | None => JNull end)
      else readText r
  | None => readText r
  end.

(** A failure after which the loop goes on. *)
Definition retryable (e : Error) : bool :=
  negb (isClientError e) && negb (isAbortError e).

Definition retryable_failure {RT : Runtime} (res : FetchResult) : bool :=
  match failure_of res with
  | Some e => retryable e
  | None => false
  end.

(** The schedule of [k] attempts that begin with attempt number [attempt]:
    a wait after every attempt but the last. *)
Fixpoint schedule (k : nat) (attempt : Z) : list Mark :=
  match k with
  | O => []
  | S k' =>
      Attempt ::
      match k' with
      | O => []
      | S _ => Wait (backoff_delay attempt) :: schedule k' (attempt + 1)
      end
  end.

(** ** The facade (client.ts) *)

Record XposedOrNotConfig : Type := mkXposedOrNotConfig {
  cfg_baseUrl : option string;
  cfg_timeout : option Number;
  cfg_retries : option Number;
  cfg_headers : option Headers
}.

Definition dquote : string := String (ascii_of_nat 34) EmptyString.

Definition Number_isInteger (n : Number) : bool :=
  match n with
  | Finite q => Qeq_bool q (inject_Z (Qfloor q))
  | _ => false
  end.

Section Facade.
Context {RT : Runtime}.

Definition validateBaseUrl (baseUrl : string) : Completion unit :=
  match URL_parse baseUrl None with
  | None =>
      Throw (ValidationError
               ("Invalid baseUrl: " ++ dquote ++ baseUrl ++ dquote
                ++ " is not a valid URL")
               (Some "baseUrl"))
  | Some url =>
      if negb (String.eqb (protocol url) "https:")
      then Throw (ValidationError
                    ("Invalid baseUrl: must use HTTPS protocol (got "
                     ++ dquote ++ protocol url ++ dquote ++ ")")
                    (Some "baseUrl"))
      else Return tt
  end.

(** The validators give back the number they accepted, in the type the
    executor holds it in. *)
Definition validateTimeout (timeout : Number) : Completion Q :=
  let MIN_TIMEOUT := 1000%Q in
  let MAX_TIMEOUT := 300000%Q in
  match timeout with
  | Finite t =>
      if negb (Qle_bool MIN_TIMEOUT t) || negb (Qle_bool t MAX_TIMEOUT)
      then Throw (ValidationError
                    ("Invalid timeout: must be between "
                     ++ Number_toString MIN_TIMEOUT ++ "ms and "
                     ++ Number_toString MAX_TIMEOUT ++ "ms (got "
                     ++ Number_toString t ++ "ms)")
                    (Some "timeout"))
      else Return t
  | _ =>
      Throw (ValidationError "Invalid timeout: must be a finite number"
                             (Some "timeout"))
  end.

Definition validateRetries (retries : Number) : Completion Z :=
  let MIN_RETRIES := 0%Q in
  let MAX_RETRIES := 10%Q in
  match retries with
  | Finite r =>
      if negb (Number_isInteger retries)
      then Throw (ValidationError "Invalid retries: must be an integer"
                                  (Some "retries"))
      else if negb (Qle_bool MIN_RETRIES r) || negb (Qle_bool r MAX_RETRIES)
      then Throw (ValidationError
                    ("Invalid retries: must be between "
                     ++ Number_toString MIN_RETRIES ++ " and "
                     ++ Number_toString MAX_RETRIES ++ " (got "
                     ++ Number_toString r ++ ")")
                    (Some "retries"))
      else Return (Qfloor r)
  | _ =>
      Throw (ValidationError "Invalid retries: must be an integer"
                             (Some "retries"))
  end.

Definition resolveConfig (config : XposedOrNotConfig)
  : Completion ResolvedConfig :=
  let baseUrl :=
    match cfg_baseUrl config with
    | Some b => b
    | None => baseUrl DEFAULT_CONFIG
    end in
  match validateBaseUrl baseUrl with
  | Throw e => Throw e
  | Return _ =>
      match validateTimeout
              (match cfg_timeout config with
               | Some t => t
               | None => Finite (timeout DEFAULT_CONFIG)
               end) with
      | Throw e => Throw e
      | Return timeout =>
          match validateRetries
                  (match cfg_retries config with
                   | Some r => r
                   | None => Finite (inject_Z (retries DEFAULT_CONFIG))
                   end) with
          | Throw e => Throw e
          | Return retries =>
              Return {| baseUrl := baseUrl;
                        timeout := timeout;
                        retries := retries;
                        headers :=
                          spread (headers DEFAULT_CONFIG)
                                 (match cfg_headers config with
                                  | Some h => h
                                  | None => []
                                  end) |}
          end
      end
  end.

(** [new XposedOrNot(config)]: the client is the configuration its
    [HttpClient] holds. *)
Definition XposedOrNot_new (config : XposedOrNotConfig)
  : Completion ResolvedConfig :=
  resolveConfig config.
End Facade.

(** ** Input validation (utils/validation.ts) *)

(** The white space that [trim] strips and that [\s] matches, among the
    ASCII characters: tab, line feed, vertical tab, form feed, carriage
    return and space.  (Both also take U+00A0, U+1680, U+2000 to U+200A,
    U+2028, U+2029, U+202F, U+205F, U+3000 and U+FEFF, which no ASCII
    string holds.) *)
Definition is_space (c : ascii) : bool :=
  let n := nat_of_ascii c in
  ((9 <=? n) && (n <=? 13))%nat || (n =? 32)%nat.

Fixpoint trimStart (s : string) : string :=
  match s with
  | EmptyString => EmptyString
  | String c rest => if is_space c then trimStart rest else s
  end.

Fixpoint trimEnd (s : string) : string :=
  match s with
  | EmptyString => EmptyString
  | String c rest =>
      let rest' := trimEnd rest in
      if is_space c && String.eqb rest' "" then EmptyString else String c rest'
  end.

Definition trim (s : string) : string := trimEnd (trimStart s).

(** [toLowerCase] on ASCII text: [A] to [Z] go to [a] to [z], every other
    ASCII character stays. *)
Definition toLowerCase_ascii (c : ascii) : ascii :=
  let n := nat_of_ascii c in
  if ((65 <=? n) && (n <=? 90))%nat then ascii_of_nat (n + 32) else c.

Fixpoint toLowerCase (s : string) : string :=
  match s with
  | EmptyString => EmptyString
  | String c rest => String (toLowerCase_ascii c) (toLowerCase rest)
  end.

Fixpoint string_forallb (p : ascii -> bool) (s : string) : bool :=
  match s with
  | EmptyString => true
  | String c rest => p c && string_forallb p rest
  end.

(** [[^\s@]] *)
Definition email_atom (c : ascii) : bool :=
  negb (is_space c) && negb (Ascii.eqb c "@").

(** The text before the first [@] and the text after it. *)
Fixpoint split_at (s : string) : option (string * string) :=
  match s with
  | EmptyString => None
  | String c rest =>
      if Ascii.eqb c "@" then Some (EmptyString, rest)
      else match split_at rest with
           | Some (l, r) => Some (String c l, r)
           | None => None
           end
  end.

(** A dot with a character after it. *)
Fixpoint dot_then_more (s : string) : bool :=
  match s with
  | EmptyString => false
  | String c rest =>
      (Ascii.eqb c "." && negb (String.eqb rest "")) || dot_then_more rest
  end.

(** [/^[^\s@]+@[^\s@]+\.[^\s@]+$/.test(s)]: one [@], atoms on both sides, a
    local part, and in the domain a dot that is neither first nor last. *)
Definition EMAIL_REGEX_test (s : string) : bool :=
  match split_at s with
  | Some (local, domain) =>
      negb (String.eqb local "") && string_forallb email_atom local &&
      string_forallb email_atom domain &&
      match domain with
      | EmptyString => false
      | String _ rest => dot_then_more rest
      end
  | None => false
  end.

Definition validateEmail (email : string) : Completion unit :=
  let trimmed := trim email in
  if String.eqb trimmed ""
  then Throw (ValidationError "Email is required" (Some "email"))
  else if negb (EMAIL_REGEX_test trimmed)
  then Throw (ValidationError "Invalid email format" (Some "email"))
  else if (254 <? String.length trimmed)%nat
  then Throw (ValidationError "Email is too long (max 254 characters)"
                              (Some "email"))
  else Return tt.

Definition normalizeEmail (email : string) : string :=
  toLowerCase (trim email).

Definition hex_digit (n : nat) : ascii :=
  if (n <? 10)%nat then ascii_of_nat (48 + n) else ascii_of_nat (55 + n).

(** The characters [encodeURIComponent] leaves alone:
    [A-Z a-z 0-9 - _ . ! ~ * ' ( )]. *)
Definition uri_unreserved (c : ascii) : bool :=
  let n := nat_of_ascii c in
  (((65 <=? n) && (n <=? 90)) || ((97 <=? n) && (n <=? 122)) ||
   ((48 <=? n) && (n <=? 57)) ||
   (n =? 45) || (n =? 95) || (n =? 46) || (n =? 33) || (n =? 126) ||
   (n =? 42) || (n =? 39) || (n =? 40) || (n =? 41))%nat.

Fixpoint encodeURIComponent (s : string) : string :=
  match s with
  | EmptyString => EmptyString
  | String c rest =>
      if uri_unreserved c then String c (encodeURIComponent rest)
      else
        let n := nat_of_ascii c in
        String "%" (String (hex_digit (n / 16)) (String (hex_digit (n mod 16))
                   (encodeURIComponent rest)))
  end.

Definition sanitizeEmailForPath (email : string) : string :=
  encodeURIComponent (normalizeEmail email).

(** ** Property access on a decoded value *)

(** [v.key] for a key that no prototype defines ([length] apart); reading a
    property of [null] throws. *)
Definition get_prop (v : Json) (key : string) : Completion (option Json) :=
  match v with
  | JNull =>
      Throw (Raw "TypeError"
                 ("Cannot read properties of null (reading '" ++ key ++ "')"))
  | JObj fields => Return (assoc key fields)
  | JArr items =>
      Return (if String.eqb key "length"
              then Some (JNum (inject_Z (Z.of_nat (List.length items))))
              else None)
  | JStr s =>
      Return (if String.eqb key "length"
              then Some (JNum (inject_Z (Z.of_nat (String.length s))))
              else None)
  | JBool _ | JNum _ => Return None
  end.

(** [x > 0] *)
Definition gt_zero {RT : Runtime} (x : option Json) : bool :=
  match x with
  | None => false
  | Some (JNum q) => negb (Qle_bool q 0)
  | Some v =>
      match ToNumber v with
      | Finite q => negb (Qle_bool q 0)
      | PosInfinity => true
      | NaN | NegInfinity => false
      end
  end.

(** [items.flat()] *)
Definition flat (items : list Json) : list Json :=
  flat_map (fun x => match x with JArr inner => inner | _ => [x] end) items.

(** ** Endpoint functions (endpoints/check-email.ts, breach-analytics.ts) *)

Record CheckEmailOptions : Type := mkCheckEmailOptions {
  includeDetails : option bool
}.

Record CheckEmailResult : Type := mkCheckEmailResult {
  ce_email : option Json;
  ce_found : bool;
  ce_breaches : list Json
}.

Record GetBreachAnalyticsOptions : Type := mkGetBreachAnalyticsOptions {
  token : option string
}.

Record BreachAnalyticsResult : Type := mkBreachAnalyticsResult {
  ba_email : string;
  ba_found : bool;
  ba_analytics : Json
}.

(** ['breaches' in response && Array.isArray(response.breaches)]; the [in]
    operator throws on a value that is no object. *)
Definition isFoundResponse (response : Json) : Completion bool :=
  match response with
  | JObj fields =>
      Return (match assoc "breaches" fields with
              | Some (JArr _) => true
              | _ => false
              end)
  | JArr _ => Return false
  | _ =>
      Throw (Raw "TypeError"
                 "Cannot use 'in' operator to search for 'breaches'")
  end.

(** [response.email] and [response.breaches] of a response that went
    through [isFoundResponse]. *)
Definition response_email (response : Json) : option Json :=
  match response with
  | JObj fields => assoc "email" fields
  | _ => None
  end.

Definition response_breaches (response : Json) : list Json :=
  match response with
  | JObj fields =>
      match assoc "breaches" fields with
      | Some (JArr breaches) => breaches
      | _ => []
      end
  | _ => []
  end.

(** The [try] block of [checkEmail] below the request. *)
Definition checkEmail_result (response : Json) : Completion CheckEmailResult :=
  match isFoundResponse response with
  | Throw e => Throw e
  | Return true =>
      Return {| ce_email := response_email response;
                ce_found := true;
                ce_breaches := flat (response_breaches response) |}
  | Return false =>
      Return {| ce_email := response_email response;
                ce_found := false;
                ce_breaches := [] |}
  end.

Section Endpoints.
Context {RT : Runtime} {H : Type} {HO : Host H}.
Variable http : ResolvedConfig.

(** The endpoint and the options that [checkEmail] passes to [request]. *)
Definition checkEmail_endpoint (email : string) : string :=
  "/v1/check-email/" ++ sanitizeEmailForPath email.

Definition checkEmail_request (options : CheckEmailOptions) : RequestOptions :=
  let params : Params :=
    match includeDetails options with
    | Some true => [("include_details", Some (PBool true))]
    | _ => []
    end in
  {| opt_method := None; opt_headers := None;
     opt_body := None; opt_params := Some params |}.

Definition checkEmail (email : string) (options : CheckEmailOptions)
  : Eff H CheckEmailResult :=
  traced (validateEmail email, []) ;;;
  try_catch
    (response <- request http (checkEmail_endpoint email)
                   (checkEmail_request options) ;;
     traced (checkEmail_result response, []))
    (fun error =>
       if isNotFoundError error
       then ret {| ce_email := Some (JStr email);
                   ce_found := false;
                   ce_breaches := [] |}
       else throw error).

(** The [try] block of [getBreachAnalytics] below the request. *)
Definition breachAnalytics_result (email : string) (response : Json)
  : Completion BreachAnalyticsResult :=
  match get_prop response "ExposedBreaches" with
  | Throw e => Throw e
  | Return exposed =>
      let breachDetails :=
        match exposed with
        | None | Some JNull => None
        | Some v =>
            match get_prop v "breaches_details" with
            | Return d => d
            | Throw _ => None
            end
        end in
      let hasBreaches :=
        match breachDetails with
        | None => Return false
        | Some d =>
            match get_prop d "length" with
            | Return len => Return (gt_zero len)
            | Throw e => Throw e
            end
        end in
      match hasBreaches with
      | Throw e => Throw e
      | Return hasBreaches =>
          let hasPastes :=
            match get_prop response "ExposedPastes" with
            | Return (Some (JArr pastes)) => (0 <? List.length pastes)%nat
            | _ => false
            end in
          Return {| ba_email := email;
                    ba_found := hasBreaches || hasPastes;
                    ba_analytics := response |}
      end
  end.

(** The options that [getBreachAnalytics] passes to [request]. *)
Definition breachAnalytics_request (email : string)
           (options : GetBreachAnalyticsOptions) : RequestOptions :=
  let normalizedEmail := normalizeEmail email in
  let params : Params :=
    ("email", Some (PString normalizedEmail)) ::
    match token options with
    | Some t => if String.eqb t "" then [] else [("token", Some (PString t))]
    | None => []
    end in
  {| opt_method := None; opt_headers := None;
     opt_body := None; opt_params := Some params |}.

Definition getBreachAnalytics (email : string)
           (options : GetBreachAnalyticsOptions)
  : Eff H BreachAnalyticsResult :=
  traced (validateEmail email, []) ;;;
  try_catch
    (response <- request http "/v1/breach-analytics"
                   (breachAnalytics_request email options) ;;
     traced (breachAnalytics_result email response, []))
    (fun error =>
       if isNotFoundError error
       then ret {| ba_email := email; ba_found := false; ba_analytics := JNull |}
       else throw error).
End Endpoints.

(** ** A small runtime and two hosts, for running the code *)

Module SimpleRuntime.

Definition Z_toString (z : Z) : string :=
  NilZero.string_of_int (Z.to_int z).

(** Integers print in decimal, other rationals as a fraction. *)
Definition print_number (q : Q) : string :=
  let r := Qred q in
  match Qden r with
  | xH => Z_toString (Qnum r)
  | d => Z_toString (Qnum r) ++ "/" ++ Z_toString (Zpos d)
  end.

(** The text before [://] and the text after it. *)
Fixpoint split_scheme (s : string) : option (string * string) :=
  match s with
  | EmptyString => None
  | String c rest =>
      if String.prefix "://" s
      then Some (EmptyString, substring 3 (String.length s - 3) s)
      else match split_scheme rest with
           | Some (scheme, loc) => Some (String c scheme, loc)
           | None => None
           end
  end.

(** An absolute input is [scheme://location]; any other input is
    appended to the location of the base. *)
Definition parse_url (input : string) (base : option string) : option URL :=
  match split_scheme input with
  | Some (scheme, loc) =>
      if String.eqb scheme "" then None
      else Some (mkURL (scheme ++ ":") loc [])
  | None =>
      match base with
      | Some b =>
          match split_scheme b with
          | Some (scheme, loc) =>
              if String.eqb scheme "" then None
              else Some (mkURL (scheme ++ ":") (loc ++ input) [])
          | None => None
          end
      | None => None
      end
  end.

Fixpoint query_toString (l : list (string * string)) : string :=
  match l with
  | [] => ""
  | [(k, v)] => k ++ "=" ++ v
  | (k, v) :: rest => k ++ "=" ++ v ++ "&" ++ query_toString rest
  end.

Definition print_url (u : URL) : string :=
  protocol u ++ "//" ++ location u ++
  match searchParams u with
  | [] => ""
  | l => "?" ++ query_toString l
  end.

Definition stringify (v : Json) : string :=
  match v with
  | JNull => "null"
  | JBool true => "true"
  | JBool false => "false"
  | JNum q => print_number q
  | JStr s => dquote ++ s ++ dquote
  | JArr _ => "[...]"
  | JObj _ => "{...}"
  end.

Definition to_number (v : Json) : Number :=
  match v with
  | JNull => Finite 0
  | JBool true => Finite 1
  | JBool false => Finite 0
  | JNum q => Finite q
  | _ => NaN
  end.

#[export] Instance runtime : Runtime :=
  {| URL_parse := parse_url;
     URL_toString := print_url;
     Number_toString := print_number;
     JSON_stringify := stringify;
     ToNumber := to_number |}.

End SimpleRuntime.

(** The runtime above with the query of a URL parsed: the text after the
    first [?] of the location is split at [&], and each piece at its first
    [=]. *)
Module QueryRuntime.

Fixpoint cut (sep : ascii) (s : string) : string * option string :=
  match s with
  | EmptyString => (EmptyString, None)
  | String c rest =>
      if Ascii.eqb c sep then (EmptyString, Some rest)
      else let '(before, after) := cut sep rest in (String c before, after)
  end.

Fixpoint pieces (sep : ascii) (s : string) : list string :=
  match s with
  | EmptyString => [EmptyString]
  | String c rest =>
      if Ascii.eqb c sep then EmptyString :: pieces sep rest
      else match pieces sep rest with
           | piece :: more => String c piece :: more
           | [] => [String c EmptyString]
           end
  end.

Definition pair_of (piece : string) : string * string :=
  match cut "=" piece with
  | (name, Some value) => (name, value)
  | (name, None) => (name, "")
  end.

Definition parse_query (input : string) (base : option string) : option URL :=
  match SimpleRuntime.parse_url input base with
  | Some url =>
      match cut "?" (location url) with
      | (path, Some query) =>
          Some (mkURL (protocol url) path (map pair_of (pieces "&" query)))
      | (_, None) => Some url
      end
  | None => None
  end.

#[export] Instance runtime : Runtime :=
  {| URL_parse := parse_query;
     URL_toString := SimpleRuntime.print_url;
     Number_toString := SimpleRuntime.print_number;
     JSON_stringify := SimpleRuntime.stringify;
     ToNumber := SimpleRuntime.to_number |}.

End QueryRuntime.

(** A transport that plays a script: every [fetch] takes the next result;
    the timer never fires. *)
Module ScriptHost.

Definition State : Type := list FetchResult.

Definition connection_refused : FetchResult :=
  Rejected "TypeError" "fetch failed".

#[export] Instance host : Host State :=
  {| host_fetch := fun _ s =>
       match s with
       | [] => (connection_refused, [])
       | res :: rest => (res, rest)
       end;
     host_armAbort := fun _ s => s;
     host_clearTimeout := fun s => s;
     host_sleep := fun _ s => s |}.

End ScriptHost.

(** A transport with a clock: every scripted result arrives after its
    duration, and the abort timer fires at its deadline if it is still
    armed. *)
Module TimedHost.

Record Clock : Type := mkClock {
  now : Q;
  deadline : option Q;          (* the armed timer *)
  aborted : bool;               (* controller.signal.aborted *)
  pending : list (Q * FetchResult)
}.

Definition start (script : list (Q * FetchResult)) : Clock :=
  {| now := 0; deadline := None; aborted := false; pending := script |}.

Definition abort_error : FetchResult :=
  Rejected "AbortError" "This operation was aborted".

(** Time moves on to [t]. *)
Definition advance (t : Q) (c : Clock) : Clock :=
  match deadline c with
  | Some d =>
      if Qle_bool d t
      then {| now := t; deadline := None; aborted := true;
              pending := pending c |}
      else {| now := t; deadline := deadline c; aborted := aborted c;
              pending := pending c |}
  | None =>
      {| now := t; deadline := None; aborted := aborted c;
         pending := pending c |}
  end.

Definition fetch (c : Clock) : FetchResult * Clock :=
  if aborted c then (abort_error, c)
  else
    match pending c with
    | [] => (ScriptHost.connection_refused, c)
    | (duration, res) :: rest =>
        let done := Qred (now c + duration) in
        match deadline c with
        | Some d =>
            if Qle_bool d done
            then (abort_error,
                  {| now := d; deadline := None; aborted := true;
                     pending := rest |})
            else (res,
                  {| now := done; deadline := deadline c;
                     aborted := false; pending := rest |})
        | None =>
            (res,
             {| now := done; deadline := None; aborted := false;
                pending := rest |})
        end
    end.

#[export] Instance host : Host Clock :=
  {| host_fetch := fun _ c => fetch c;
     host_armAbort := fun ms c =>
       {| now := now c; deadline := Some (Qred (now c + ms));
          aborted := aborted c; pending := pending c |};
     host_clearTimeout := fun c =>
       {| now := now c; deadline := None; aborted := aborted c;
          pending := pending c |};
     host_sleep := fun ms c => advance (Qred (now c + inject_Z ms)) c |}.

End TimedHost.

(** Concrete inputs. *)
Module Examples.

Definition config (retries : Z) : ResolvedConfig :=
  {| baseUrl := "https://api.xposedornot.com";
     timeout := 30000;
     retries := retries;
     headers := [] |}.

Definition no_options : RequestOptions :=
  {| opt_method := None; opt_headers := None;
     opt_body := None; opt_params := None |}.

Definition json_response (status : Z) (body : Json) : FetchResult :=
  Resolved {| status := status;
              content_type := Some "application/json";
              json := Some body;
              text := Text "" |}.

Definition server_error : FetchResult :=
  json_response 500 (JObj [("error", JStr "Internal error")]).

Definition success : FetchResult :=
  json_response 200 (JObj [("ok", JBool true)]).

Definition not_found : FetchResult :=
  json_response 404 (JObj [("Error", JStr "Not found")]).

Definition unauthorized : FetchResult :=
  json_response 401 (JObj [("message", JStr "Bad key")]).

Definition rate_limited : FetchResult :=
  json_response 429 (JObj [("retry_after", JNum 60)]).

Definition not_modified : Response :=
  {| status := 304; content_type := Some "application/json";
     json := None; text := Text "ignored" |}.

Definition broken_json : Response :=
  {| status := 200; content_type := Some "application/json; charset=utf-8";
     json := None; text := Text "{" |}.

Definition plain_text : Response :=
  {| status := 200; content_type := Some "text/plain";
     json := None; text := Text "pong" |}.

(** A response of content type [text/plain] whose body cannot be read:
    [response.text()] rejects as it does when the connection ends before
    the body has arrived. *)
Definition unreadable (status : Z) : Response :=
  {| status := status; content_type := Some "text/plain";
     json := None; text := TextRejects "TypeError" "terminated" |}.

(** A rate limit whose snake_case field is there but holds no number. *)
Definition rate_limited_text_field : FetchResult :=
  json_response 429 (JObj [("retry_after", JStr "60");
                           ("retryAfter", JNum 30)]).

Definition query : Params :=
  [("domain", Some (PString "adobe.com"));
   ("breach_id", None);
   ("include_details", Some (PBool true))].

(** A timeout of 1500.5 ms. *)
Definition fractional_timeout : XposedOrNotConfig :=
  {| cfg_baseUrl := None;
     cfg_timeout := Some (Finite (3001 # 2));
     cfg_retries := None;
     cfg_headers := None |}.

Definition default_config : XposedOrNotConfig :=
  {| cfg_baseUrl := None; cfg_timeout := None;
     cfg_retries := None; cfg_headers := None |}.

Definition no_details : CheckEmailOptions := {| includeDetails := None |}.

Definition no_token : GetBreachAnalyticsOptions := {| token := None |}.

(** A timeout of five seconds and two attempts. *)
Definition timed_config : ResolvedConfig :=
  {| baseUrl := "https://api.xposedornot.com";
     timeout := 5000;
     retries := 2;
     headers := [] |}.

End Examples.

(** ** What the statements below speak of *)

Definition isValidationError (e : Error) : bool :=
  match e with ValidationError _ _ => true | _ => false end.

(** The entries of a query mapping that have a value, string-coerced. *)
Definition present_entries (params : Params) : list (string * string) :=
  flat_map (fun kv => match snd kv with
                      | Some value => [(fst kv, String_of value)]
                      | None => []
                      end) params.

Definition is_present (kv : string * option ParamValue) : bool :=
  match snd kv with Some _ => true | None => false end.

Definition in_range (lo hi : Q) (n : Number) : bool :=
  match n with
  | Finite q => Qle_bool lo q && Qle_bool q hi
  | _ => false
  end.

Definition https_url {RT : Runtime} (baseUrl : string) : bool :=
  match URL_parse baseUrl None with
  | Some url => String.eqb (protocol url) "https:"
  | None => false
  end.

Definition effective_baseUrl (c : XposedOrNotConfig) : string :=
  match cfg_baseUrl c with Some b => b | None => baseUrl DEFAULT_CONFIG end.

Definition effective_timeout (c : XposedOrNotConfig) : Number :=
  match cfg_timeout c with Some t => t | None => Finite (timeout DEFAULT_CONFIG) end.

Definition effective_retries (c : XposedOrNotConfig) : Number :=
  match cfg_retries c with
  | Some r => r
  | None => Finite (inject_Z (retries DEFAULT_CONFIG))
  end.

(** Validity as the specification words it: the timeout an integer. *)
Definition valid_as_specified {RT : Runtime} (c : XposedOrNotConfig) : bool :=
  https_url (effective_baseUrl c)
  && (Number_isInteger (effective_timeout c)
      && in_range 1000 300000 (effective_timeout c))
  && (Number_isInteger (effective_retries c)
      && in_range 0 10 (effective_retries c)).

(** Validity as the validators test it: the timeout a finite number. *)
Definition valid_config {RT : Runtime} (c : XposedOrNotConfig) : bool :=
  https_url (effective_baseUrl c)
  && in_range 1000 300000 (effective_timeout c)
  && (Number_isInteger (effective_retries c)
      && in_range 0 10 (effective_retries c)).

(** A response that reports a rate limit. *)
Definition is_429 (res : FetchResult) : bool :=
  match res with
  | Resolved r => status r =? 429
  | Rejected _ _ => false
  end.

(** ** The rest of the library *)

(** *** validateDomain (utils/validation.ts) *)

Definition is_alpha (c : ascii) : bool :=
  let n := nat_of_ascii c in
  (((65 <=? n) && (n <=? 90)) || ((97 <=? n) && (n <=? 122)))%nat.

Definition is_alnum (c : ascii) : bool :=
  is_alpha c || (let n := nat_of_ascii c in ((48 <=? n) && (n <=? 57))%nat).

(** [[a-zA-Z0-9-_.]] *)
Definition domain_char (c : ascii) : bool :=
  is_alnum c || Ascii.eqb c "-" || Ascii.eqb c "_" || Ascii.eqb c ".".

(** The text before the last dot and the text after it. *)
Fixpoint split_last_dot (s : string) : option (string * string) :=
  match s with
  | EmptyString => None
  | String c rest =>
      match split_last_dot rest with
      | Some (before, after) => Some (String c before, after)
      | None => if Ascii.eqb c "." then Some (EmptyString, rest) else None
      end
  end.

(** [/^[a-zA-Z0-9][a-zA-Z0-9-_.]+\.[a-zA-Z]{2,}$/.test(s)]: the letters at
    the end hold no dot, so the dot before them is the last one of [s]. *)
Definition DOMAIN_REGEX_test (s : string) : bool :=
  match split_last_dot s with
  | Some (String first middle, tld) =>
      is_alnum first &&
      negb (String.eqb middle "") && string_forallb domain_char middle &&
      (2 <=? String.length tld)%nat && string_forallb is_alpha tld
  | _ => false
  end.

Definition validateDomain (domain : string) : Completion unit :=
  let trimmed := trim domain in
  if String.eqb trimmed ""
  then Throw (ValidationError "Domain is required" (Some "domain"))
  else if negb (DOMAIN_REGEX_test trimmed)
  then Throw (ValidationError "Invalid domain format" (Some "domain"))
  else Return tt.

(** *** getBreaches (endpoints/breaches.ts) *)

Record GetBreachesOptions : Type := mkGetBreachesOptions {
  gb_domain : option string;
  gb_breachId : option string
}.

(** A filter is passed on when it is a string that is not empty. *)
Definition filter_param (name : string) (value : option string) : Params :=
  match value with
  | Some v => if String.eqb v "" then [] else [(name, Some (PString v))]
  | None => []
  end.

Definition getBreaches_request (options : GetBreachesOptions) : RequestOptions :=
  {| opt_method := None; opt_headers := None; opt_body := None;
     opt_params := Some (filter_param "domain" (gb_domain options)
                         ++ filter_param "breach_id" (gb_breachId options))%list |}.

(** [response.exposedBreaches ?? []] *)
Definition getBreaches_result (response : Json) : Completion Json :=
  match get_prop response "exposedBreaches" with
  | Throw e => Throw e
  | Return None | Return (Some JNull) => Return (JArr [])
  | Return (Some breaches) => Return breaches
  end.

Definition getBreaches {RT : Runtime} {H : Type} {HO : Host H}
           (http : ResolvedConfig) (options : GetBreachesOptions)
  : Eff H Json :=
  response <- request http "/v1/breaches" (getBreaches_request options) ;;
  traced (getBreaches_result response, []).

(** *** Counting the timer events of a trace *)

Fixpoint arms (tr : Trace) : nat :=
  match tr with
  | [] => 0
  | EvArmAbort _ :: rest => S (arms rest)
  | _ :: rest => arms rest
  end.

Fixpoint clears (tr : Trace) : nat :=
  match tr with
  | [] => 0
  | EvClearTimeout :: rest => S (clears rest)
  | _ :: rest => clears rest
  end.

Definition is_resolved (res : FetchResult) : bool :=
  match res with Resolved _ => true | Rejected _ _ => false end.

(** The requests that the attempts of a trace sent. *)
Fixpoint sent (tr : Trace) : list Request :=
  match tr with
  | [] => []
  | EvFetch req _ :: rest => req :: sent rest
  | _ :: rest => sent rest
  end.

(** What [handleResponse] makes of a response that is a success: the
    empty object for 304, the decoded body otherwise, or the error of a
    text body that cannot be read. *)
Definition success_value (r : Response) : Completion Json :=
  if status r =? 304 then Return (JObj []) else decoded r.

Definition is_success (r : Response) : bool :=
  (status r =? 304) || ok r.

(** *** Strings *)

(** The characters of an encoded URI component: the unreserved ones and
    the percent sign. *)
Definition uri_safe (c : ascii) : bool :=
  uri_unreserved c || Ascii.eqb c "%".

(** The first string-valued field among [Error], [error] and [message]. *)
Definition string_field (key : string) (obj : list (string * Json))
  : option string :=
  match assoc key obj with
  | Some (JStr s) => Some s
  | _ => None
  end.

(** The code of the error that [handleErrorResponse] builds for a status. *)
Definition code_of_status (s : Z) : string :=
  if s =? 401 then "AUTHENTICATION_FAILED"
  else if s =? 404 then "NOT_FOUND"
  else if s =? 429 then "RATE_LIMIT_EXCEEDED"
  else "API_ERROR".

(** The time that a run spends in backoff. *)
Definition total_wait (tr : Trace) : Z := fold_right Z.add 0 (sleeps tr).

(** A string that does not begin with white space. *)
Definition no_leading_space (s : string) : bool :=
  match s with
  | EmptyString => true
  | String c _ => negb (is_space c)
  end.

(** A string of ASCII characters only. *)
Definition is_ascii (s : string) : bool :=
  string_forallb (fun c => (nat_of_ascii c <? 128)%nat) s.

(** An attempt that received a response whose body [handleResponse] can
    read: always so for a JSON content type, and for any other content
    type when [response.text()] resolves. *)
Definition body_is_read (res : FetchResult) : bool :=
  match res with
  | Resolved r => match decoded r with Return _ => true | Throw _ => false end
  | Rejected _ _ => false
  end.

(** The retry-after value as the specification words it: of the two field
    names the first one that is present wins, and it must be a number. *)
Definition retryAfter_as_specified (data : Json) : option Q :=
  match data with
  | JObj obj =>
      match assoc "retry_after" obj with
      | Some (JNum n) => Some n
      | Some _ => None
      | None =>
          match assoc "retryAfter" obj with
          | Some (JNum n) => Some n
          | _ => None
          end
      end
  | _ => None
  end.

(** A JSON value that is a JavaScript primitive other than [null]. *)
Definition is_primitive (v : Json) : bool :=
  match v with
  | JStr _ | JNum _ | JBool _ => true
  | _ => false
  end.

(** * Properties *)

Local Open Scope list_scope.

(** ** Traces *)

Lemma timeline_app (a b : Trace) :
  timeline (a ++ b) = (timeline a ++ timeline b)%list.
Proof.
  induction a as [|ev a IH]; simpl; [reflexivity|].
  destruct ev; simpl; rewrite ?IH; reflexivity.
Qed.

Lemma fetched_app (a b : Trace) :
  fetched (a ++ b) = (fetched a ++ fetched b)%list.
Proof.
  induction a as [|ev a IH]; simpl; [reflexivity|].
  destruct ev; simpl; rewrite ?IH; reflexivity.
Qed.

Lemma attempts_app (a b : Trace) :
  attempts (a ++ b) = (attempts a + attempts b)%nat.
Proof. unfold attempts. now rewrite fetched_app, length_app. Qed.

(** The waits of a trace are those of its timeline. *)
Lemma sleeps_timeline (tr : Trace) :
  sleeps tr =
  flat_map (fun m => match m with Wait ms => [ms] | Attempt => [] end)
           (timeline tr).
Proof.
  induction tr as [|ev tr IH]; simpl; [reflexivity|].
  destruct ev; simpl; rewrite ?IH; reflexivity.
Qed.

(** The waits of a schedule: one per attempt but the last. *)
Lemma schedule_waits (k : nat) (attempt : Z) :
  flat_map (fun m => match m with Wait ms => [ms] | Attempt => [] end)
           (schedule k attempt)
  = map (fun i => backoff_delay (attempt + Z.of_nat i)) (seq 0 (k - 1)).
Proof.
  revert attempt.
  induction k as [|k IH]; intros attempt; [reflexivity|].
  destruct k as [|k]; [reflexivity|].
  change (schedule (S (S k)) attempt)
    with (Attempt :: Wait (backoff_delay attempt) :: schedule (S k) (attempt + 1)).
  cbn [flat_map app].
  rewrite IH.
  replace (S (S k) - 1)%nat with (S k) by lia.
  replace (S k - 1)%nat with k by lia.
  cbn [seq map]. rewrite Z.add_0_r. f_equal.
  rewrite <- seq_shift, map_map.
  apply map_ext. intros i. f_equal. lia.
Qed.

(** ** Response handling *)

Section ResponseFacts.
Context {RT : Runtime}.

Lemma handleResponse_decoded (r : Response) :
  status r <> 304 ->
  fst (handleResponse r) =
  match decoded r with
  | Throw error => Throw error
  | Return data =>
      if ok r then Return data
      else Throw (handleErrorResponse (status r) data)
  end.
Proof.
  intros Hs. unfold handleResponse, decoded, readText.
  destruct (Z.eqb_spec (status r) 304) as [E|_]; [contradiction|].
  destruct (content_type r) as [ct|]; [destruct (includes _ ct)|];
    try destruct (text r); destruct (ok r); reflexivity.
Qed.

(** The body of a JSON content type is always read: a failed decode gives
    [null]. *)
Lemma decoded_json (r : Response) (contentType : string) :
  content_type r = Some contentType ->
  includes "application/json" contentType = true ->
  decoded r = Return (match json r with Some v => v | None => JNull end).
Proof. intros Hct Hjson. unfold decoded. now rewrite Hct, Hjson. Qed.

(** The body of any other content type is what [response.text()] gives. *)
Lemma decoded_text (r : Response) :
  (forall contentType,
     content_type r = Some contentType ->
     includes "application/json" contentType = false) ->
  decoded r = readText r.
Proof.
  intros Hother. unfold decoded.
  destruct (content_type r) as [ct|]; [|reflexivity].
  now rewrite (Hother ct eq_refl).
Qed.

(** The only error of decoding is the raw error of a text body that cannot
    be read. *)
Lemma decoded_throws (r : Response) (error : Error) :
  decoded r = Throw error ->
  exists name message,
    text r = TextRejects name message /\ error = Raw name message.
Proof.
  unfold decoded, readText.
  destruct (content_type r) as [ct|]; [destruct (includes _ ct)|];
    try discriminate;
    (destruct (text r) as [s|name message]; [discriminate|]);
    intros E; injection E as <-; eauto.
Qed.

(** Decoding calls no transport and never waits. *)
Lemma handleResponse_quiet (r : Response) :
  timeline (snd (handleResponse r)) = [] /\ fetched (snd (handleResponse r)) = [].
Proof.
  unfold handleResponse, readText.
  destruct (status r =? 304); [now split|].
  destruct (content_type r) as [ct|]; [destruct (includes _ ct)|];
    try destruct (text r); destruct (ok r); now split.
Qed.

(** Every error that [handleErrorResponse] builds is classified and carries
    the status it was built for. *)
Lemma handleErrorResponse_statusCode (s : Z) (data : Json) :
  statusCode (handleErrorResponse s data) = Some s /\
  isXposedOrNotError (handleErrorResponse s data) = true.
Proof.
  unfold handleErrorResponse.
  destruct (Z.eqb_spec s 401); [subst; now split|].
  destruct (Z.eqb_spec s 404); [subst; now split|].
  destruct (Z.eqb_spec s 429); [subst; now split|].
  now split.
Qed.

End ResponseFacts.

(** ** The retry loop *)

Section LoopFacts.
Context {RT : Runtime} {H : Type} {HO : Host H}.
Variable config : ResolvedConfig.

(** One pass through the [try] block: the transport is called once, and
    what follows in the trace neither calls it nor waits. *)
Lemma attempt_once_run (req : Request) (h : H) :
  exists tail h',
    attempt_once req h =
      (outcome_of (fst (host_fetch req h)),
       EvFetch req (fst (host_fetch req h)) :: tail, h')
    /\ timeline tail = [] /\ fetched tail = [].
Proof.
  unfold attempt_once, bind, fetch, clearTimeout, traced.
  destruct (host_fetch req h) as [res h1]. cbn [trace_of result_of fst snd].
  destruct res as [r|name message]; cbn [outcome_of].
  - destruct (handleResponse_quiet r) as [Ht Hf].
    exists (EvClearTimeout :: snd (handleResponse r)), (host_clearTimeout h1).
    split; [reflexivity|]. cbn [timeline fetched]. now split.
  - exists [], h1. now split.
Qed.

(** The loop ends when its guard fails. *)
Lemma retry_loop_exit (req : Request) (fuel : nat) (attempt : Z)
      (lastError : option Error) (h : H) :
  (attempt <? retries config) = false ->
  retry_loop config req fuel attempt lastError h
  = (Throw (exhausted config lastError), [], h).
Proof.
  intros Hguard. destruct fuel; cbn [retry_loop]; now rewrite Hguard.
Qed.

(** The unfolding of one iteration of the loop. *)
Lemma retry_loop_step (req : Request) (fuel : nat) (attempt : Z)
      (lastError : option Error) (h : H) :
  (attempt <? retries config) = true ->
  retry_loop config req (S fuel) attempt lastError h =
  let '(c, t1, h1) := attempt_once req h in
  match c with
  | Return v => (Return v, t1, h1)
  | Throw error =>
      if isClientError error then (Throw error, t1, h1)
      else if isAbortError error
      then (Throw (TimeoutError
                     ("Request timed out after "
                      ++ Number_toString (timeout config) ++ "ms")%string),
            t1, h1)
      else
        let pause := attempt + 1 <? retries config in
        let '(c2, t2, h2) :=
          retry_loop config req fuel (attempt + 1) (Some error)
            (if pause then host_sleep (backoff_delay (attempt + 1)) h1 else h1) in
        (c2,
         t1 ++ (if pause then [EvSleep (backoff_delay (attempt + 1))] else [])
         ++ t2,
         h2)
  end.
Proof.
  intros Hguard. cbn [retry_loop]. rewrite Hguard. unfold try_catch.
  destruct (attempt_once req h) as [[c t1] h1].
  destruct c as [v|error]; [reflexivity|].
  destruct (isClientError error).
  { unfold throw. now rewrite app_nil_r. }
  destruct (isAbortError error).
  { unfold throw. now rewrite app_nil_r. }
  unfold bind.
  destruct (attempt + 1 <? retries config); unfold sleep, ret;
    destruct (retry_loop config req fuel (attempt + 1) (Some error) _)
      as [[c2 t2] h2]; reflexivity.
Qed.

(** The fuel is only there for the recursion: with enough of it for the
    iterations that the guard allows, the run does not depend on it. *)
Lemma retry_loop_fuel (req : Request) (fuel : nat) :
  forall fuel' attempt lastError h,
    retries config - attempt <= Z.of_nat fuel ->
    retries config - attempt <= Z.of_nat fuel' ->
    retry_loop config req fuel attempt lastError h
    = retry_loop config req fuel' attempt lastError h.
Proof.
  induction fuel as [|fuel IH]; intros fuel' attempt lastError h Hf Hf'.
  - rewrite !retry_loop_exit by (apply Z.ltb_ge; lia). reflexivity.
  - destruct (attempt <? retries config) eqn:Hguard;
      [|now rewrite !retry_loop_exit].
    apply Z.ltb_lt in Hguard.
    destruct fuel' as [|fuel']; [lia|].
    rewrite !retry_loop_step by (apply Z.ltb_lt; lia).
    destruct (attempt_once req h) as [[c t1] h1].
    destruct c as [v|error]; [reflexivity|].
    destruct (isClientError error); [reflexivity|].
    destruct (isAbortError error); [reflexivity|].
    cbn zeta. rewrite (IH fuel') by lia. reflexivity.
Qed.

(** The shape of a run of the loop, case by case.  Every lemma on the loop
    below is an induction that goes through these cases. *)
Lemma retry_loop_cases (req : Request) (fuel : nat) (attempt : Z)
      (lastError : option Error) (h : H) :
  (retry_loop config req fuel attempt lastError h
   = (Throw (exhausted config lastError), [], h)
   /\ ((attempt <? retries config) = false \/ fuel = O))
  \/
  (exists fuel' tail h1,
     fuel = S fuel' /\ (attempt <? retries config) = true /\
     timeline tail = [] /\ fetched tail = [] /\
     let res := fst (host_fetch req h) in
     let first := EvFetch req res :: tail in
     match outcome_of res with
     | Return v =>
         retry_loop config req fuel attempt lastError h = (Return v, first, h1)
     | Throw error =>
         if isClientError error
         then retry_loop config req fuel attempt lastError h
              = (Throw error, first, h1)
         else if isAbortError error
         then retry_loop config req fuel attempt lastError h
              = (Throw (TimeoutError
                          ("Request timed out after "
                           ++ Number_toString (timeout config) ++ "ms")%string),
                 first, h1)
         else
           let pause := attempt + 1 <? retries config in
           let next :=
             retry_loop config req fuel' (attempt + 1) (Some error)
               (if pause then host_sleep (backoff_delay (attempt + 1)) h1
                else h1) in
           retry_loop config req fuel attempt lastError h
           = (result_of next,
              first
              ++ (if pause then [EvSleep (backoff_delay (attempt + 1))] else [])
              ++ trace_of next,
              host_of next)
     end).
Proof.
  destruct (attempt <? retries config) eqn:Hguard;
    [|left; split; [now apply retry_loop_exit|now left]].
  destruct fuel as [|fuel'].
  { left. split; [|now right]. cbn [retry_loop]. now rewrite Hguard. }
  right.
  destruct (attempt_once_run req h) as (tail & h1 & E & Ht & Hf).
  exists fuel', tail, h1.
  split; [reflexivity|]. split; [reflexivity|].
  split; [exact Ht|]. split; [exact Hf|].
  cbn zeta. rewrite (retry_loop_step req fuel' attempt lastError h Hguard), E.
  destruct (outcome_of _) as [v|error]; [reflexivity|].
  destruct (isClientError error); [reflexivity|].
  destruct (isAbortError error); [reflexivity|].
  cbn zeta.
  destruct (retry_loop config req fuel' (attempt + 1) (Some error) _)
    as [[c2 t2] h2].
  reflexivity.
Qed.

(** The case analysis of [retry_loop_cases] on the run in the goal. *)
Ltac loop_cases :=
  match goal with
  | |- context [retry_loop ?config ?req ?fuel ?attempt ?lastError ?h] =>
      destruct (retry_loop_cases req fuel attempt lastError h)
        as [[E Hexit]|(fuel' & tail & h1 & Hfuel & Hguard & Ht & Hf & E)]
  end.

(** The loop never makes more attempts than its guard allows. *)
Lemma retry_loop_attempts_le (req : Request) (fuel : nat) :
  forall attempt lastError h,
    (attempts (trace_of (retry_loop config req fuel attempt lastError h))
     <= Z.to_nat (retries config - attempt))%nat.
Proof.
  induction fuel as [|fuel IH]; intros attempt lastError h;
    loop_cases;
    try (rewrite E; cbn; lia); try discriminate.
  injection Hfuel as <-. apply Z.ltb_lt in Hguard. cbn zeta in E.
  assert (Hone : attempts (EvFetch req (fst (host_fetch req h)) :: tail) = 1%nat).
  { unfold attempts. cbn [fetched]. now rewrite Hf. }
  destruct (outcome_of _) as [v|error];
    [rewrite E; cbn [trace_of fst snd]; lia|].
  destruct (isClientError error); [rewrite E; cbn [trace_of fst snd]; lia|].
  destruct (isAbortError error); [rewrite E; cbn [trace_of fst snd]; lia|].
  rewrite E. cbn [trace_of fst snd].
  match goal with
  | |- context [retry_loop config req fuel ?a ?l ?s] =>
      specialize (IH a l s)
  end.
  rewrite !attempts_app, Hone.
  destruct (attempt + 1 <? retries config); cbn [attempts fetched List.length];
    fold (trace_of (retry_loop config req fuel (attempt + 1) (Some error) h1)) in *;
    lia.
Qed.

(** The loop makes an attempt when its guard holds and it has fuel. *)
Lemma retry_loop_attempts_pos (req : Request) (fuel : nat) attempt lastError h :
  (attempt <? retries config) = true ->
  (1 <= attempts (trace_of (retry_loop config req (S fuel) attempt lastError h)))%nat.
Proof.
  intros Hguard.
  destruct (retry_loop_cases req (S fuel) attempt lastError h)
    as [[_ [Hno|Hno]]|(fuel' & tail & h1 & _ & _ & _ & _ & E)];
    [congruence|discriminate|].
  cbn zeta in E.
  destruct (outcome_of _) as [v|error];
    [rewrite E; unfold attempts; cbn; lia|].
  destruct (isClientError error); [rewrite E; unfold attempts; cbn; lia|].
  destruct (isAbortError error); [rewrite E; unfold attempts; cbn; lia|].
  rewrite E. unfold attempts. cbn. lia.
Qed.

(** The attempts and the waits of the loop follow the schedule: a wait
    after every attempt but the last, never after the last. *)
Lemma retry_loop_timeline (req : Request) (fuel : nat) :
  forall attempt lastError h,
    retries config - attempt <= Z.of_nat fuel ->
    timeline (trace_of (retry_loop config req fuel attempt lastError h))
    = schedule (attempts (trace_of (retry_loop config req fuel attempt lastError h)))
               (attempt + 1).
Proof.
  induction fuel as [|fuel IH]; intros attempt lastError h Henough;
    loop_cases;
    try (rewrite E; reflexivity); try discriminate.
  injection Hfuel as <-. apply Z.ltb_lt in Hguard. cbn zeta in E.
  set (first := EvFetch req (fst (host_fetch req h)) :: tail) in *.
  assert (Hone : attempts first = 1%nat).
  { unfold attempts, first. cbn [fetched]. now rewrite Hf. }
  assert (Hline : timeline first = [Attempt]).
  { unfold first. cbn [timeline]. now rewrite Ht. }
  assert (Hstop : timeline first = schedule (attempts first) (attempt + 1)).
  { now rewrite Hone, Hline. }
  destruct (outcome_of _) as [v|error];
    [rewrite E; cbn [trace_of fst snd]; exact Hstop|].
  destruct (isClientError error);
    [rewrite E; cbn [trace_of fst snd]; exact Hstop|].
  destruct (isAbortError error);
    [rewrite E; cbn [trace_of fst snd]; exact Hstop|].
  rewrite E. cbn [trace_of fst snd].
  destruct (attempt + 1 <? retries config) eqn:Hpause.
  - specialize (IH (attempt + 1) (Some error)
                   (host_sleep (backoff_delay (attempt + 1)) h1)).
    destruct fuel as [|fuel]; [apply Z.ltb_lt in Hpause; lia|].
    pose proof (retry_loop_attempts_pos req fuel (attempt + 1) (Some error)
                  (host_sleep (backoff_delay (attempt + 1)) h1) Hpause) as Hpos.
    fold (trace_of (retry_loop config req (S fuel) (attempt + 1) (Some error)
                      (host_sleep (backoff_delay (attempt + 1)) h1))).
    rewrite !timeline_app, !attempts_app, Hone, Hline, IH by lia.
    change (attempts [EvSleep (backoff_delay (attempt + 1))]) with 0%nat.
    destruct (attempts _) as [|k]; [lia|]. reflexivity.
  - rewrite retry_loop_exit by exact Hpause.
    cbn [fst snd]. rewrite !app_nil_r. exact Hstop.
Qed.

(** A response with a 4xx status other than 429 makes the [try] block throw
    a classified error that the catch block rethrows. *)
Lemma client_error_response (r : Response) (data : Json) :
  400 <= status r < 500 -> status r <> 429 ->
  decoded r = Return data ->
  outcome_of (Resolved r) = Throw (handleErrorResponse (status r) data)
  /\ isClientError (handleErrorResponse (status r) data) = true.
Proof.
  intros Hs H429 Hdata. cbn [outcome_of].
  rewrite handleResponse_decoded by lia. rewrite Hdata.
  assert (Hok : ok r = false).
  { unfold ok. apply andb_false_iff. right. apply Z.leb_gt. lia. }
  rewrite Hok. split; [reflexivity|].
  unfold isClientError.
  destruct (handleErrorResponse_statusCode (status r) data) as [Hc Hx].
  rewrite Hc, Hx. cbn [andb].
  replace (status r =? 0) with false by (symmetry; apply Z.eqb_neq; lia).
  replace (400 <=? status r) with true by (symmetry; apply Z.leb_le; lia).
  replace (status r <? 500) with true by (symmetry; apply Z.ltb_lt; lia).
  cbn [negb andb].
  unfold handleErrorResponse.
  destruct (status r =? 401); [reflexivity|].
  destruct (status r =? 404); [reflexivity|].
  destruct (Z.eqb_spec (status r) 429); [contradiction|reflexivity].
Qed.

(** When every attempt fails with an error the loop retries, the loop goes
    on until its guard fails and throws what stands below it. *)
Lemma retry_loop_all_retryable (req : Request) (fuel : nat) :
  forall attempt lastError h,
    retries config - attempt <= Z.of_nat fuel ->
    forallb retryable_failure
            (fetched (trace_of (retry_loop config req fuel attempt lastError h)))
    = true ->
    attempts (trace_of (retry_loop config req fuel attempt lastError h))
    = Z.to_nat (retries config - attempt)
    /\ result_of (retry_loop config req fuel attempt lastError h)
       = Throw (exhausted config
                  (last_failure
                     (trace_of (retry_loop config req fuel attempt lastError h))
                     lastError)).
Proof.
  induction fuel as [|fuel IH]; intros attempt lastError h Henough;
    loop_cases; try discriminate.
  1, 2: rewrite E; intros _; cbn; split; [|reflexivity].
  1, 2: destruct Hexit as [Hguard|Hzero];
          [apply Z.ltb_ge in Hguard|try discriminate]; lia.
  injection Hfuel as <-. apply Z.ltb_lt in Hguard. cbn zeta in E.
  set (res := fst (host_fetch req h)) in *.
  set (first := EvFetch req res :: tail) in *.
  assert (Hfirst : fetched first = [res]).
  { unfold first. cbn [fetched]. now rewrite Hf. }
  unfold retryable_failure, failure_of, retryable.
  destruct (outcome_of res) as [v|error] eqn:Hout.
  { rewrite E. cbn [trace_of result_of fst snd]. rewrite Hfirst.
    cbn [forallb]. rewrite Hout. discriminate. }
  destruct (isClientError error) eqn:Hclient.
  { rewrite E. cbn [trace_of result_of fst snd]. rewrite Hfirst.
    cbn [forallb]. rewrite Hout, Hclient. discriminate. }
  destruct (isAbortError error) eqn:Habort.
  { rewrite E. cbn [trace_of result_of fst snd]. rewrite Hfirst.
    cbn [forallb]. rewrite Hout, Hclient, Habort. discriminate. }
  rewrite E. cbn [trace_of result_of fst snd].
  match goal with
  | |- context [retry_loop config req fuel ?a ?l ?s] =>
      specialize (IH a l s);
      set (next := retry_loop config req fuel a l s) in *
  end.
  set (pause := if attempt + 1 <? retries config
                then [EvSleep (backoff_delay (attempt + 1))] else []) in *.
  assert (Hp : fetched pause = []) by (unfold pause; now destruct (_ <? _)).
  unfold attempts. rewrite !fetched_app, Hfirst, Hp. cbn [app forallb].
  intros Hall. apply andb_prop in Hall. destruct Hall as [_ Hall].
  destruct (IH ltac:(lia) Hall) as [Hn Hres].
  split.
  - cbn [List.length]. unfold attempts in Hn. rewrite Hn. lia.
  - rewrite Hres. unfold last_failure.
    rewrite !fetched_app, Hfirst, Hp. cbn [app fold_left].
    unfold failure_of at 3. now rewrite Hout.
Qed.

(** What the catch block throws for an error it does not retry. *)
Lemma retry_loop_stops (req : Request) (fuel : nat) :
  forall attempt lastError h init res rest e,
    fetched (trace_of (retry_loop config req fuel attempt lastError h))
    = init ++ res :: rest ->
    outcome_of res = Throw e ->
    retryable e = false ->
    rest = [] /\
    result_of (retry_loop config req fuel attempt lastError h)
    = Throw (if isClientError e then e
             else TimeoutError
                    ("Request timed out after "
                     ++ Number_toString (timeout config) ++ "ms")%string).
Proof.
  induction fuel as [|fuel IH]; intros attempt lastError h init res rest e;
    loop_cases; try discriminate;
    try (rewrite E; cbn; intros Habs; now destruct init).
  injection Hfuel as <-. cbn zeta in E.
  set (res0 := fst (host_fetch req h)) in *.
  set (first := EvFetch req res0 :: tail) in *.
  assert (Hfirst : fetched first = [res0]).
  { unfold first. cbn [fetched]. now rewrite Hf. }
  intros Hsplit Hout Hstopping.
  assert (Hone : [res0] = init ++ res :: rest -> res0 = res /\ rest = []).
  { intros Heq. destruct init as [|x init]; cbn in Heq.
    - now injection Heq as -> <-.
    - injection Heq as _ Heq. now destruct init. }
  unfold retryable in Hstopping.
  destruct (outcome_of res0) as [v|error] eqn:Hres.
  { rewrite E in *. cbn [trace_of result_of fst snd] in *.
    rewrite Hfirst in Hsplit.
    destruct (Hone Hsplit) as [Heq _]. rewrite Heq, Hout in Hres.
    discriminate. }
  destruct (isClientError error) eqn:Hce.
  { rewrite E in *. cbn [trace_of result_of fst snd] in *.
    rewrite Hfirst in Hsplit.
    destruct (Hone Hsplit) as [Heq Hrest]. rewrite Heq, Hout in Hres.
    injection Hres as <-. now rewrite Hce. }
  destruct (isAbortError error) eqn:Hab.
  { rewrite E in *. cbn [trace_of result_of fst snd] in *.
    rewrite Hfirst in Hsplit.
    destruct (Hone Hsplit) as [Heq Hrest]. rewrite Heq, Hout in Hres.
    injection Hres as <-. now rewrite Hce. }
  assert (Hnot : res0 <> res).
  { intros Heq. rewrite Heq, Hout in Hres. injection Hres as <-.
    rewrite Hce, Hab in Hstopping. discriminate. }
  rewrite E in *. cbn [trace_of result_of fst snd] in *.
  match goal with
  | |- context [retry_loop config req fuel ?a ?l ?s] =>
      specialize (IH a l s);
      set (next := retry_loop config req fuel a l s) in *
  end.
  set (pause := if attempt + 1 <? retries config
                then [EvSleep (backoff_delay (attempt + 1))] else []) in *.
  assert (Hp : fetched pause = []) by (unfold pause; now destruct (_ <? _)).
  rewrite !fetched_app, Hfirst, Hp in Hsplit. cbn [app] in Hsplit.
  destruct init as [|x init]; cbn in Hsplit.
  + injection Hsplit as Hres' _. contradiction.
  + injection Hsplit as _ Hsplit.
    exact (IH init res rest e Hsplit Hout Hstopping).
Qed.

(** After a failure that the catch block retries, the loop makes another
    attempt, unless the failed attempt was the last one that [retries]
    allows. *)
Lemma retry_loop_goes_on (req : Request) (fuel : nat) :
  forall attempt lastError h init res e,
    retries config - attempt <= Z.of_nat fuel ->
    fetched (trace_of (retry_loop config req fuel attempt lastError h))
    = init ++ [res] ->
    outcome_of res = Throw e ->
    retryable e = true ->
    attempt + Z.of_nat (S (List.length init)) = retries config.
Proof.
  induction fuel as [|fuel IH]; intros attempt lastError h init res e Henough;
    loop_cases; try discriminate;
    try (rewrite E; cbn; intros Habs; now destruct init).
  injection Hfuel as <-. apply Z.ltb_lt in Hguard. cbn zeta in E.
  set (res0 := fst (host_fetch req h)) in *.
  set (first := EvFetch req res0 :: tail) in *.
  assert (Hfirst : fetched first = [res0]).
  { unfold first. cbn [fetched]. now rewrite Hf. }
  intros Hsplit Hout Hgoes.
  assert (Hone : [res0] = init ++ [res] -> res0 = res).
  { intros Heq. destruct init as [|x init]; cbn in Heq.
    - now injection Heq as ->.
    - injection Heq as _ Heq. now destruct init. }
  unfold retryable in Hgoes.
  destruct (outcome_of res0) as [v|error] eqn:Hres.
  { rewrite E in *. cbn [trace_of result_of fst snd] in *.
    rewrite Hfirst in Hsplit. rewrite (Hone Hsplit), Hout in Hres.
    discriminate. }
  destruct (isClientError error) eqn:Hce.
  { rewrite E in *. cbn [trace_of result_of fst snd] in *.
    rewrite Hfirst in Hsplit. rewrite (Hone Hsplit), Hout in Hres.
    injection Hres as <-. rewrite Hce in Hgoes. discriminate. }
  destruct (isAbortError error) eqn:Hab.
  { rewrite E in *. cbn [trace_of result_of fst snd] in *.
    rewrite Hfirst in Hsplit. rewrite (Hone Hsplit), Hout in Hres.
    injection Hres as <-. rewrite Hce, Hab in Hgoes. discriminate. }
  rewrite E in *. cbn [trace_of result_of fst snd] in *.
  set (pause := if attempt + 1 <? retries config
                then [EvSleep (backoff_delay (attempt + 1))] else []) in *.
  assert (Hp : fetched pause = []) by (unfold pause; now destruct (_ <? _)).
  rewrite !fetched_app, Hfirst, Hp in Hsplit. cbn [app] in Hsplit.
  destruct init as [|x init]; cbn in Hsplit.
  - injection Hsplit as _ Hnone.
    destruct (attempt + 1 <? retries config) eqn:Hnext;
      [|apply Z.ltb_ge in Hnext; cbn [List.length]; lia].
    destruct fuel as [|fuel]; [apply Z.ltb_lt in Hnext; lia|].
    match type of Hnone with
    | fetched (trace_of (retry_loop config req (S fuel) ?a ?l ?s)) = [] =>
        pose proof (retry_loop_attempts_pos req fuel a l s Hnext) as Hpos
    end.
    unfold attempts in Hpos. rewrite Hnone in Hpos. cbn in Hpos. lia.
  - injection Hsplit as _ Hsplit.
    match type of Hsplit with
    | fetched (trace_of (retry_loop config req fuel ?a ?l ?s)) = _ =>
        pose proof (IH a l s init res e ltac:(lia) Hsplit Hout) as Hrec
    end.
    unfold retryable in Hrec. specialize (Hrec Hgoes).
    cbn [List.length]. lia.
Qed.

(** An attempt that receives a 4xx status other than 429 is the last one,
    and the loop throws the error classified from that response. *)
Lemma retry_loop_client_error (req : Request) (fuel : nat) :
  forall attempt lastError h init r rest data,
    fetched (trace_of (retry_loop config req fuel attempt lastError h))
    = init ++ Resolved r :: rest ->
    400 <= status r < 500 -> status r <> 429 ->
    decoded r = Return data ->
    rest = [] /\
    result_of (retry_loop config req fuel attempt lastError h)
    = Throw (handleErrorResponse (status r) data).
Proof.
  intros attempt lastError h init r rest data Hsplit Hs H429 Hdata.
  destruct (client_error_response r Hs H429 Hdata) as [Hout Hclient].
  destruct (retry_loop_stops req fuel attempt lastError h init _ rest
              Hsplit Hout) as [Hrest Hres].
  { unfold retryable. now rewrite Hclient. }
  split; [exact Hrest|]. now rewrite Hres, Hclient.
Qed.

(** An attempt that the abort timer cuts short is the last one, and the
    loop throws a Timeout error. *)
Lemma retry_loop_abort (req : Request) (fuel : nat) :
  forall attempt lastError h init message rest,
    fetched (trace_of (retry_loop config req fuel attempt lastError h))
    = init ++ Rejected "AbortError" message :: rest ->
    rest = [] /\
    result_of (retry_loop config req fuel attempt lastError h)
    = Throw (TimeoutError
               ("Request timed out after "
                ++ Number_toString (timeout config) ++ "ms")%string).
Proof.
  intros attempt lastError h init message rest Hsplit.
  exact (retry_loop_stops req fuel attempt lastError h init _ rest
           Hsplit eq_refl eq_refl).
Qed.

(** The [try] block never throws a Validation error. *)
Lemma outcome_of_no_validation (res : FetchResult) (e : Error) :
  outcome_of res = Throw e -> isValidationError e = false.
Proof.
  destruct res as [r|name message]; cbn [outcome_of].
  - destruct (Z.eqb_spec (status r) 304) as [E304|E304].
    { unfold handleResponse. rewrite E304. discriminate. }
    rewrite handleResponse_decoded by exact E304.
    destruct (decoded r) as [data|error] eqn:Hdata.
    + destruct (ok r); [discriminate|].
      intros E; injection E as <-; unfold handleErrorResponse;
        destruct (status r =? 401); try reflexivity;
        destruct (status r =? 404); try reflexivity;
        destruct (status r =? 429); reflexivity.
    + destruct (decoded_throws r Hdata) as (name & message & _ & ->).
      intros E. now injection E as <-.
  - intros E. now injection E as <-.
Qed.

(** Nor does the loop. *)
Lemma retry_loop_no_validation (req : Request) (fuel : nat) :
  forall attempt lastError h e,
    (forall e0, lastError = Some e0 -> isValidationError e0 = false) ->
    result_of (retry_loop config req fuel attempt lastError h) = Throw e ->
    isValidationError e = false.
Proof.
  assert (Hbelow : forall lastError e,
             (forall e0, lastError = Some e0 -> isValidationError e0 = false) ->
             Throw (exhausted config lastError) = Throw e :> Completion Json ->
             isValidationError e = false).
  { intros lastError e Hlast Heq. injection Heq as <-. unfold exhausted.
    destruct lastError as [e0|]; [|reflexivity].
    destruct (isXposedOrNotError e0); [now apply Hlast|reflexivity]. }
  induction fuel as [|fuel IH]; intros attempt lastError h e Hlast;
    loop_cases; try discriminate;
    try (rewrite E; cbn [result_of fst]; now apply Hbelow).
  injection Hfuel as <-. cbn zeta in E.
  destruct (outcome_of _) as [v|error] eqn:Hout;
    [rewrite E; discriminate|].
  apply outcome_of_no_validation in Hout.
  destruct (isClientError error);
    [rewrite E; cbn [result_of fst]; intros Heq; now injection Heq as <-|].
  destruct (isAbortError error);
    [rewrite E; cbn [result_of fst]; intros Heq; now injection Heq as <-|].
  rewrite E. cbn [result_of fst]. apply IH.
  intros e0 E0. now injection E0 as <-.
Qed.

(** Whatever the loop throws is a classified error. *)
Lemma retry_loop_classified (req : Request) (fuel : nat) :
  forall attempt lastError h e,
    result_of (retry_loop config req fuel attempt lastError h) = Throw e ->
    isXposedOrNotError e = true.
Proof.
  assert (Hbelow : forall lastError e,
             Throw (exhausted config lastError) = Throw e :> Completion Json ->
             isXposedOrNotError e = true).
  { intros lastError e Heq. injection Heq as <-. unfold exhausted.
    destruct lastError as [e0|]; [|reflexivity].
    now destruct (isXposedOrNotError e0) eqn:Hx. }
  induction fuel as [|fuel IH]; intros attempt lastError h e;
    loop_cases; try discriminate;
    try (rewrite E; cbn [result_of fst]; now apply Hbelow).
  injection Hfuel as <-. cbn zeta in E.
  destruct (outcome_of _) as [v|error]; [rewrite E; discriminate|].
  destruct (isClientError error) eqn:Hclient.
  { rewrite E. cbn [result_of fst]. intros Heq. injection Heq as <-.
    unfold isClientError in Hclient.
    now destruct (isXposedOrNotError error). }
  destruct (isAbortError error);
    [rewrite E; cbn [result_of fst]; intros Heq; now injection Heq as <-|].
  rewrite E. cbn [result_of fst]. apply IH.
Qed.

End LoopFacts.

(** ** The request *)

Section RequestFacts.
Context {RT : Runtime} {H : Type} {HO : Host H}.
Variable config : ResolvedConfig.
Variable endpoint : string.
Variable options : RequestOptions.

(** A request whose URL cannot be built throws before any host call. *)
Lemma request_no_url (h : H) (e : Error) :
  buildUrl config endpoint (opt_params options) = Throw e ->
  request config endpoint options h = (Throw e, [], h).
Proof.
  intros Hurl. unfold request, bind, traced. rewrite Hurl. reflexivity.
Qed.

(** Otherwise it arms the abort timer and enters the loop. *)
Lemma request_run (h : H) (url : string) :
  buildUrl config endpoint (opt_params options) = Return url ->
  let run := retry_loop config (fetch_request config url options)
               (Z.to_nat (retries config)) 0 None
               (host_armAbort (timeout config) h) in
  request config endpoint options h
  = (result_of run, EvArmAbort (timeout config) :: trace_of run, host_of run).
Proof.
  intros Hurl run. unfold request, bind, traced, armAbort. rewrite Hurl.
  cbn [fst snd app]. fold run. now destruct run as [[c t] h'].
Qed.

Lemma request_cases (h : H) :
  (exists e,
     buildUrl config endpoint (opt_params options) = Throw e /\
     request config endpoint options h = (Throw e, [], h)) \/
  (exists url,
     buildUrl config endpoint (opt_params options) = Return url /\
     let run := retry_loop config (fetch_request config url options)
                  (Z.to_nat (retries config)) 0 None
                  (host_armAbort (timeout config) h) in
     request config endpoint options h
     = (result_of run, EvArmAbort (timeout config) :: trace_of run, host_of run)).
Proof.
  destruct (buildUrl config endpoint (opt_params options)) as [url|e] eqn:Hurl.
  - right. exists url. split; [reflexivity|]. now apply request_run.
  - left. exists e. split; [reflexivity|]. now apply request_no_url.
Qed.

(** The only error of [buildUrl] is the one of the URL constructor. *)
Lemma buildUrl_throws (e : Error) :
  buildUrl config endpoint (opt_params options) = Throw e ->
  e = Raw "TypeError" "Invalid URL".
Proof.
  unfold buildUrl.
  destruct (URL_parse endpoint (Some (baseUrl config))); [discriminate|].
  intros E. now injection E as <-.
Qed.

(** A request never makes more attempts than [retries]. *)
Lemma request_attempts_le (h : H) :
  (attempts (trace_of (request config endpoint options h))
   <= Z.to_nat (retries config))%nat.
Proof.
  destruct (request_cases h) as [(e & _ & E)|(url & _ & E)]; rewrite E.
  - cbn. lia.
  - cbn [trace_of fst snd]. unfold attempts. cbn [fetched].
    pose proof (retry_loop_attempts_le config (fetch_request config url options)
                  (Z.to_nat (retries config)) 0 None
                  (host_armAbort (timeout config) h)) as Hle.
    unfold attempts in Hle. rewrite Z.sub_0_r in Hle. exact Hle.
Qed.

Lemma request_timeline (h : H) :
  timeline (trace_of (request config endpoint options h))
  = schedule (attempts (trace_of (request config endpoint options h))) 1.
Proof.
  destruct (request_cases h) as [(e & _ & E)|(url & _ & E)]; rewrite E.
  - reflexivity.
  - cbn [trace_of fst snd timeline]. unfold attempts at 1. cbn [fetched].
    apply (retry_loop_timeline config (fetch_request config url options)
             (Z.to_nat (retries config)) 0 None).
    lia.
Qed.

(** The fuel that [request] gives the loop is enough: more of it changes
    nothing. *)
Lemma request_fuel (req : Request) (more : nat) (h : H) :
  retry_loop config req (Z.to_nat (retries config) + more) 0 None h
  = retry_loop config req (Z.to_nat (retries config)) 0 None h.
Proof. apply retry_loop_fuel; lia. Qed.

(** After a failure that the catch block retries, the request makes
    another attempt, unless the failed attempt was attempt number
    [retries]. *)
Lemma request_goes_on (h : H) (init : list FetchResult) (res : FetchResult)
      (e : Error) :
  fetched (trace_of (request config endpoint options h)) = init ++ [res] ->
  outcome_of res = Throw e ->
  retryable e = true ->
  Z.of_nat (S (List.length init)) = retries config.
Proof.
  destruct (request_cases h) as [(e' & _ & E)|(url & _ & E)]; rewrite E.
  - cbn. intros Habs. now destruct init.
  - cbn [trace_of fst snd fetched]. intros Hsplit Hout Hgoes.
    assert (Henough : retries config - 0
                      <= Z.of_nat (Z.to_nat (retries config))) by lia.
    pose proof (@retry_loop_goes_on RT H HO config
                  (fetch_request config url options)
                  (Z.to_nat (retries config)) 0 None
                  (host_armAbort (timeout config) h) init res e
                  Henough Hsplit Hout Hgoes) as Hn.
    lia.
Qed.

Lemma request_sleeps (h : H) :
  sleeps (trace_of (request config endpoint options h))
  = map (fun i => backoff_delay (1 + Z.of_nat i))
        (seq 0 (attempts (trace_of (request config endpoint options h)) - 1)).
Proof.
  rewrite sleeps_timeline, request_timeline. apply schedule_waits.
Qed.

End RequestFacts.

Lemma backoff_delay_capped (attempt : Z) :
  5 <= attempt -> backoff_delay attempt = 10000.
Proof.
  intros Ha. unfold backoff_delay.
  assert (2 ^ 4 <= 2 ^ (attempt - 1)) by (apply Z.pow_le_mono_r; lia).
  change (2 ^ 4) with 16 in *. lia.
Qed.

(** C6: in every run of [request] the attempts and the waits alternate,
    with a wait after every attempt but the last one and none after the
    last; the wait after attempt number [a] is
    [min (1000 * 2^(a-1)) 10000] milliseconds, which is 1000, 2000, 4000
    and 8000 after attempts 1 to 4 and 10000 from attempt 5 on. *)
Theorem request_backoff_schedule
        {RT : Runtime} {H : Type} {HO : Host H}
        (config : ResolvedConfig) (endpoint : string)
        (options : RequestOptions) (h : H) :
  let tr := trace_of (request config endpoint options h) in
  timeline tr = schedule (attempts tr) 1
  /\ sleeps tr = map (fun i => backoff_delay (1 + Z.of_nat i))
                     (seq 0 (attempts tr - 1))
  /\ (forall a, 1 <= a -> backoff_delay a = Z.min (1000 * 2 ^ (a - 1)) 10000)
  /\ map backoff_delay [1; 2; 3; 4] = [1000; 2000; 4000; 8000]
  /\ (forall a, 5 <= a -> backoff_delay a = 10000).
Proof.
  intros tr. split; [apply request_timeline|].
  split; [apply request_sleeps|].
  split; [reflexivity|].
  split; [reflexivity|].
  exact backoff_delay_capped.
Qed.

(** C4, as the code has it: when an attempt of a request receives a
    response with a 4xx status other than 429 and the body of that response
    is read (with value [data]), that attempt is the last one: no attempt
    follows it, the request throws the error classified from that response
    (Authentication for 401, NotFound for 404, Api otherwise), and the only
    waits of the run are the ones before the earlier retries, so none at
    all when the response came on the first attempt.  The body of a JSON
    content type is always read ([decoded_json]).  When the text body of
    the response cannot be read, the response is not classified: the catch
    block gets the raw error of the read and, unless that error is an
    AbortError, another attempt follows, except after attempt number
    [retries]. *)
Theorem client_error_ends_request
        {RT : Runtime} {H : Type} {HO : Host H}
        (config : ResolvedConfig) (endpoint : string)
        (options : RequestOptions) (h : H)
        (init rest : list FetchResult) (r : Response) :
  fetched (trace_of (request config endpoint options h))
  = init ++ Resolved r :: rest ->
  400 <= status r < 500 ->
  status r <> 429 ->
  let run := request config endpoint options h in
  (forall data,
     decoded r = Return data ->
     let message := extractErrorMessage data in
     rest = []
     /\ result_of run = Throw (handleErrorResponse (status r) data)
     /\ (status r = 401 -> result_of run = Throw (AuthenticationError message))
     /\ (status r = 404 -> result_of run = Throw (NotFoundError message))
     /\ attempts (trace_of run) = S (List.length init)
     /\ List.length (sleeps (trace_of run)) = List.length init
     /\ (init = [] -> timeline (trace_of run) = [Attempt]))
  /\ (forall error,
        decoded r = Throw error ->
        failure_of (Resolved r) = Some error
        /\ isXposedOrNotError error = false
        /\ (isAbortError error = false ->
            rest = [] ->
            Z.of_nat (S (List.length init)) = retries config)).
Proof.
  intros Hsplit Hs H429 run. split.
  - intros data Hdata message.
    assert (Hcore : rest = [] /\
                    result_of run
                    = Throw (handleErrorResponse (status r) data)).
    { subst run.
      destruct (request_cases config endpoint options h)
        as [(e & _ & E)|(url & _ & E)]; rewrite E in *.
      - cbn in Hsplit. now destruct init.
      - cbn [trace_of result_of fst snd fetched] in *.
        eapply retry_loop_client_error; eauto. }
    destruct Hcore as [Hrest Hres]. subst rest.
    assert (Hn : attempts (trace_of run) = S (List.length init)).
    { unfold attempts. subst run. rewrite Hsplit, length_app. cbn. lia. }
    split; [reflexivity|]. split; [exact Hres|].
    split; [intros E; rewrite Hres; unfold handleErrorResponse; now rewrite E|].
    split; [intros E; rewrite Hres; unfold handleErrorResponse; now rewrite E|].
    split; [exact Hn|].
    split.
    + subst run. rewrite request_sleeps, length_map, length_seq, Hn. lia.
    + intros ->. subst run. rewrite request_timeline, Hn. reflexivity.
  - intros error Herror.
    assert (Hout : outcome_of (Resolved r) = Throw error).
    { cbn [outcome_of]. rewrite handleResponse_decoded by lia.
      now rewrite Herror. }
    destruct (decoded_throws r Herror) as (name & message & _ & ->).
    split; [unfold failure_of; now rewrite Hout|].
    split; [reflexivity|].
    intros Hab ->.
    apply (@request_goes_on RT H HO config endpoint options h init
                            (Resolved r) _ Hsplit Hout).
    unfold retryable. now rewrite Hab.
Qed.

(** C4 as stated fails on a response whose text body cannot be read: the
    read stands outside the [try] block of [handleResponse], so a 404 of
    content type [text/plain] whose [response.text()] rejects is never
    classified; the catch block of [request] gets the raw error of the
    read, waits 1000 ms and makes a second attempt, whose value the request
    returns. *)
Lemma unreadable_client_error_is_retried :
  let run := request (RT := SimpleRuntime.runtime) (HO := ScriptHost.host)
               (Examples.config 3) "/v1/breaches" Examples.no_options
               [Resolved (Examples.unreadable 404); Examples.success] in
  fetched (trace_of run)
  = [Resolved (Examples.unreadable 404); Examples.success]
  /\ failure_of (RT := SimpleRuntime.runtime)
                (Resolved (Examples.unreadable 404))
     = Some (Raw "TypeError" "terminated")
  /\ timeline (trace_of run) = [Attempt; Wait 1000; Attempt]
  /\ result_of run = Return (JObj [("ok"%string, JBool true)]).
Proof. repeat split; reflexivity. Qed.

(** ** Exhausted retries *)

Section ExhaustedFacts.
Context {RT : Runtime} {H : Type} {HO : Host H}.
Variable config : ResolvedConfig.
Variable endpoint : string.
Variable options : RequestOptions.

Lemma last_failure_last (tr : Trace) (init : list FetchResult)
      (res : FetchResult) (dflt : option Error) :
  fetched tr = init ++ [res] -> last_failure tr dflt = failure_of res.
Proof.
  intros E. unfold last_failure. rewrite E, fold_left_app. reflexivity.
Qed.

(** When every attempt of a request fails with an error the loop retries,
    the request makes [retries] attempts and throws what [exhausted] makes
    of the failure of the last one. *)
Lemma request_all_retryable (h : H) (url : string) :
  1 <= retries config ->
  buildUrl config endpoint (opt_params options) = Return url ->
  forallb retryable_failure
          (fetched (trace_of (request config endpoint options h))) = true ->
  attempts (trace_of (request config endpoint options h))
  = Z.to_nat (retries config)
  /\ exists init res e,
       fetched (trace_of (request config endpoint options h)) = init ++ [res]
       /\ failure_of res = Some e
       /\ retryable e = true
       /\ result_of (request config endpoint options h)
          = Throw (exhausted config (Some e)).
Proof.
  intros Hn Hurl.
  rewrite (request_run config endpoint options h Hurl).
  cbn [trace_of result_of fst snd fetched]. unfold attempts at 1. cbn [fetched].
  set (run := retry_loop _ _ _ _ _ _).
  intros Hall.
  assert (Henough : retries config - 0 <= Z.of_nat (Z.to_nat (retries config)))
    by lia.
  destruct (retry_loop_all_retryable config _ _ _ _ _ Henough Hall)
    as [Hk Hres].
  fold run in Hk, Hres. rewrite Z.sub_0_r in Hk.
  split; [exact Hk|].
  destruct (fetched (trace_of run)) as [|x l] eqn:Hf.
  { unfold attempts in Hk. rewrite Hf in Hk. cbn in Hk. lia. }
  destruct (@exists_last _ (x :: l)) as (init & res & Hlast); [discriminate|].
  rewrite Hlast in Hall.
  rewrite forallb_app in Hall. apply andb_prop in Hall.
  destruct Hall as [_ Hlastok]. cbn [forallb] in Hlastok.
  rewrite andb_true_r in Hlastok.
  unfold retryable_failure in Hlastok.
  destruct (failure_of res) as [e|] eqn:Hfail; [|discriminate].
  exists init, res, e.
  split; [exact Hlast|]. split; [exact Hfail|]. split; [exact Hlastok|].
  rewrite Hres. f_equal. f_equal.
  rewrite <- Hfail. eapply last_failure_last. rewrite Hf. exact Hlast.
Qed.

End ExhaustedFacts.

(** C3: with [retries = n >= 1], when every attempt fails with an error the
    loop retries, the request makes exactly [n] attempts and then throws
    the failure of the last attempt: as it is when it is a classified
    error, and wrapped otherwise in a Network error whose message ends with
    the original message and whose cause is the original error.  What the
    caller sees is a classified error in both cases. *)
Theorem exhausted_retries_surface_last_failure
        {RT : Runtime} {H : Type} {HO : Host H}
        (config : ResolvedConfig) (endpoint : string)
        (options : RequestOptions) (h : H) (url : string) :
  1 <= retries config ->
  buildUrl config endpoint (opt_params options) = Return url ->
  forallb retryable_failure
          (fetched (trace_of (request config endpoint options h))) = true ->
  let run := request config endpoint options h in
  attempts (trace_of run) = Z.to_nat (retries config)
  /\ exists init res e,
       fetched (trace_of run) = init ++ [res]
       /\ failure_of res = Some e
       /\ (isXposedOrNotError e = true -> result_of run = Throw e)
       /\ (forall name message,
             e = Raw name message ->
             result_of run
             = Throw (NetworkError
                        ("Request failed after "
                         ++ Number_toString (inject_Z (retries config))
                         ++ " attempts: " ++ message)%string
                        (Some (Raw name message))))
       /\ exists thrown,
            result_of run = Throw thrown /\ isXposedOrNotError thrown = true.
Proof.
  intros Hn Hurl Hall run.
  destruct (request_all_retryable config endpoint options h Hn Hurl Hall)
    as (Hk & init & res & e & Hlast & Hfail & _ & Hres).
  split; [exact Hk|].
  exists init, res, e.
  split; [exact Hlast|]. split; [exact Hfail|].
  subst run. rewrite Hres. unfold exhausted.
  split; [intros Hx; now rewrite Hx|].
  split; [intros name message ->; reflexivity|].
  destruct (isXposedOrNotError e) eqn:Hx; eauto.
Qed.

Lemma rate_limit_response {RT : Runtime} (r : Response) (data : Json) :
  status r = 429 ->
  decoded r = Return data ->
  failure_of (Resolved r)
  = Some (RateLimitError (extractErrorMessage data) (extractRetryAfter data))
  /\ retryable_failure (Resolved r) = true.
Proof.
  intros Hs Hdata.
  assert (E : failure_of (Resolved r)
              = Some (RateLimitError (extractErrorMessage data)
                                     (extractRetryAfter data))).
  { unfold failure_of, outcome_of.
    rewrite handleResponse_decoded by lia. rewrite Hdata.
    unfold ok, handleErrorResponse. rewrite Hs. reflexivity. }
  split; [exact E|].
  unfold retryable_failure. rewrite E. reflexivity.
Qed.

(** C5, as the code has it: a 429 response whose body is read is
    classified as a RateLimit error and retried: with [retries = n >= 1],
    when every attempt receives such a response, the request makes exactly
    [n] attempts and throws the RateLimit error of the last response, with
    the retry-after value of its decoded body.  That value is the
    snake_case field when it is a number; otherwise (the field absent, or
    present with a value that is no number) the camelCase field when it is
    a number; and absent when neither field is a number or the body is no
    object.  The body [{"retry_after": 60}] gives 60.  The value differs
    from the first-present-wins reading of the specification exactly when
    the snake_case field is present without being a number and the
    camelCase field is a number. *)
Theorem rate_limit_retried_then_surfaced
        {RT : Runtime} {H : Type} {HO : Host H}
        (config : ResolvedConfig) (endpoint : string)
        (options : RequestOptions) (h : H) (url : string) :
  1 <= retries config ->
  buildUrl config endpoint (opt_params options) = Return url ->
  forallb is_429 (fetched (trace_of (request config endpoint options h)))
  = true ->
  forallb body_is_read (fetched (trace_of (request config endpoint options h)))
  = true ->
  let run := request config endpoint options h in
  attempts (trace_of run) = Z.to_nat (retries config)
  /\ (exists init r data,
        fetched (trace_of run) = init ++ [Resolved r]
        /\ status r = 429
        /\ decoded r = Return data
        /\ result_of run
           = Throw (RateLimitError (extractErrorMessage data)
                                   (extractRetryAfter data)))
  /\ (forall fields n,
        assoc "retry_after" fields = Some (JNum n) ->
        extractRetryAfter (JObj fields) = Some n)
  /\ (forall fields n,
        (forall m, assoc "retry_after" fields <> Some (JNum m)) ->
        assoc "retryAfter" fields = Some (JNum n) ->
        extractRetryAfter (JObj fields) = Some n)
  /\ (forall fields,
        (forall m, assoc "retry_after" fields <> Some (JNum m)) ->
        (forall m, assoc "retryAfter" fields <> Some (JNum m)) ->
        extractRetryAfter (JObj fields) = None)
  /\ (forall data,
        (forall fields, data <> JObj fields) ->
        extractRetryAfter data = None)
  /\ extractRetryAfter (JObj [("retry_after", JNum 60)]) = Some 60%Q
  /\ (forall data,
        extractRetryAfter data <> retryAfter_as_specified data <->
        exists fields value n,
          data = JObj fields
          /\ assoc "retry_after" fields = Some value
          /\ (forall m, value <> JNum m)
          /\ assoc "retryAfter" fields = Some (JNum n)).
Proof.
  intros Hn Hurl H429 Hread run.
  assert (Hall : forallb retryable_failure
                   (fetched (trace_of (request config endpoint options h)))
                 = true).
  { apply forallb_forall. intros res Hin.
    rewrite forallb_forall in H429, Hread.
    specialize (H429 res Hin). specialize (Hread res Hin).
    destruct res as [r|]; [|discriminate].
    cbn [body_is_read] in Hread.
    destruct (decoded r) as [data|] eqn:Hdata; [|discriminate].
    apply Z.eqb_eq in H429.
    exact (proj2 (rate_limit_response r H429 Hdata)). }
  destruct (request_all_retryable config endpoint options h Hn Hurl Hall)
    as (Hk & init & res & e & Hlast & Hfail & _ & Hres).
  split; [exact Hk|].
  split.
  { rewrite forallb_forall in H429, Hread.
    assert (Hin : In res (fetched (trace_of (request config endpoint options h)))).
    { rewrite Hlast. apply in_or_app. right. now left. }
    specialize (H429 res Hin). specialize (Hread res Hin).
    destruct res as [r|]; [|discriminate].
    apply Z.eqb_eq in H429. cbn [body_is_read] in Hread.
    destruct (decoded r) as [data|] eqn:Hdata; [|discriminate].
    destruct (rate_limit_response r H429 Hdata) as [E _].
    rewrite E in Hfail. injection Hfail as <-.
    exists init, r, data. split; [exact Hlast|]. split; [exact H429|].
    split; [exact Hdata|].
    subst run. rewrite Hres. reflexivity. }
  split.
  { intros fields n E. cbn. now rewrite E. }
  split.
  { intros fields n Hno E. cbn. rewrite E.
    destruct (assoc "retry_after" fields) as [[| | m | | |]|];
      try reflexivity. now destruct (Hno m). }
  split.
  { intros fields Hno1 Hno2. cbn.
    destruct (assoc "retry_after" fields) as [[| | m | | |]|];
      try (now destruct (Hno1 m));
      destruct (assoc "retryAfter" fields) as [[| | m' | | |]|];
      try reflexivity; now destruct (Hno2 m'). }
  split.
  { intros data Hno. destruct data; try reflexivity. now destruct (Hno fields). }
  split; [reflexivity|].
  intros data. split.
  - destruct data as [| | | | |fields]; cbn; try congruence.
    destruct (assoc "retry_after" fields) as [value|] eqn:E1; [|congruence].
    assert (Hvalue : (exists m, value = JNum m) \/ (forall m, value <> JNum m)).
    { destruct value; try (right; intros m; discriminate). left. eauto. }
    destruct Hvalue as [[m ->]|Hvalue]; [congruence|].
    destruct (assoc "retryAfter" fields) as [[| | n | | |]|] eqn:E2;
      try (destruct value; congruence).
    intros _. exists fields, value, n. repeat split; assumption.
  - intros (fields & value & n & -> & E1 & Hvalue & E2). cbn.
    rewrite E1, E2.
    destruct value; try discriminate. now destruct (Hvalue q).
Qed.

(** C5 as stated fails twice.  The first field present does not win when
    it holds no number: for [{"retry_after": "60", "retryAfter": 30}] the
    code passes the snake_case field over and the RateLimit error carries
    30, where the specification gives no value.  And a 429 whose text body
    cannot be read is not classified as a rate limit at all: once the
    attempts are used up the request throws a Network error around the raw
    error of the read. *)
Lemma retry_after_falls_through :
  let body := JObj [("retry_after"%string, JStr "60");
                    ("retryAfter"%string, JNum 30)] in
  retryAfter_as_specified body = None
  /\ extractRetryAfter body = Some 30%Q
  /\ result_of (request (RT := SimpleRuntime.runtime) (HO := ScriptHost.host)
                  (Examples.config 1) "/v1/breaches" Examples.no_options
                  [Examples.rate_limited_text_field])
     = Throw (RateLimitError "An unknown error occurred" (Some 30%Q))
  /\ result_of (request (RT := SimpleRuntime.runtime) (HO := ScriptHost.host)
                  (Examples.config 1) "/v1/breaches" Examples.no_options
                  [Resolved (Examples.unreadable 429)])
     = Throw (NetworkError "Request failed after 1 attempts: terminated"
                           (Some (Raw "TypeError" "terminated"))).
Proof. repeat split; reflexivity. Qed.

(** ** Decoding *)

(** C8, as the code has it: a 304 response gives the empty object without
    reading the body; a 2xx response whose content type names JSON gives
    the decoded JSON, or null when decoding fails; a 2xx response of any
    other content type (or of none) gives the body text when
    [response.text()] resolves with it, and when that call rejects its
    error is thrown, for whatever status other than 304: only the JSON
    decode is guarded. *)
Theorem handleResponse_decodes {RT : Runtime} (r : Response) :
  (status r = 304 -> handleResponse r = (Return (JObj []), []))
  /\ (ok r = true ->
      forall contentType,
        content_type r = Some contentType ->
        includes "application/json" contentType = true ->
        handleResponse r
        = (Return (match json r with Some v => v | None => JNull end),
           [EvJson]))
  /\ (ok r = true ->
      (forall contentType,
         content_type r = Some contentType ->
         includes "application/json" contentType = false) ->
      forall s,
        text r = Text s ->
        handleResponse r = (Return (JStr s), [EvText]))
  /\ (status r <> 304 ->
      (forall contentType,
         content_type r = Some contentType ->
         includes "application/json" contentType = false) ->
      forall name message,
        text r = TextRejects name message ->
        handleResponse r = (Throw (Raw name message), [EvText])).
Proof.
  assert (Hok : ok r = true -> (status r =? 304) = false).
  { unfold ok. intros Hok. apply andb_prop in Hok. destruct Hok as [_ Hle].
    apply Z.leb_le in Hle. apply Z.eqb_neq. lia. }
  split; [|split; [|split]].
  - intros Hs. unfold handleResponse. now rewrite Hs.
  - intros Hr contentType Hct Hjson. unfold handleResponse.
    rewrite (Hok Hr), Hct, Hjson, Hr. reflexivity.
  - intros Hr Hother s Hs. unfold handleResponse, readText.
    rewrite (Hok Hr), Hr, Hs.
    destruct (content_type r) as [contentType|]; [|reflexivity].
    now rewrite (Hother contentType eq_refl).
  - intros H304 Hother name message Hs. unfold handleResponse, readText.
    apply Z.eqb_neq in H304. rewrite H304, Hs.
    destruct (content_type r) as [contentType|]; [|reflexivity].
    now rewrite (Hother contentType eq_refl).
Qed.

(** C8 as stated fails on a text body that cannot be read: a 200 of content
    type [text/plain] whose [response.text()] rejects is not returned as
    text, nor as null as an undecodable JSON body is; [handleResponse]
    throws the error of the read. *)
Lemma unreadable_text_is_thrown :
  ok (Examples.unreadable 200) = true
  /\ handleResponse (RT := SimpleRuntime.runtime) (Examples.unreadable 200)
     = (Throw (Raw "TypeError" "terminated"), [EvText])
  /\ handleResponse (RT := SimpleRuntime.runtime) Examples.broken_json
     = (Return JNull, [EvJson]).
Proof. repeat split; reflexivity. Qed.

Lemma handleResponse_decodes_witness :
  handleResponse (RT := SimpleRuntime.runtime) Examples.not_modified
  = (Return (JObj []), [])
  /\ handleResponse (RT := SimpleRuntime.runtime) Examples.broken_json
     = (Return JNull, [EvJson])
  /\ handleResponse (RT := SimpleRuntime.runtime) Examples.plain_text
     = (Return (JStr "pong"), [EvText]).
Proof.
  split; [|split].
  - exact (proj1 (handleResponse_decodes Examples.not_modified) eq_refl).
  - exact (proj1 (proj2 (handleResponse_decodes Examples.broken_json))
                 eq_refl _ eq_refl eq_refl).
  - apply (proj1 (proj2 (proj2 (handleResponse_decodes Examples.plain_text)))
                 eq_refl); [|reflexivity].
    intros contentType E. injection E as <-. reflexivity.
Defined.

(** ** URL construction *)

Lemma searchParams_set_fresh (key value : string) (l : list (string * string)) :
  ~ In key (map fst l) -> searchParams_set key value l = l ++ [(key, value)].
Proof.
  induction l as [|[k w] l IH]; cbn [searchParams_set map fst In app];
    intros Hfresh; [reflexivity|].
  destruct (String.eqb_spec k key) as [->|_].
  - exfalso. apply Hfresh. now left.
  - rewrite IH; [reflexivity|]. intros Hin. apply Hfresh. now right.
Qed.

(** An entry without a value leaves the search parameters as they are. *)
Lemma fold_set_present_filter (params : Params) :
  forall acc,
    fold_left set_present params acc
    = fold_left set_present (filter is_present params) acc.
Proof.
  induction params as [|[k [v|]] params IH]; intros acc;
    cbn [filter is_present snd fold_left]; [reflexivity| |]; apply IH.
Qed.

(** Fresh keys are appended in the order of the entries. *)
Lemma fold_set_present_fresh (params : Params) :
  forall acc,
    NoDup (map fst params) ->
    (forall k, In k (map fst params) -> ~ In k (map fst acc)) ->
    fold_left set_present params acc = acc ++ present_entries params.
Proof.
  induction params as [|[k v] params IH]; intros acc Hnodup Hfresh.
  - cbn. now rewrite app_nil_r.
  - cbn [map fst] in Hnodup. inversion Hnodup as [|? ? Hk Hrest]; subst.
    cbn [fold_left].
    assert (Hacc : forall k', In k' (map fst params) -> ~ In k' (map fst acc)).
    { intros k' Hin. apply Hfresh. now right. }
    destruct v as [value|]; unfold set_present at 2; cbn [fst snd].
    + rewrite searchParams_set_fresh by (apply Hfresh; now left).
      rewrite IH; [now rewrite <- app_assoc|exact Hrest|].
      intros k' Hin. rewrite map_app, in_app_iff. cbn [map fst In].
      intros [Hold|[Heq|[]]]; [now apply (Hacc k')|].
      subst k'. contradiction.
    + now apply IH.
Qed.

(** C9: an entry of the query mapping whose value is [undefined] leaves no
    mark on the URL: the URL is the one built from the mapping without it.
    When the endpoint brings no query of its own, the search parameters of
    the URL are exactly the entries that have a value, in order, each with
    its value coerced to a string; [true] is coerced to ["true"]. *)
Theorem buildUrl_query {RT : Runtime} (config : ResolvedConfig)
        (endpoint : string) (params : Params) (url : URL) :
  URL_parse endpoint (Some (baseUrl config)) = Some url ->
  buildUrl config endpoint (Some params)
  = buildUrl config endpoint (Some (filter is_present params))
  /\ (searchParams url = [] ->
      NoDup (map fst params) ->
      buildUrl config endpoint (Some params)
      = Return (URL_toString
                  (mkURL (protocol url) (location url) (present_entries params))))
  /\ (forall key before after,
        present_entries (before ++ (key, None) :: after)
        = present_entries (before ++ after))
  /\ (forall key, present_entries [(key, Some (PBool true))] = [(key, "true"%string)]).
Proof.
  intros Hurl. unfold buildUrl. rewrite Hurl.
  split; [now rewrite fold_set_present_filter|].
  split.
  - intros Hempty Hnodup. rewrite Hempty.
    rewrite fold_set_present_fresh; [reflexivity|exact Hnodup|].
    intros k _ [].
  - split; [|reflexivity].
    intros key before after. unfold present_entries.
    now rewrite !flat_map_app.
Qed.

Lemma buildUrl_query_witness :
  buildUrl (RT := SimpleRuntime.runtime) (Examples.config 3) "/v1/breaches"
           (Some Examples.query)
  = Return "https://api.xposedornot.com/v1/breaches?domain=adobe.com&include_details=true"%string.
Proof.
  refine (proj1 (proj2 (buildUrl_query
                          (RT := SimpleRuntime.runtime) (Examples.config 3)
                          "/v1/breaches" Examples.query
                          (url := mkURL "https:" "api.xposedornot.com/v1/breaches" [])
                          eq_refl)) eq_refl _).
  repeat constructor; cbn; intuition discriminate.
Defined.

(** ** Configuration *)

Section ConfigFacts.
Context {RT : Runtime}.

Lemma validateBaseUrl_spec (b : string) :
  (https_url b = true -> validateBaseUrl b = Return tt)
  /\ (https_url b = false ->
      exists message, validateBaseUrl b
                      = Throw (ValidationError message (Some "baseUrl"%string))).
Proof.
  unfold https_url, validateBaseUrl.
  destruct (URL_parse b None) as [url|].
  - destruct (String.eqb (protocol url) "https:"); cbn [negb];
      split; intros E; try discriminate; eauto.
  - split; intros E; try discriminate; eauto.
Qed.

Lemma validateTimeout_spec (t : Number) :
  (in_range 1000 300000 t = true ->
   exists q, t = Finite q /\ validateTimeout t = Return q)
  /\ (in_range 1000 300000 t = false ->
      exists message, validateTimeout t
                      = Throw (ValidationError message (Some "timeout"%string))).
Proof.
  unfold in_range, validateTimeout.
  destruct t as [q| | |]; try solve [split; intros E; try discriminate; eauto].
  destruct (Qle_bool 1000 q), (Qle_bool q 300000); cbn [andb negb orb];
    split; intros E; try discriminate; eauto.
Qed.

Lemma validateRetries_spec (r : Number) :
  (Number_isInteger r && in_range 0 10 r = true ->
   exists q, r = Finite q /\ validateRetries r = Return (Qfloor q))
  /\ (Number_isInteger r && in_range 0 10 r = false ->
      exists message, validateRetries r
                      = Throw (ValidationError message (Some "retries"%string))).
Proof.
  unfold in_range, validateRetries.
  destruct r as [q| | |]; try solve [split; intros E; try discriminate; eauto].
  destruct (Number_isInteger (Finite q)); cbn [andb negb];
    [|split; intros E; try discriminate; eauto].
  destruct (Qle_bool 0 q), (Qle_bool q 10); cbn [andb negb orb];
    split; intros E; try discriminate; eauto.
Qed.

End ConfigFacts.

(** C7, as the code has it: constructing the facade fails with a
    Validation error exactly when the configuration is invalid, where a
    valid configuration has a base URL that parses and uses https, a
    timeout that is a finite number (an integer or not) in [1000, 300000]
    and a number of retries that is an integer in [0, 10]; a valid
    configuration is accepted as given, and a request raises no Validation
    error, whatever the configuration it runs with. *)
Theorem construction_validates
        {RT : Runtime} (c : XposedOrNotConfig) :
  (valid_config c = true ->
   exists resolved,
     XposedOrNot_new c = Return resolved
     /\ baseUrl resolved = effective_baseUrl c
     /\ effective_timeout c = Finite (timeout resolved)
     /\ exists q, effective_retries c = Finite q /\ retries resolved = Qfloor q)
  /\ (valid_config c = false ->
      exists message field,
        XposedOrNot_new c = Throw (ValidationError message field))
  /\ (forall (H : Type) (HO : Host H) config endpoint options (h : H) e,
        result_of (request config endpoint options h) = Throw e ->
        isValidationError e = false).
Proof.
  unfold valid_config, XposedOrNot_new, resolveConfig.
  fold (effective_baseUrl c) (effective_timeout c) (effective_retries c).
  destruct (validateBaseUrl_spec (effective_baseUrl c)) as [Hb1 Hb0].
  destruct (validateTimeout_spec (effective_timeout c)) as [Ht1 Ht0].
  destruct (validateRetries_spec (effective_retries c)) as [Hr1 Hr0].
  split; [|split].
  - intros Hv. apply andb_prop in Hv. destruct Hv as [Hv Hr].
    apply andb_prop in Hv. destruct Hv as [Hb Ht].
    rewrite (Hb1 Hb).
    destruct (Ht1 Ht) as (t & Et & ->).
    destruct (Hr1 Hr) as (q & Eq & ->).
    eexists. split; [reflexivity|]. cbn [baseUrl timeout retries].
    split; [reflexivity|]. split; [exact Et|]. eauto.
  - intros Hv.
    destruct (https_url (effective_baseUrl c)) eqn:Hb.
    + rewrite (Hb1 eq_refl).
      destruct (in_range 1000 300000 (effective_timeout c)) eqn:Ht.
      * destruct (Ht1 eq_refl) as (t & _ & ->).
        cbn [andb] in Hv. destruct (Hr0 Hv) as (message & ->). eauto.
      * destruct (Ht0 eq_refl) as (message & ->). eauto.
    + destruct (Hb0 eq_refl) as (message & ->). eauto.
  - intros H HO config endpoint options h e.
    destruct (request_cases config endpoint options h)
      as [(e' & Hurl & E)|(url & _ & E)]; rewrite E; cbn [result_of fst].
    + apply buildUrl_throws in Hurl. subst e'.
      intros E'. now injection E' as <-.
    + apply retry_loop_no_validation. discriminate.
Qed.

(** C7 as stated fails: a timeout of 1500.5 ms is no integer, and the
    facade is constructed all the same. *)
Lemma fractional_timeout_accepted :
  valid_as_specified (RT := SimpleRuntime.runtime) Examples.fractional_timeout
  = false
  /\ XposedOrNot_new (RT := SimpleRuntime.runtime) Examples.fractional_timeout
     = Return {| baseUrl := "https://api.xposedornot.com";
                 timeout := 3001 # 2;
                 retries := 3;
                 headers := [] |}.
Proof. split; reflexivity. Qed.

Lemma construction_validates_witness :
  exists resolved,
    XposedOrNot_new (RT := SimpleRuntime.runtime) Examples.default_config
    = Return resolved
    /\ baseUrl resolved = "https://api.xposedornot.com"%string
    /\ Finite 30000 = Finite (timeout resolved)
    /\ exists q, Finite (inject_Z 3) = Finite q /\ retries resolved = Qfloor q.
Proof.
  exact (proj1 (construction_validates
                  (RT := SimpleRuntime.runtime) Examples.default_config)
               eq_refl).
Defined.

(** ** Endpoint functions *)

(** C10: for a valid email, each of the two endpoint functions on its
    own: when the request of [checkEmail] throws a NotFound error,
    [checkEmail] returns its not-found result ([found] false, no breaches)
    with the email it was given, and it rethrows any other error of its
    request as it is; when the request of [getBreachAnalytics] throws a
    NotFound error, [getBreachAnalytics] returns its not-found result
    ([found] false, no analytics) with the email it was given, and it
    rethrows any other error of its request as it is. *)
Theorem not_found_absorbed
        {RT : Runtime} {H : Type} {HO : Host H}
        (http : ResolvedConfig) (email : string)
        (check_options : CheckEmailOptions)
        (analytics_options : GetBreachAnalyticsOptions) :
  validateEmail email = Return tt ->
  (forall (h : H) (e : Error),
     result_of (request http (checkEmail_endpoint email)
                        (checkEmail_request check_options) h) = Throw e ->
     result_of (checkEmail http email check_options h)
     = (if isNotFoundError e
        then Return {| ce_email := Some (JStr email);
                       ce_found := false;
                       ce_breaches := [] |}
        else Throw e))
  /\ (forall (h : H) (e : Error),
        result_of (request http "/v1/breach-analytics"
                           (breachAnalytics_request email analytics_options) h)
        = Throw e ->
        result_of (getBreachAnalytics http email analytics_options h)
        = (if isNotFoundError e
           then Return {| ba_email := email;
                          ba_found := false;
                          ba_analytics := JNull |}
           else Throw e)).
Proof.
  intros Hvalid.
  split; intros h e Hthrow;
    unfold checkEmail, getBreachAnalytics, bind, try_catch, traced;
    rewrite Hvalid; cbn [fst snd].
  - destruct (request http (checkEmail_endpoint email) _ h) as [[c t] h'].
    cbn [result_of fst] in Hthrow. subst c.
    unfold throw, ret. now destruct (isNotFoundError e).
  - destruct (request http "/v1/breach-analytics" _ h) as [[c t] h'].
    cbn [result_of fst] in Hthrow. subst c.
    unfold throw, ret. now destruct (isNotFoundError e).
Qed.

Lemma not_found_absorbed_witness :
  result_of (checkEmail (RT := SimpleRuntime.runtime) (HO := ScriptHost.host)
               (Examples.config 3) "user@example.com" Examples.no_details
               [Examples.not_found])
  = Return {| ce_email := Some (JStr "user@example.com");
              ce_found := false;
              ce_breaches := [] |}
  /\ result_of (getBreachAnalytics
                  (RT := SimpleRuntime.runtime) (HO := ScriptHost.host)
                  (Examples.config 3) "user@example.com" Examples.no_token
                  [Examples.unauthorized])
     = Throw (AuthenticationError "Bad key").
Proof.
  pose proof (not_found_absorbed
                (RT := SimpleRuntime.runtime) (HO := ScriptHost.host)
                (Examples.config 3) "user@example.com"
                Examples.no_details Examples.no_token eq_refl)
    as [Hcheck Hanalytics].
  split.
  - exact (Hcheck [Examples.not_found] (NotFoundError "Not found") eq_refl).
  - exact (Hanalytics [Examples.unauthorized]
                      (AuthenticationError "Bad key") eq_refl).
Defined.

(** ** Witnesses of the retry properties *)

Lemma client_error_ends_request_witness :
  let run := request (RT := SimpleRuntime.runtime) (HO := ScriptHost.host)
               (Examples.config 3) "/v1/breaches" Examples.no_options
               [Examples.not_found; Examples.success] in
  result_of run = Throw (NotFoundError "Not found")
  /\ attempts (trace_of run) = 1%nat
  /\ timeline (trace_of run) = [Attempt].
Proof.
  pose proof (client_error_ends_request
                (RT := SimpleRuntime.runtime) (HO := ScriptHost.host)
                (Examples.config 3) "/v1/breaches" Examples.no_options
                [Examples.not_found; Examples.success]
                [] []
                {| status := 404;
                   content_type := Some "application/json"%string;
                   json := Some (JObj [("Error"%string, JStr "Not found")]);
                   text := Text ""%string |}
                eq_refl ltac:(cbn; lia) ltac:(cbn; lia))
    as [Hread _].
  destruct (Hread (JObj [("Error"%string, JStr "Not found")]) eq_refl)
    as (_ & _ & _ & Hres & Hn & _ & Hline).
  exact (conj (Hres eq_refl) (conj Hn (Hline eq_refl))).
Defined.

Lemma exhausted_retries_witness :
  let run := request (RT := SimpleRuntime.runtime) (HO := ScriptHost.host)
               (Examples.config 2) "/v1/breaches" Examples.no_options
               [Examples.server_error; ScriptHost.connection_refused] in
  attempts (trace_of run) = 2%nat
  /\ exists init res e,
       fetched (trace_of run) = init ++ [res]
       /\ failure_of (RT := SimpleRuntime.runtime) res = Some e
       /\ (isXposedOrNotError e = true -> result_of run = Throw e)
       /\ (forall name message,
             e = Raw name message ->
             result_of run
             = Throw (NetworkError
                        ("Request failed after 2 attempts: " ++ message)%string
                        (Some (Raw name message))))
       /\ exists thrown,
            result_of run = Throw thrown /\ isXposedOrNotError thrown = true.
Proof.
  exact (exhausted_retries_surface_last_failure
           (RT := SimpleRuntime.runtime) (HO := ScriptHost.host)
           (Examples.config 2) "/v1/breaches" Examples.no_options
           [Examples.server_error; ScriptHost.connection_refused]
           (url := "https://api.xposedornot.com/v1/breaches"%string)
           ltac:(cbn; lia) eq_refl eq_refl).
Defined.

Lemma rate_limit_witness :
  let run := request (RT := SimpleRuntime.runtime) (HO := ScriptHost.host)
               (Examples.config 3) "/v1/breaches" Examples.no_options
               [Examples.rate_limited; Examples.rate_limited;
                Examples.rate_limited] in
  attempts (trace_of run) = 3%nat
  /\ exists init r data,
       fetched (trace_of run) = init ++ [Resolved r]
       /\ status r = 429
       /\ decoded r = Return data
       /\ result_of run
          = Throw (RateLimitError (extractErrorMessage data)
                                  (extractRetryAfter data)).
Proof.
  pose proof (rate_limit_retried_then_surfaced
                (RT := SimpleRuntime.runtime) (HO := ScriptHost.host)
                (Examples.config 3) "/v1/breaches" Examples.no_options
                [Examples.rate_limited; Examples.rate_limited;
                 Examples.rate_limited]
                (url := "https://api.xposedornot.com/v1/breaches"%string)
                ltac:(cbn; lia) eq_refl eq_refl eq_refl)
    as (Hn & Hlast & _).
  exact (conj Hn Hlast).
Defined.

(** ** The number of attempts, and [retries = 0] *)

(** C1, the code at [retries = 0]: the guard [attempt < retries] fails
    before the first iteration, so the request calls the transport not
    once and throws the Network error that stands below the loop, with no
    cause. *)
Theorem zero_retries_makes_no_attempt
        {RT : Runtime} {H : Type} {HO : Host H}
        (config : ResolvedConfig) (endpoint : string)
        (options : RequestOptions) (h : H) (url : string) :
  retries config = 0 ->
  buildUrl config endpoint (opt_params options) = Return url ->
  let run := request config endpoint options h in
  attempts (trace_of run) = 0%nat
  /\ trace_of run = [EvArmAbort (timeout config)]
  /\ result_of run
     = Throw (NetworkError
                ("Request failed after " ++ Number_toString (inject_Z 0)
                 ++ " attempts: undefined")%string
                None).
Proof.
  intros Hzero Hurl run. subst run.
  rewrite (request_run config endpoint options h Hurl).
  rewrite Hzero.
  cbn [Z.to_nat retry_loop throw trace_of result_of fst snd].
  unfold exhausted. rewrite Hzero. now split.
Qed.

Lemma zero_retries_witness :
  let run := request (RT := SimpleRuntime.runtime) (HO := ScriptHost.host)
               (Examples.config 0) "/v1/breaches" Examples.no_options
               [Examples.success] in
  attempts (trace_of run) = 0%nat
  /\ trace_of run = [EvArmAbort 30000]
  /\ result_of run
     = Throw (NetworkError "Request failed after 0 attempts: undefined" None).
Proof.
  exact (zero_retries_makes_no_attempt
           (RT := SimpleRuntime.runtime) (HO := ScriptHost.host)
           (Examples.config 0) "/v1/breaches" Examples.no_options
           [Examples.success]
           (url := "https://api.xposedornot.com/v1/breaches"%string)
           eq_refl eq_refl).
Defined.

(** X1: a request makes at most [retries] attempts (none when [retries]
    is negative). *)
Theorem request_attempts_bounded
        {RT : Runtime} {H : Type} {HO : Host H}
        (config : ResolvedConfig) (endpoint : string)
        (options : RequestOptions) (h : H) :
  Z.of_nat (attempts (trace_of (request config endpoint options h)))
  <= Z.max 0 (retries config).
Proof.
  pose proof (request_attempts_le config endpoint options h). lia.
Qed.

(** ** The timeout *)

(** X2: an attempt that the abort timer cuts short is the last attempt of
    the request, and the request throws a Timeout error whatever the
    attempts it had left. *)
Theorem abort_ends_request_with_timeout
        {RT : Runtime} {H : Type} {HO : Host H}
        (config : ResolvedConfig) (endpoint : string)
        (options : RequestOptions) (h : H)
        (init rest : list FetchResult) (message : string) :
  fetched (trace_of (request config endpoint options h))
  = init ++ Rejected "AbortError" message :: rest ->
  rest = []
  /\ result_of (request config endpoint options h)
     = Throw (TimeoutError
                ("Request timed out after "
                 ++ Number_toString (timeout config) ++ "ms")%string).
Proof.
  intros Hsplit.
  destruct (request_cases config endpoint options h)
    as [(e & _ & E)|(url & _ & E)]; rewrite E in *.
  - cbn in Hsplit. now destruct init.
  - cbn [trace_of result_of fst snd fetched] in *.
    eapply retry_loop_abort; eauto.
Qed.

Lemma abort_ends_request_witness :
  result_of (request (RT := SimpleRuntime.runtime) (HO := TimedHost.host)
               Examples.timed_config "/v1/breaches" Examples.no_options
               (TimedHost.start [(100%Q, ScriptHost.connection_refused);
                                 (10000%Q, Examples.success)]))
  = Throw (TimeoutError "Request timed out after 5000ms").
Proof.
  exact (proj2 (abort_ends_request_with_timeout
                  (RT := SimpleRuntime.runtime) (HO := TimedHost.host)
                  Examples.timed_config "/v1/breaches" Examples.no_options
                  (TimedHost.start [(100%Q, ScriptHost.connection_refused);
                                    (10000%Q, Examples.success)])
                  [ScriptHost.connection_refused] []
                  "This operation was aborted" eq_refl)).
Defined.

(** C2, the code where the claim fails: the timer is cleared as soon as an
    attempt gets a response, whatever its status.  With a timeout of
    5000 ms and two attempts, a 500 after 100 ms clears the timer; the
    second attempt then runs for 10000 ms unchecked and its response is
    returned at 11100 ms, with the signal never aborted. *)
Theorem timer_cleared_by_first_response :
  let run := request (RT := SimpleRuntime.runtime) (HO := TimedHost.host)
               Examples.timed_config "/v1/breaches" Examples.no_options
               (TimedHost.start [(100%Q, Examples.server_error);
                                 (10000%Q, Examples.success)]) in
  result_of run = Return (JObj [("ok"%string, JBool true)])
  /\ timeline (trace_of run) = [Attempt; Wait 1000; Attempt]
  /\ TimedHost.now (host_of run) = 11100%Q
  /\ TimedHost.aborted (host_of run) = false.
Proof. vm_compute. repeat split; reflexivity. Qed.

(** The sibling path: after a transport error the timer stays armed, and
    the same slow second attempt is aborted at 5000 ms. *)
Lemma timer_kept_after_transport_error :
  let run := request (RT := SimpleRuntime.runtime) (HO := TimedHost.host)
               Examples.timed_config "/v1/breaches" Examples.no_options
               (TimedHost.start [(100%Q, ScriptHost.connection_refused);
                                 (10000%Q, Examples.success)]) in
  result_of run = Throw (TimeoutError "Request timed out after 5000ms")
  /\ timeline (trace_of run) = [Attempt; Wait 1000; Attempt]
  /\ TimedHost.now (host_of run) = 5000%Q
  /\ TimedHost.aborted (host_of run) = true.
Proof. vm_compute. repeat split; reflexivity. Qed.

(** ** Classification *)

(** X3: once the URL is built, whatever a request throws is a classified
    error: a raw error of the transport never reaches the caller. *)
Theorem request_throws_classified
        {RT : Runtime} {H : Type} {HO : Host H}
        (config : ResolvedConfig) (endpoint : string)
        (options : RequestOptions) (h : H) (url : string) (e : Error) :
  buildUrl config endpoint (opt_params options) = Return url ->
  result_of (request config endpoint options h) = Throw e ->
  isXposedOrNotError e = true.
Proof.
  intros Hurl. rewrite (request_run config endpoint options h Hurl).
  cbn [result_of fst]. apply retry_loop_classified.
Qed.

Lemma request_throws_classified_witness :
  isXposedOrNotError
    (NetworkError "Request failed after 1 attempts: fetch failed"
                  (Some (Raw "TypeError" "fetch failed")))
  = true.
Proof.
  exact (request_throws_classified
           (RT := SimpleRuntime.runtime) (HO := ScriptHost.host)
           (Examples.config 1) "/v1/breaches" Examples.no_options
           [ScriptHost.connection_refused]
           (url := "https://api.xposedornot.com/v1/breaches"%string)
           eq_refl eq_refl).
Defined.

(** ** An end-to-end run *)

(** With three attempts allowed, a 500 on the first two and a 200 with
    [{"ok": true}] on the third, the caller gets the decoded body after two
    backoff waits. *)
Example recovers_on_third_attempt :
  let run := request (RT := SimpleRuntime.runtime) (HO := ScriptHost.host)
               (Examples.config 3) "/x" Examples.no_options
               [Examples.server_error; Examples.server_error;
                Examples.success] in
  result_of run = Return (JObj [("ok"%string, JBool true)])
  /\ timeline (trace_of run) = [Attempt; Wait 1000; Attempt; Wait 2000; Attempt].
Proof. split; reflexivity. Qed.

(** * More on the executor *)

Section LoopTraces.
Context {RT : Runtime} {H : Type} {HO : Host H}.
Variable config : ResolvedConfig.

(** What the [try] block returns for a response, and when. *)
Lemma outcome_of_success (r : Response) :
  is_success r = true -> outcome_of (Resolved r) = success_value r.
Proof.
  unfold is_success, success_value. cbn [outcome_of].
  destruct (Z.eqb_spec (status r) 304) as [E|E].
  - intros _. unfold handleResponse. now rewrite E.
  - cbn [orb]. intros Hok. rewrite handleResponse_decoded by exact E.
    rewrite Hok. now destruct (decoded r).
Qed.

Lemma outcome_of_return (res : FetchResult) (v : Json) :
  outcome_of res = Return v ->
  exists r,
    res = Resolved r /\ is_success r = true /\ success_value r = Return v.
Proof.
  destruct res as [r|name message]; cbn [outcome_of]; [|discriminate].
  intros E. exists r. split; [reflexivity|].
  unfold is_success, success_value.
  destruct (Z.eqb_spec (status r) 304) as [E304|E304].
  - unfold handleResponse in E. rewrite E304 in E. cbn in E.
    split; [reflexivity|congruence].
  - rewrite handleResponse_decoded in E by exact E304.
    destruct (decoded r) as [data|error]; [|discriminate].
    destruct (ok r); [|discriminate]. split; [reflexivity|congruence].
Qed.

(** The trace of the [try] block, event by event. *)
Lemma attempt_once_trace (req : Request) (h : H) :
  trace_of (attempt_once req h)
  = EvFetch req (fst (host_fetch req h))
    :: match fst (host_fetch req h) with
       | Resolved r => EvClearTimeout :: snd (handleResponse r)
       | Rejected _ _ => []
       end.
Proof.
  unfold attempt_once, bind, fetch, clearTimeout, traced, trace_of.
  destruct (host_fetch req h) as [[r|name message] h1]; reflexivity.
Qed.

Lemma handleResponse_events (r : Response) :
  Forall (fun ev => ev = EvJson \/ ev = EvText) (snd (handleResponse r)).
Proof.
  unfold handleResponse, readText.
  destruct (status r =? 304); [cbn; constructor|].
  destruct (content_type r) as [ct|]; [destruct (includes _ ct)|];
    try destruct (text r); destruct (ok r); cbn;
    repeat (apply Forall_cons; [tauto|]); apply Forall_nil.
Qed.

(** An induction principle for the traces of the loop: a property of
    traces that holds of the empty trace and of every iteration in front of
    a trace that has it holds of every run. *)
Lemma retry_loop_trace_ind (req : Request) (P : Trace -> Prop) :
  P [] ->
  (forall res decode pause rest,
     decode = match res with
              | Resolved r => EvClearTimeout :: snd (handleResponse r)
              | Rejected _ _ => []
              end ->
     (pause = [] \/ exists ms, pause = [EvSleep ms]) ->
     P rest ->
     P (EvFetch req res :: decode ++ pause ++ rest)) ->
  forall fuel attempt lastError h,
    P (trace_of (retry_loop config req fuel attempt lastError h)).
Proof.
  intros Hnil Hstep.
  assert (Hlast : forall res,
             P (EvFetch req res
                :: match res with
                   | Resolved r => EvClearTimeout :: snd (handleResponse r)
                   | Rejected _ _ => []
                   end)).
  { intros res.
    specialize (Hstep res _ [] [] eq_refl (or_introl eq_refl) Hnil).
    now rewrite !app_nil_r in Hstep. }
  induction fuel as [|fuel IH]; intros attempt lastError h.
  - destruct (attempt <? retries config) eqn:Hguard; cbn [retry_loop];
      rewrite Hguard; exact Hnil.
  - destruct (attempt <? retries config) eqn:Hguard;
      [|rewrite retry_loop_exit by exact Hguard; exact Hnil].
    rewrite retry_loop_step by exact Hguard.
    pose proof (attempt_once_trace req h) as Htr.
    destruct (attempt_once req h) as [[c t1] h1].
    cbn [trace_of fst snd] in Htr. subst t1.
    destruct c as [v|error]; [apply Hlast|].
    destruct (isClientError error); [apply Hlast|].
    destruct (isAbortError error); [apply Hlast|].
    cbn zeta.
    match goal with
    | |- context [retry_loop config req fuel ?a ?l ?s] =>
        specialize (IH a l s);
        destruct (retry_loop config req fuel a l s) as [[c2 t2] h2]
    end.
    cbn [trace_of fst snd] in *.
    change (P (EvFetch req (fst (host_fetch req h))
               :: match fst (host_fetch req h) with
                  | Resolved r => EvClearTimeout :: snd (handleResponse r)
                  | Rejected _ _ => []
                  end
               ++ (if attempt + 1 <? retries config
                   then [EvSleep (backoff_delay (attempt + 1))] else [])
               ++ t2)).
    apply Hstep; [reflexivity| |exact IH].
    destruct (attempt + 1 <? retries config); eauto.
Qed.

End LoopTraces.

Section LoopResults.
Context {RT : Runtime} {H : Type} {HO : Host H}.
Variable config : ResolvedConfig.

Ltac run_cases :=
  match goal with
  | |- context [retry_loop config ?req ?fuel ?attempt ?lastError ?h] =>
      destruct (retry_loop_cases config req fuel attempt lastError h)
        as [[E Hexit]|(fuel' & tail & h1 & Hfuel & Hguard & Ht & Hf & E)]
  end.

(** An attempt whose response is a success is the last one, and the loop
    returns its value. *)
Lemma retry_loop_returns (req : Request) (fuel : nat) :
  forall attempt lastError h init res rest v,
    fetched (trace_of (retry_loop config req fuel attempt lastError h))
    = init ++ res :: rest ->
    outcome_of res = Return v ->
    rest = [] /\
    result_of (retry_loop config req fuel attempt lastError h) = Return v.
Proof.
  induction fuel as [|fuel IH]; intros attempt lastError h init res rest v;
    run_cases; try discriminate;
    try (rewrite E; cbn; intros Habs; now destruct init).
  injection Hfuel as <-. cbn zeta in E.
  set (res0 := fst (host_fetch req h)) in *.
  set (first := EvFetch req res0 :: tail) in *.
  assert (Hfirst : fetched first = [res0]).
  { unfold first. cbn [fetched]. now rewrite Hf. }
  intros Hsplit Hout.
  assert (Hone : [res0] = init ++ res :: rest -> res0 = res /\ rest = []).
  { intros Heq. destruct init as [|x init]; cbn in Heq.
    - now injection Heq as -> <-.
    - injection Heq as _ Heq. now destruct init. }
  destruct (outcome_of res0) as [v0|error] eqn:Hres.
  { rewrite E in *. cbn [trace_of result_of fst snd] in *.
    rewrite Hfirst in Hsplit.
    destruct (Hone Hsplit) as [Heq Hrest]. rewrite Heq, Hout in Hres.
    injection Hres as <-. now split. }
  assert (Hnot : res0 <> res).
  { intros Heq. rewrite Heq, Hout in Hres. discriminate. }
  assert (Hhead : [res0] = init ++ res :: rest -> False).
  { intros Heq. now destruct (Hone Heq). }
  destruct (isClientError error).
  { rewrite E in *. cbn [trace_of result_of fst snd] in *.
    rewrite Hfirst in Hsplit. now destruct (Hhead Hsplit). }
  destruct (isAbortError error).
  { rewrite E in *. cbn [trace_of result_of fst snd] in *.
    rewrite Hfirst in Hsplit. now destruct (Hhead Hsplit). }
  rewrite E in *. cbn [trace_of result_of fst snd] in *.
  match goal with
  | |- context [retry_loop config req fuel ?a ?l ?s] =>
      specialize (IH a l s);
      set (next := retry_loop config req fuel a l s) in *
  end.
  set (pause := if attempt + 1 <? retries config
                then [EvSleep (backoff_delay (attempt + 1))] else []) in *.
  assert (Hp : fetched pause = []) by (unfold pause; now destruct (_ <? _)).
  rewrite !fetched_app, Hfirst, Hp in Hsplit. cbn [app] in Hsplit.
  destruct init as [|x init]; cbn in Hsplit.
  + injection Hsplit as Hres' _. contradiction.
  + injection Hsplit as _ Hsplit.
    exact (IH init res rest v Hsplit Hout).
Qed.

(** The loop returns a value only from its last attempt. *)
Lemma retry_loop_return_last (req : Request) (fuel : nat) :
  forall attempt lastError h v,
    result_of (retry_loop config req fuel attempt lastError h) = Return v ->
    exists init res,
      fetched (trace_of (retry_loop config req fuel attempt lastError h))
      = init ++ [res]
      /\ outcome_of res = Return v.
Proof.
  induction fuel as [|fuel IH]; intros attempt lastError h v;
    run_cases; try discriminate;
    try (rewrite E; cbn; discriminate).
  injection Hfuel as <-. cbn zeta in E.
  set (res0 := fst (host_fetch req h)) in *.
  set (first := EvFetch req res0 :: tail) in *.
  assert (Hfirst : fetched first = [res0]).
  { unfold first. cbn [fetched]. now rewrite Hf. }
  destruct (outcome_of res0) as [v0|error] eqn:Hres.
  { rewrite E. cbn [trace_of result_of fst snd]. intros Heq.
    injection Heq as <-. exists [], res0. now rewrite Hfirst. }
  destruct (isClientError error); [rewrite E; discriminate|].
  destruct (isAbortError error); [rewrite E; discriminate|].
  rewrite E. cbn [trace_of result_of fst snd].
  match goal with
  | |- context [retry_loop config req fuel ?a ?l ?s] =>
      specialize (IH a l s v);
      set (next := retry_loop config req fuel a l s) in *
  end.
  set (pause := if attempt + 1 <? retries config
                then [EvSleep (backoff_delay (attempt + 1))] else []) in *.
  assert (Hp : fetched pause = []) by (unfold pause; now destruct (_ <? _)).
  intros Hret. destruct (IH Hret) as (init & res & Hlast & Hout).
  exists (res0 :: init), res.
  rewrite !fetched_app, Hfirst, Hp, Hlast. now split.
Qed.

End LoopResults.

(** X4: an attempt that receives a success (a 2xx status or 304) whose
    body is read is the last attempt of the request, whose result is the
    value of that response: the empty object for 304, the decoded body
    otherwise; the only waits of the run are then those before the earlier
    retries.  A success whose text body cannot be read is a failure of the
    attempt instead: the catch block gets the raw error of the read, a
    value that the request returns comes from a later attempt, and unless
    that error is an AbortError another attempt follows, except after
    attempt number [retries]. *)
Theorem success_ends_request
        {RT : Runtime} {H : Type} {HO : Host H}
        (config : ResolvedConfig) (endpoint : string)
        (options : RequestOptions) (h : H)
        (init rest : list FetchResult) (r : Response) :
  fetched (trace_of (request config endpoint options h))
  = init ++ Resolved r :: rest ->
  is_success r = true ->
  (forall v,
     success_value r = Return v ->
     rest = []
     /\ result_of (request config endpoint options h) = Return v
     /\ List.length (sleeps (trace_of (request config endpoint options h)))
        = List.length init)
  /\ (forall error,
        success_value r = Throw error ->
        failure_of (Resolved r) = Some error
        /\ isXposedOrNotError error = false
        /\ (forall v,
              result_of (request config endpoint options h) = Return v ->
              rest <> [])
        /\ (isAbortError error = false ->
            rest = [] ->
            Z.of_nat (S (List.length init)) = retries config)).
Proof.
  intros Hsplit Hok. split.
  - intros v Hv.
    assert (Hcore : rest = [] /\
                    result_of (request config endpoint options h) = Return v).
    { destruct (request_cases config endpoint options h)
        as [(e & _ & E)|(url & _ & E)]; rewrite E in *.
      - cbn in Hsplit. now destruct init.
      - cbn [trace_of result_of fst snd fetched] in *.
        eapply retry_loop_returns; [exact Hsplit|].
        now rewrite (outcome_of_success r Hok). }
    destruct Hcore as [-> Hres].
    split; [reflexivity|]. split; [exact Hres|].
    rewrite request_sleeps, length_map, length_seq.
    unfold attempts. rewrite Hsplit, length_app. cbn. lia.
  - intros error Herror.
    assert (Hout : outcome_of (Resolved r) = Throw error).
    { now rewrite (outcome_of_success r Hok). }
    split; [unfold failure_of; now rewrite Hout|].
    split.
    { unfold success_value in Herror.
      destruct (status r =? 304); [discriminate|].
      now destruct (decoded_throws r Herror) as (name & message & _ & ->). }
    split.
    { intros v Hret ->.
      destruct (request_cases config endpoint options h)
        as [(e & _ & E)|(url & _ & E)]; rewrite E in *; [discriminate|].
      cbn [trace_of result_of fst snd fetched] in *.
      destruct (retry_loop_return_last config _ _ _ _ _ Hret)
        as (init' & res & Hlast & Hres).
      rewrite Hlast in Hsplit. apply app_inj_tail in Hsplit.
      destruct Hsplit as [_ ->]. rewrite Hout in Hres. discriminate. }
    intros Hab ->.
    apply (@request_goes_on RT H HO config endpoint options h init
                            (Resolved r) _ Hsplit Hout).
    unfold retryable.
    assert (Hraw : isXposedOrNotError error = false).
    { unfold success_value in Herror.
      destruct (status r =? 304); [discriminate|].
      now destruct (decoded_throws r Herror) as (name & message & _ & ->). }
    unfold isClientError. now rewrite Hraw, Hab.
Qed.

Lemma success_ends_request_witness :
  let run := request (RT := SimpleRuntime.runtime) (HO := ScriptHost.host)
               (Examples.config 3) "/v1/breaches" Examples.no_options
               [Examples.server_error; Resolved Examples.not_modified;
                Examples.success] in
  result_of run = Return (JObj [])
  /\ List.length (sleeps (trace_of run)) = 1%nat.
Proof.
  exact (proj2 (proj1 (success_ends_request
                         (RT := SimpleRuntime.runtime) (HO := ScriptHost.host)
                         (Examples.config 3) "/v1/breaches" Examples.no_options
                         [Examples.server_error; Resolved Examples.not_modified;
                          Examples.success]
                         [Examples.server_error] [] Examples.not_modified
                         eq_refl eq_refl)
                      (JObj []) eq_refl)).
Defined.

(** A 200 whose text body cannot be read is retried, and the value of the
    request is the one of the attempt after it. *)
Example unreadable_success_is_retried :
  let run := request (RT := SimpleRuntime.runtime) (HO := ScriptHost.host)
               (Examples.config 3) "/v1/breaches" Examples.no_options
               [Resolved (Examples.unreadable 200); Examples.success] in
  result_of run = Return (JObj [("ok"%string, JBool true)])
  /\ timeline (trace_of run) = [Attempt; Wait 1000; Attempt].
Proof. split; reflexivity. Qed.

(** X5: a request returns a value only when its last attempt received a
    success, and the value is the one of that response; a response that is
    an error never yields a value. *)
Theorem value_only_from_last_success
        {RT : Runtime} {H : Type} {HO : Host H}
        (config : ResolvedConfig) (endpoint : string)
        (options : RequestOptions) (h : H) (v : Json) :
  result_of (request config endpoint options h) = Return v ->
  exists init r,
    fetched (trace_of (request config endpoint options h))
    = init ++ [Resolved r]
    /\ is_success r = true
    /\ success_value r = Return v.
Proof.
  destruct (request_cases config endpoint options h)
    as [(e & _ & E)|(url & _ & E)]; rewrite E.
  - discriminate.
  - cbn [trace_of result_of fst snd fetched]. intros Hret.
    destruct (retry_loop_return_last config _ _ _ _ _ Hret)
      as (init & res & Hlast & Hout).
    destruct (outcome_of_return res Hout) as (r & -> & Hok & Hv).
    exists init, r. now split.
Qed.

Lemma value_only_from_last_success_witness :
  exists init r,
    fetched (trace_of (request (RT := SimpleRuntime.runtime)
                         (HO := ScriptHost.host)
                         (Examples.config 3) "/v1/breaches" Examples.no_options
                         [Examples.server_error; Examples.success]))
    = init ++ [Resolved r]
    /\ is_success r = true
    /\ success_value r = Return (JObj [("ok"%string, JBool true)]).
Proof.
  exact (value_only_from_last_success
           (RT := SimpleRuntime.runtime) (HO := ScriptHost.host)
           (Examples.config 3) "/v1/breaches" Examples.no_options
           [Examples.server_error; Examples.success]
           (v := JObj [("ok"%string, JBool true)]) eq_refl).
Defined.

(** ** What is sent, and the timer *)

Lemma sent_app (a b : Trace) : sent (a ++ b) = sent a ++ sent b.
Proof.
  induction a as [|ev a IH]; cbn [app sent]; [reflexivity|].
  destruct ev; cbn [app]; now rewrite ?IH.
Qed.

Lemma arms_app (a b : Trace) : arms (a ++ b) = (arms a + arms b)%nat.
Proof.
  induction a as [|ev a IH]; cbn [app arms]; [reflexivity|].
  destruct ev; cbn [Nat.add]; now rewrite ?IH.
Qed.

Lemma clears_app (a b : Trace) : clears (a ++ b) = (clears a + clears b)%nat.
Proof.
  induction a as [|ev a IH]; cbn [app clears]; [reflexivity|].
  destruct ev; cbn [Nat.add]; now rewrite ?IH.
Qed.

(** The events of decoding are no fetch, no arming and no clearing. *)
Lemma decode_events_silent {RT : Runtime} (r : Response) :
  sent (snd (handleResponse r)) = []
  /\ arms (snd (handleResponse r)) = 0%nat
  /\ clears (snd (handleResponse r)) = 0%nat
  /\ fetched (snd (handleResponse r)) = [].
Proof.
  pose proof (handleResponse_events r) as Hev.
  induction Hev as [|ev l [-> | ->] _ IH]; [now repeat split| |];
    cbn [sent arms clears fetched]; exact IH.
Qed.

Section SentFacts.
Context {RT : Runtime} {H : Type} {HO : Host H}.
Variable config : ResolvedConfig.

Lemma retry_loop_sent (req : Request) (fuel : nat) attempt lastError (h : H) :
  Forall (eq req) (sent (trace_of (retry_loop config req fuel attempt lastError h))).
Proof.
  apply retry_loop_trace_ind with (P := fun tr => Forall (eq req) (sent tr)).
  - constructor.
  - intros res decode pause rest -> Hpause IH.
    cbn [sent]. rewrite !sent_app. constructor; [reflexivity|].
    replace (sent match res with
                  | Resolved r => EvClearTimeout :: snd (handleResponse r)
                  | Rejected _ _ => []
                  end) with (@nil Request)
      by (destruct res as [r|]; cbn [sent];
          [now destruct (decode_events_silent r) as [-> _]|reflexivity]).
    destruct Hpause as [->|[ms ->]]; exact IH.
Qed.

Lemma retry_loop_timer (req : Request) (fuel : nat) attempt lastError (h : H) :
  let tr := trace_of (retry_loop config req fuel attempt lastError h) in
  arms tr = 0%nat
  /\ clears tr = List.length (filter is_resolved (fetched tr)).
Proof.
  apply retry_loop_trace_ind
    with (P := fun tr => arms tr = 0%nat
                         /\ clears tr = List.length (filter is_resolved (fetched tr))).
  - now split.
  - intros res decode pause rest -> Hpause [IHa IHc].
    cbn [arms clears fetched].
    rewrite !arms_app, !clears_app, !fetched_app.
    assert (Hp : arms pause = 0%nat /\ clears pause = 0%nat
                 /\ fetched pause = [])
      by (destruct Hpause as [->|[ms ->]]; now repeat split).
    destruct Hp as (-> & -> & ->).
    destruct res as [r|name message]; cbn [is_resolved arms clears fetched];
      [destruct (decode_events_silent r) as (_ & -> & -> & ->)|];
      cbn [app filter is_resolved List.length Nat.add];
      rewrite IHa, IHc; split; lia.
Qed.

End SentFacts.

(** X6: every attempt of a request sends the same thing: the URL built
    once before the loop, the method ([GET] when none is given), the merged
    headers, and the JSON text of the body when the body is truthy; a body
    that is absent or falsy ([null], [false], [0], the empty string) is not
    sent. *)
Theorem every_attempt_sends_the_same
        {RT : Runtime} {H : Type} {HO : Host H}
        (config : ResolvedConfig) (endpoint : string)
        (options : RequestOptions) (h : H) (url : string) :
  buildUrl config endpoint (opt_params options) = Return url ->
  let req := fetch_request config url options in
  Forall (eq req) (sent (trace_of (request config endpoint options h)))
  /\ req_url req = url
  /\ (opt_method options = None -> req_method req = "GET"%string)
  /\ (forall body,
        opt_body options = Some body ->
        req_body req = if truthy body then Some (JSON_stringify body) else None)
  /\ (opt_body options = None -> req_body req = None)
  /\ map truthy [JNull; JBool false; JNum 0; JStr ""] = [false; false; false; false].
Proof.
  intros Hurl req.
  split.
  { rewrite (request_run config endpoint options h Hurl).
    cbn [trace_of fst snd sent]. apply retry_loop_sent. }
  split; [reflexivity|].
  split; [intros E; subst req; unfold fetch_request; cbn; now rewrite E|].
  split; [intros body E; subst req; unfold fetch_request; cbn; now rewrite E|].
  split; [intros E; subst req; unfold fetch_request; cbn; now rewrite E|].
  reflexivity.
Qed.

Lemma every_attempt_sends_the_same_witness :
  Forall (eq (fetch_request (RT := SimpleRuntime.runtime) (Examples.config 3)
                "https://api.xposedornot.com/v1/breaches" Examples.no_options))
         (sent (trace_of (request (RT := SimpleRuntime.runtime)
                            (HO := ScriptHost.host)
                            (Examples.config 3) "/v1/breaches"
                            Examples.no_options
                            [Examples.server_error; Examples.success]))).
Proof.
  exact (proj1 (every_attempt_sends_the_same
                  (RT := SimpleRuntime.runtime) (HO := ScriptHost.host)
                  (Examples.config 3) "/v1/breaches" Examples.no_options
                  [Examples.server_error; Examples.success]
                  (url := "https://api.xposedornot.com/v1/breaches"%string)
                  eq_refl)).
Defined.

(** X7: the abort timer is armed once per request, before the first
    attempt, and never again; it is cleared once for every response that
    an attempt receives, whatever the status, and never after an attempt
    that the transport rejected. *)
Theorem timer_armed_once_cleared_per_response
        {RT : Runtime} {H : Type} {HO : Host H}
        (config : ResolvedConfig) (endpoint : string)
        (options : RequestOptions) (h : H) (url : string) :
  buildUrl config endpoint (opt_params options) = Return url ->
  let tr := trace_of (request config endpoint options h) in
  (exists rest, tr = EvArmAbort (timeout config) :: rest /\ arms rest = 0%nat)
  /\ arms tr = 1%nat
  /\ clears tr = List.length (filter is_resolved (fetched tr)).
Proof.
  intros Hurl. rewrite (request_run config endpoint options h Hurl).
  cbn [trace_of fst snd arms clears fetched].
  destruct (retry_loop_timer config (fetch_request config url options)
              (Z.to_nat (retries config)) 0 None
              (host_armAbort (timeout config) h)) as [Ha Hc].
  cbn zeta in Ha, Hc.
  set (run := retry_loop config (fetch_request config url options)
                (Z.to_nat (retries config)) 0 None
                (host_armAbort (timeout config) h)) in *.
  change (snd (fst run)) with (trace_of run).
  split; [eexists; split; [reflexivity|exact Ha]|].
  split; [now rewrite Ha|exact Hc].
Qed.

Lemma timer_armed_once_witness :
  let tr := trace_of (request (RT := SimpleRuntime.runtime)
                        (HO := ScriptHost.host)
                        (Examples.config 3) "/v1/breaches" Examples.no_options
                        [ScriptHost.connection_refused; Examples.server_error;
                         Examples.success]) in
  arms tr = 1%nat /\ clears tr = 2%nat.
Proof.
  exact (proj2 (timer_armed_once_cleared_per_response
                  (RT := SimpleRuntime.runtime) (HO := ScriptHost.host)
                  (Examples.config 3) "/v1/breaches" Examples.no_options
                  [ScriptHost.connection_refused; Examples.server_error;
                   Examples.success]
                  (url := "https://api.xposedornot.com/v1/breaches"%string)
                  eq_refl)).
Defined.

(** ** Headers *)

Lemma assoc_assign {A : Type} (key k : string) (v : A) (l : list (string * A)) :
  assoc k (assign key v l) = if String.eqb key k then Some v else assoc k l.
Proof.
  induction l as [|[k' w] l IH]; cbn [assign assoc].
  - reflexivity.
  - destruct (String.eqb_spec k' key) as [->|Hne]; cbn [assoc].
    + now destruct (String.eqb key k).
    + rewrite IH.
      destruct (String.eqb_spec k' k) as [->|_]; [|reflexivity].
      destruct (String.eqb_spec key k) as [->|_]; [contradiction|reflexivity].
Qed.

Lemma assoc_absent {A : Type} (k : string) (l : list (string * A)) :
  ~ In k (map fst l) -> assoc k l = None.
Proof.
  induction l as [|[k' w] l IH]; cbn [assoc map fst In]; [reflexivity|].
  intros Hnot. destruct (String.eqb_spec k' k) as [->|_].
  - exfalso. apply Hnot. now left.
  - apply IH. intros Hin. apply Hnot. now right.
Qed.

(** In [{...a, ...b}] the properties of [b] win. *)
Lemma assoc_spread {A : Type} (k : string) (b : list (string * A)) :
  forall a,
    NoDup (map fst b) ->
    assoc k (spread a b)
    = match assoc k b with Some v => Some v | None => assoc k a end.
Proof.
  unfold spread.
  induction b as [|[k' v] b IH]; intros a Hnodup; cbn [fold_left assoc fst snd].
  - reflexivity.
  - cbn [map fst] in Hnodup. inversion Hnodup as [|? ? Hk Hrest]; subst.
    rewrite IH by exact Hrest. rewrite assoc_assign.
    destruct (String.eqb_spec k' k) as [->|_]; [|reflexivity].
    now rewrite (assoc_absent k b Hk).
Qed.

(** X8: the headers of a request are merged with the later source winning
    on a shared name: a header of the call, else a default header of the
    configuration, else [application/json] for [Content-Type] and
    [Accept], else none. *)
Theorem header_precedence
        {RT : Runtime} (config : ResolvedConfig) (url : string)
        (options : RequestOptions) (name : string) :
  let call := match opt_headers options with Some c => c | None => [] end in
  NoDup (map fst call) ->
  NoDup (map fst (headers config)) ->
  assoc name (req_headers (fetch_request config url options))
  = match assoc name call with
    | Some value => Some value
    | None =>
        match assoc name (headers config) with
        | Some value => Some value
        | None =>
            if String.eqb name "Content-Type" || String.eqb name "Accept"
            then Some "application/json"%string
            else None
        end
    end.
Proof.
  intros call Hnd1 Hnd2. unfold fetch_request. cbn [req_headers].
  fold call. rewrite assoc_spread by exact Hnd1.
  destruct (assoc name call) as [value|]; [reflexivity|].
  rewrite assoc_spread by exact Hnd2.
  destruct (assoc name (headers config)) as [value|]; [reflexivity|].
  cbn [assoc].
  rewrite (String.eqb_sym "Content-Type" name), (String.eqb_sym "Accept" name).
  destruct (String.eqb name "Content-Type"); [reflexivity|].
  now destruct (String.eqb name "Accept").
Qed.

Lemma header_precedence_witness :
  assoc "Accept"
        (req_headers
           (fetch_request (RT := SimpleRuntime.runtime)
              {| baseUrl := "https://api.xposedornot.com"; timeout := 30000;
                 retries := 3;
                 headers := [("Accept"%string, "text/plain"%string);
                             ("X-Key"%string, "k"%string)] |}
              "https://api.xposedornot.com/v1/breaches"
              {| opt_method := None;
                 opt_headers := Some [("Accept"%string, "text/csv"%string)];
                 opt_body := None; opt_params := None |}))
  = Some "text/csv"%string.
Proof.
  refine (header_precedence
            (RT := SimpleRuntime.runtime)
            {| baseUrl := "https://api.xposedornot.com"; timeout := 30000;
               retries := 3;
               headers := [("Accept"%string, "text/plain"%string);
                           ("X-Key"%string, "k"%string)] |}
            "https://api.xposedornot.com/v1/breaches"
            {| opt_method := None;
               opt_headers := Some [("Accept"%string, "text/csv"%string)];
               opt_body := None; opt_params := None |}
            "Accept" _ _);
    repeat constructor; cbn; intuition discriminate.
Defined.

(** ** Classification of error responses *)

(** X9: a response that is no success and whose body is read makes the
    [try] block throw one classified error.  It carries the status of the
    response as its [statusCode]; its code is fixed by the status (401,
    404, 429, any other); for 401, 404 and 429 its message is the one
    extracted from the body, even when that is empty, and for any other
    status it is an Api error that holds the decoded body and whose message
    is never empty.  When the text body of such a response cannot be read,
    the [try] block throws the raw error of the read instead, which is no
    classified error. *)
Theorem error_response_classified {RT : Runtime} (r : Response) :
  is_success r = false ->
  (forall data,
     decoded r = Return data ->
     exists e,
       outcome_of (Resolved r) = Throw e
       /\ isXposedOrNotError e = true
       /\ statusCode e = Some (status r)
       /\ error_code e = Some (code_of_status (status r))
       /\ (status r = 401 \/ status r = 404 \/ status r = 429 ->
           error_message e = extractErrorMessage data)
       /\ (status r <> 401 -> status r <> 404 -> status r <> 429 ->
           error_message e <> ""%string
           /\ exists message, e = ApiError message (status r) (Some data)))
  /\ (forall error,
        decoded r = Throw error ->
        outcome_of (Resolved r) = Throw error
        /\ isXposedOrNotError error = false
        /\ exists name message,
             text r = TextRejects name message /\ error = Raw name message).
Proof.
  unfold is_success. intros Hfail. apply orb_false_iff in Hfail.
  destruct Hfail as [H304 Hok]. apply Z.eqb_neq in H304.
  split.
  - intros data Hdata.
    exists (handleErrorResponse (status r) data).
    split.
    { cbn [outcome_of]. rewrite handleResponse_decoded by exact H304.
      now rewrite Hdata, Hok. }
    destruct (handleErrorResponse_statusCode (status r) data) as [Hs Hx].
    split; [exact Hx|]. split; [exact Hs|].
    unfold handleErrorResponse, code_of_status.
    destruct (Z.eqb_spec (status r) 401) as [E|E];
      [repeat split; try reflexivity; intros; try contradiction|].
    destruct (Z.eqb_spec (status r) 404) as [E'|E'];
      [repeat split; try reflexivity; intros; try contradiction|].
    destruct (Z.eqb_spec (status r) 429) as [E''|E''];
      [repeat split; try reflexivity; intros; try contradiction|].
    split; [reflexivity|]. split; [intros [?|[?|?]]; contradiction|].
    intros _ _ _. split; [|eauto].
    cbn [error_message].
    destruct (String.eqb_spec (extractErrorMessage data) "") as [_|Hne];
      [discriminate|exact Hne].
  - intros error Herror.
    split.
    { cbn [outcome_of]. rewrite handleResponse_decoded by exact H304.
      now rewrite Herror. }
    destruct (decoded_throws r Herror) as (name & message & Ht & ->).
    split; [reflexivity|]. eauto.
Qed.

Lemma error_response_classified_witness :
  exists e,
    outcome_of (RT := SimpleRuntime.runtime) Examples.server_error = Throw e
    /\ isXposedOrNotError e = true
    /\ statusCode e = Some 500
    /\ error_code e = Some "API_ERROR"%string.
Proof.
  destruct (proj1 (error_response_classified
                     (RT := SimpleRuntime.runtime)
                     {| status := 500;
                        content_type := Some "application/json"%string;
                        json := Some (JObj [("error"%string,
                                             JStr "Internal error")]);
                        text := Text ""%string |} eq_refl)
                  (JObj [("error"%string, JStr "Internal error")]) eq_refl)
    as (e & Hout & Hx & Hs & Hc & _).
  exists e. exact (conj Hout (conj Hx (conj Hs Hc))).
Defined.

(** X10: the message extracted from a decoded body: a string is the
    message itself; in an object the first of [Error], [error] and
    [message] that holds a string wins, and a field that holds anything
    else is passed over; every other body ([null] after a failed decode,
    an array, a number, an object without such a field) gives the fixed
    text.  The message of a plain-text error response is its body text,
    once read. *)
Theorem error_message_source :
  (forall s, extractErrorMessage (JStr s) = s)
  /\ (forall obj s,
        string_field "Error" obj = Some s ->
        extractErrorMessage (JObj obj) = s)
  /\ (forall obj s,
        string_field "Error" obj = None ->
        string_field "error" obj = Some s ->
        extractErrorMessage (JObj obj) = s)
  /\ (forall obj s,
        string_field "Error" obj = None ->
        string_field "error" obj = None ->
        string_field "message" obj = Some s ->
        extractErrorMessage (JObj obj) = s)
  /\ (forall data,
        (forall s, data <> JStr s) ->
        (forall obj, data = JObj obj ->
                     string_field "Error" obj = None
                     /\ string_field "error" obj = None
                     /\ string_field "message" obj = None) ->
        extractErrorMessage data = "An unknown error occurred"%string)
  /\ (forall r s,
        (forall ct, content_type r = Some ct ->
                    includes "application/json" ct = false) ->
        text r = Text s ->
        exists data,
          decoded r = Return data /\ extractErrorMessage data = s).
Proof.
  assert (Hfield : forall key obj,
             string_field key obj = None ->
             match assoc key obj with
             | Some (JStr _) => False
             | _ => True
             end).
  { unfold string_field. intros key obj.
    destruct (assoc key obj) as [[| | |s| |]|]; intros E;
      try exact I; discriminate. }
  unfold string_field.
  split; [reflexivity|].
  split.
  { intros obj s E. cbn.
    destruct (assoc "Error" obj) as [[| | |s'| |]|]; try discriminate.
    now injection E as ->. }
  split.
  { intros obj s E1 E2. cbn. apply Hfield in E1.
    destruct (assoc "Error" obj) as [[| | |s'| |]|]; try contradiction;
      destruct (assoc "error" obj) as [[| | |s''| |]|]; try discriminate;
      now injection E2 as ->. }
  split.
  { intros obj s E1 E2 E3. cbn. apply Hfield in E1. apply Hfield in E2.
    destruct (assoc "Error" obj) as [[| | |s1| |]|]; try contradiction;
      destruct (assoc "error" obj) as [[| | |s2| |]|]; try contradiction;
      destruct (assoc "message" obj) as [[| | |s3| |]|]; try discriminate;
      now injection E3 as ->. }
  split.
  { intros data Hstr Hobj.
    destruct data as [| | |s| |obj]; try reflexivity.
    - now destruct (Hstr s).
    - destruct (Hobj obj eq_refl) as (E1 & E2 & E3).
      fold (string_field "Error" obj) in E1.
      fold (string_field "error" obj) in E2.
      fold (string_field "message" obj) in E3.
      apply Hfield in E1. apply Hfield in E2. apply Hfield in E3. cbn.
      destruct (assoc "Error" obj) as [[| | |s1| |]|]; try contradiction;
        destruct (assoc "error" obj) as [[| | |s2| |]|]; try contradiction;
        destruct (assoc "message" obj) as [[| | |s3| |]|]; try contradiction;
        reflexivity. }
  intros r s Hct Hs. exists (JStr s). split; [|reflexivity].
  rewrite (decoded_text r Hct). unfold readText. now rewrite Hs.
Qed.



(** ** Bounds on the backoff *)

Lemma backoff_delay_bounds (attempt : Z) :
  1 <= attempt -> 1000 <= backoff_delay attempt <= 10000.
Proof.
  intros Ha. unfold backoff_delay.
  assert (0 < 2 ^ (attempt - 1)) by (apply Z.pow_pos_nonneg; lia).
  lia.
Qed.

Lemma backoff_delay_monotone (a b : Z) :
  1 <= a <= b -> backoff_delay a <= backoff_delay b.
Proof.
  intros Hab. unfold backoff_delay.
  assert (2 ^ (a - 1) <= 2 ^ (b - 1)) by (apply Z.pow_le_mono_r; lia).
  lia.
Qed.

Lemma fold_right_add_bound (l : list Z) (hi : Z) :
  Forall (fun ms => ms <= hi) l ->
  fold_right Z.add 0 l <= hi * Z.of_nat (List.length l).
Proof.
  induction 1 as [|ms l Hms _ IH]; cbn [fold_right List.length]; lia.
Qed.

(** X12: the backoff delay never shrinks from one attempt to the next, and
    in every run each wait lasts between 1000 and 10000 ms, so that the
    time spent in backoff is at most 10000 ms per retry. *)
Theorem backoff_within_bounds
        {RT : Runtime} {H : Type} {HO : Host H}
        (config : ResolvedConfig) (endpoint : string)
        (options : RequestOptions) (h : H) :
  let tr := trace_of (request config endpoint options h) in
  Forall (fun ms => 1000 <= ms <= 10000) (sleeps tr)
  /\ total_wait tr <= 10000 * Z.of_nat (attempts tr - 1)
  /\ (forall a b, 1 <= a <= b -> backoff_delay a <= backoff_delay b).
Proof.
  intros tr.
  assert (Hall : Forall (fun ms => 1000 <= ms <= 10000) (sleeps tr)).
  { subst tr. rewrite request_sleeps. apply Forall_forall.
    intros ms Hin. apply in_map_iff in Hin. destruct Hin as (i & <- & _).
    apply backoff_delay_bounds. lia. }
  split; [exact Hall|]. split; [|exact backoff_delay_monotone].
  unfold total_wait.
  replace (attempts tr - 1)%nat with (List.length (sleeps tr))
    by (subst tr; now rewrite request_sleeps, length_map, length_seq).
  apply fold_right_add_bound.
  eapply Forall_impl; [|exact Hall]. cbn. intros ms Hms. lia.
Qed.

(** * Input validation *)

Local Open Scope string_scope.

(** ** Strings *)

Lemma string_forallb_app (p : ascii -> bool) (a b : string) :
  string_forallb p (a ++ b) = string_forallb p a && string_forallb p b.
Proof.
  induction a as [|c a IH]; cbn [append string_forallb]; [reflexivity|].
  now rewrite IH, andb_assoc.
Qed.

Lemma string_forallb_impl (p q : ascii -> bool) (s : string) :
  (forall c, p c = true -> q c = true) ->
  string_forallb p s = true -> string_forallb q s = true.
Proof.
  intros Hpq. induction s as [|c s IH]; cbn [string_forallb]; [reflexivity|].
  intros Hs. apply andb_prop in Hs. destruct Hs as [Hc Hs].
  now rewrite (Hpq c Hc), IH.
Qed.

Lemma append_nil_r (s : string) : s ++ "" = s.
Proof. induction s as [|c s IH]; cbn [append]; now rewrite ?IH. Qed.

Lemma append_assoc (a b c : string) : (a ++ b) ++ c = a ++ b ++ c.
Proof. induction a as [|x a IH]; cbn [append]; now rewrite ?IH. Qed.

Lemma length_append (a b : string) :
  String.length (a ++ b) = (String.length a + String.length b)%nat.
Proof. induction a as [|x a IH]; cbn [append String.length]; now rewrite ?IH. Qed.

Lemma eqb_empty (s : string) : String.eqb s "" = true <-> s = "".
Proof. apply String.eqb_eq. Qed.

(** ** The email pattern *)

Lemma split_at_sound (s l r : string) :
  split_at s = Some (l, r) ->
  s = l ++ String "@" r
  /\ string_forallb (fun c => negb (Ascii.eqb c "@")) l = true.
Proof.
  revert l. induction s as [|c s IH]; intros l; cbn [split_at]; [discriminate|].
  destruct (Ascii.eqb_spec c "@") as [->|Hne].
  - intros E. injection E as <- <-. now split.
  - destruct (split_at s) as [[l' r']|]; [|discriminate].
    intros E. injection E as <- <-.
    destruct (IH l' eq_refl) as [-> Hl]. split; [reflexivity|].
    cbn [string_forallb]. rewrite Hl.
    now destruct (Ascii.eqb_spec c "@").
Qed.

Lemma split_at_complete (l r : string) :
  string_forallb (fun c => negb (Ascii.eqb c "@")) l = true ->
  split_at (l ++ String "@" r) = Some (l, r).
Proof.
  induction l as [|c l IH]; cbn [append split_at string_forallb].
  - reflexivity.
  - intros Hl. apply andb_prop in Hl. destruct Hl as [Hc Hl].
    destruct (Ascii.eqb c "@"); [discriminate|]. now rewrite IH.
Qed.

Lemma dot_then_more_sound (s : string) :
  dot_then_more s = true -> exists x y, s = x ++ String "." y /\ y <> "".
Proof.
  induction s as [|c s IH]; cbn [dot_then_more]; [discriminate|].
  intros Hs. apply orb_prop in Hs. destruct Hs as [Hs|Hs].
  - apply andb_prop in Hs. destruct Hs as [Hc Hne].
    apply Ascii.eqb_eq in Hc. subst c.
    exists "", s. split; [reflexivity|].
    intros ->. discriminate.
  - destruct (IH Hs) as (x & y & -> & Hy).
    exists (String c x), y. now split.
Qed.

Lemma dot_then_more_complete (x y : string) :
  y <> "" -> dot_then_more (x ++ String "." y) = true.
Proof.
  intros Hy. induction x as [|c x IH]; cbn [append dot_then_more].
  - destruct y; [contradiction|reflexivity].
  - rewrite IH. apply orb_true_r.
Qed.

(** X13: among the strings of ASCII characters, those that the email
    pattern accepts are exactly those of the form [local@name.rest], where
    the three parts are not empty and hold neither white space nor [@]
    (dots are allowed in each of them). *)
Theorem EMAIL_REGEX_language (s : string) :
  is_ascii s = true ->
  (EMAIL_REGEX_test s = true <->
   exists local name rest,
     s = local ++ "@" ++ name ++ "." ++ rest
     /\ local <> "" /\ name <> "" /\ rest <> ""
     /\ string_forallb email_atom local = true
     /\ string_forallb email_atom name = true
     /\ string_forallb email_atom rest = true).
Proof.
  intros _.
  unfold EMAIL_REGEX_test. split.
  - destruct (split_at s) as [[local domain]|] eqn:Hsplit; [|discriminate].
    destruct (split_at_sound s Hsplit) as [-> _].
    intros Hs.
    apply andb_prop in Hs. destruct Hs as [Hs Hdot].
    apply andb_prop in Hs. destruct Hs as [Hs Hdomain].
    apply andb_prop in Hs. destruct Hs as [Hne Hlocal].
    destruct domain as [|c tail]; [discriminate|].
    destruct (dot_then_more_sound tail Hdot) as (x & rest & -> & Hrest).
    cbn [string_forallb] in Hdomain.
    apply andb_prop in Hdomain. destruct Hdomain as [Hc Htail].
    rewrite string_forallb_app in Htail.
    apply andb_prop in Htail. destruct Htail as [Hx Hdotrest].
    cbn [string_forallb] in Hdotrest.
    apply andb_prop in Hdotrest. destruct Hdotrest as [_ Hr].
    exists local, (String c x), rest.
    split; [reflexivity|].
    split; [intros ->; discriminate|].
    split; [discriminate|]. split; [exact Hrest|].
    split; [exact Hlocal|]. split; [|exact Hr].
    cbn [string_forallb]. now rewrite Hc, Hx.
  - intros (local & name & rest & -> & Hl & Hn & Hr & Al & An & Ar).
    cbn [append].
    rewrite split_at_complete.
    2:{ eapply string_forallb_impl; [|exact Al].
        unfold email_atom. intros c Hc. apply andb_prop in Hc. tauto. }
    destruct name as [|c x]; [contradiction|].
    cbn [append string_forallb] in *.
    apply andb_prop in An. destruct An as [Hc Hx].
    rewrite Al, Hc, string_forallb_app, Hx. cbn [string_forallb].
    rewrite Ar, dot_then_more_complete by exact Hr.
    destruct local; [contradiction|reflexivity].
Qed.

Lemma EMAIL_REGEX_language_witness :
  exists local name rest,
    "first.last@mail.example.com" = local ++ "@" ++ name ++ "." ++ rest
    /\ local <> "" /\ name <> "" /\ rest <> ""
    /\ string_forallb email_atom local = true
    /\ string_forallb email_atom name = true
    /\ string_forallb email_atom rest = true.
Proof.
  exact (proj1 (EMAIL_REGEX_language "first.last@mail.example.com" eq_refl)
               eq_refl).
Defined.

(** ** Trimming and lower case *)

Ltac by_ascii c := destruct c as [[] [] [] [] [] [] [] []]; reflexivity.

Lemma lower_is_space (c : ascii) : is_space (toLowerCase_ascii c) = is_space c.
Proof. by_ascii c. Qed.

Lemma lower_is_at (c : ascii) :
  Ascii.eqb (toLowerCase_ascii c) "@" = Ascii.eqb c "@".
Proof. by_ascii c. Qed.

Lemma lower_is_dot (c : ascii) :
  Ascii.eqb (toLowerCase_ascii c) "." = Ascii.eqb c ".".
Proof. by_ascii c. Qed.

Lemma lower_idempotent (c : ascii) :
  toLowerCase_ascii (toLowerCase_ascii c) = toLowerCase_ascii c.
Proof. by_ascii c. Qed.

Lemma lower_atom (c : ascii) : email_atom (toLowerCase_ascii c) = email_atom c.
Proof. unfold email_atom. now rewrite lower_is_space, lower_is_at. Qed.

Lemma toLowerCase_empty (s : string) :
  String.eqb (toLowerCase s) "" = String.eqb s "".
Proof. now destruct s. Qed.

Lemma toLowerCase_idempotent (s : string) :
  toLowerCase (toLowerCase s) = toLowerCase s.
Proof.
  induction s as [|c s IH]; cbn [toLowerCase]; [reflexivity|].
  now rewrite lower_idempotent, IH.
Qed.

Lemma toLowerCase_length (s : string) :
  String.length (toLowerCase s) = String.length s.
Proof. induction s as [|c s IH]; cbn [toLowerCase String.length]; now rewrite ?IH. Qed.

Lemma trimStart_lower (s : string) :
  trimStart (toLowerCase s) = toLowerCase (trimStart s).
Proof.
  induction s as [|c s IH]; cbn [toLowerCase trimStart]; [reflexivity|].
  rewrite lower_is_space. now destruct (is_space c).
Qed.

Lemma trimEnd_lower (s : string) :
  trimEnd (toLowerCase s) = toLowerCase (trimEnd s).
Proof.
  induction s as [|c s IH]; cbn [toLowerCase trimEnd]; [reflexivity|].
  rewrite lower_is_space, IH, toLowerCase_empty.
  now destruct (is_space c && String.eqb (trimEnd s) "").
Qed.

Lemma trim_lower (s : string) : trim (toLowerCase s) = toLowerCase (trim s).
Proof. unfold trim. now rewrite trimStart_lower, trimEnd_lower. Qed.

Lemma trimEnd_idempotent (s : string) : trimEnd (trimEnd s) = trimEnd s.
Proof.
  induction s as [|c s IH]; cbn [trimEnd]; [reflexivity|].
  destruct (is_space c && String.eqb (trimEnd s) "") eqn:Hc; [reflexivity|].
  cbn [trimEnd]. now rewrite IH, Hc.
Qed.

Lemma trimStart_no_leading (s : string) : no_leading_space (trimStart s) = true.
Proof.
  induction s as [|c s IH]; cbn [trimStart]; [reflexivity|].
  destruct (is_space c) eqn:Hc; [exact IH|].
  cbn [no_leading_space]. now rewrite Hc.
Qed.

Lemma trimStart_fixed (s : string) :
  no_leading_space s = true -> trimStart s = s.
Proof.
  destruct s as [|c s]; cbn [no_leading_space trimStart]; [reflexivity|].
  now destruct (is_space c).
Qed.

Lemma trimEnd_no_leading (s : string) :
  no_leading_space s = true -> no_leading_space (trimEnd s) = true.
Proof.
  destruct s as [|c s]; cbn [no_leading_space trimEnd]; [reflexivity|].
  destruct (is_space c) eqn:Hc; [discriminate|]. intros _.
  cbn [andb no_leading_space]. now rewrite Hc.
Qed.

Lemma trim_idempotent (s : string) : trim (trim s) = trim s.
Proof.
  unfold trim.
  rewrite (trimStart_fixed (trimEnd (trimStart s))).
  - apply trimEnd_idempotent.
  - apply trimEnd_no_leading, trimStart_no_leading.
Qed.

Lemma split_at_lower (s : string) :
  split_at (toLowerCase s)
  = match split_at s with
    | Some (l, r) => Some (toLowerCase l, toLowerCase r)
    | None => None
    end.
Proof.
  induction s as [|c s IH]; cbn [toLowerCase split_at]; [reflexivity|].
  rewrite lower_is_at. destruct (Ascii.eqb c "@"); [reflexivity|].
  rewrite IH. now destruct (split_at s) as [[l r]|].
Qed.

Lemma atoms_lower (s : string) :
  string_forallb email_atom (toLowerCase s) = string_forallb email_atom s.
Proof.
  induction s as [|c s IH]; cbn [toLowerCase string_forallb]; [reflexivity|].
  now rewrite lower_atom, IH.
Qed.

Lemma dot_then_more_lower (s : string) :
  dot_then_more (toLowerCase s) = dot_then_more s.
Proof.
  induction s as [|c s IH]; cbn [toLowerCase dot_then_more]; [reflexivity|].
  now rewrite lower_is_dot, toLowerCase_empty, IH.
Qed.

Lemma EMAIL_REGEX_test_lower (s : string) :
  EMAIL_REGEX_test (toLowerCase s) = EMAIL_REGEX_test s.
Proof.
  unfold EMAIL_REGEX_test. rewrite split_at_lower.
  destruct (split_at s) as [[l r]|]; [|reflexivity].
  rewrite toLowerCase_empty, !atoms_lower.
  destruct r as [|c r]; cbn [toLowerCase]; [reflexivity|].
  now rewrite dot_then_more_lower.
Qed.

Lemma trimStart_forallb (p : ascii -> bool) (s : string) :
  string_forallb p s = true -> string_forallb p (trimStart s) = true.
Proof.
  induction s as [|c s IH]; [reflexivity|].
  cbn [trimStart]. destruct (is_space c); [|tauto].
  cbn [string_forallb]. intros Hs. apply andb_prop in Hs. now apply IH.
Qed.

Lemma trimEnd_forallb (p : ascii -> bool) (s : string) :
  string_forallb p s = true -> string_forallb p (trimEnd s) = true.
Proof.
  induction s as [|c s IH]; [reflexivity|].
  cbn [trimEnd string_forallb]. intros Hs.
  apply andb_prop in Hs. destruct Hs as [Hc Hs].
  destruct (is_space c && String.eqb (trimEnd s) ""); [reflexivity|].
  cbn [string_forallb]. now rewrite Hc, IH.
Qed.

Lemma lower_stays_ascii (c : ascii) :
  (nat_of_ascii c <? 128)%nat = true ->
  (nat_of_ascii (toLowerCase_ascii c) <? 128)%nat = true.
Proof.
  destruct c as [[] [] [] [] [] [] [] []]; vm_compute; intros E; congruence.
Qed.

Lemma toLowerCase_stays_ascii (s : string) :
  is_ascii s = true -> is_ascii (toLowerCase s) = true.
Proof.
  unfold is_ascii.
  induction s as [|c s IH]; [reflexivity|].
  cbn [toLowerCase string_forallb]. intros Hs.
  apply andb_prop in Hs. destruct Hs as [Hc Hs].
  now rewrite (lower_stays_ascii c Hc), IH.
Qed.

Lemma trim_stays_ascii (s : string) :
  is_ascii s = true -> is_ascii (trim s) = true.
Proof.
  unfold is_ascii, trim. intros Hs.
  now apply trimEnd_forallb, trimStart_forallb.
Qed.

(** X14: for an email of ASCII characters, [normalizeEmail] is
    idempotent, and the email is valid exactly when its normal form is:
    [validateEmail] gives the same outcome, error included, for the email,
    for the email trimmed and for the email normalized, so the address that
    is sent has passed the same check as the one that was given.  The
    normal form is again a string of ASCII characters. *)
Theorem validation_respects_normal_form (email : string) :
  is_ascii email = true ->
  normalizeEmail (normalizeEmail email) = normalizeEmail email
  /\ validateEmail (normalizeEmail email) = validateEmail email
  /\ validateEmail (trim email) = validateEmail email
  /\ is_ascii (normalizeEmail email) = true.
Proof.
  intros Hascii.
  split; [|split; [|split]].
  - unfold normalizeEmail.
    now rewrite !trim_lower, !trim_idempotent, toLowerCase_idempotent.
  - unfold normalizeEmail, validateEmail.
    rewrite !trim_lower, !trim_idempotent.
    now rewrite toLowerCase_empty, EMAIL_REGEX_test_lower, toLowerCase_length.
  - unfold validateEmail. now rewrite !trim_idempotent.
  - unfold normalizeEmail.
    now apply toLowerCase_stays_ascii, trim_stays_ascii.
Qed.

Lemma validation_respects_normal_form_witness :
  normalizeEmail "  User@Example.COM " = "user@example.com"%string
  /\ validateEmail (normalizeEmail "  User@Example.COM ")
     = validateEmail "  User@Example.COM ".
Proof.
  split; [reflexivity|].
  exact (proj1 (proj2 (validation_respects_normal_form
                         "  User@Example.COM " eq_refl))).
Defined.

(** ** Encoding the email for the path *)

Lemma hex_digits_safe (c : ascii) :
  uri_safe (hex_digit (nat_of_ascii c / 16)) = true
  /\ uri_safe (hex_digit (nat_of_ascii c mod 16)) = true.
Proof. destruct c as [[] [] [] [] [] [] [] []]; split; reflexivity. Qed.

Lemma encodeURIComponent_safe (s : string) :
  string_forallb uri_safe (encodeURIComponent s) = true.
Proof.
  induction s as [|c s IH]; cbn [encodeURIComponent]; [reflexivity|].
  destruct (uri_unreserved c) eqn:Hc; cbn [string_forallb].
  - unfold uri_safe at 1. now rewrite Hc, IH.
  - destruct (hex_digits_safe c) as [-> ->]. now rewrite IH.
Qed.

Lemma encodeURIComponent_unreserved (s : string) :
  string_forallb uri_unreserved s = true -> encodeURIComponent s = s.
Proof.
  induction s as [|c s IH]; cbn [encodeURIComponent string_forallb];
    [reflexivity|].
  intros Hs. apply andb_prop in Hs. destruct Hs as [-> Hs]. now rewrite IH.
Qed.

Lemma encodeURIComponent_length (s : string) :
  (String.length s <= String.length (encodeURIComponent s))%nat.
Proof.
  induction s as [|c s IH]; cbn [encodeURIComponent String.length]; [lia|].
  destruct (uri_unreserved c); cbn [String.length]; lia.
Qed.

(** X15: the path segment that [sanitizeEmailForPath] makes of an email
    holds only unreserved characters and percent signs, so none of [/],
    [?], [#], [&], [=], [@], [+] or a blank: whatever the email, it stays
    one segment of the path.  An email of unreserved characters only is
    its own segment once normalized. *)
Theorem sanitized_email_is_one_segment (email : string) :
  string_forallb uri_safe (sanitizeEmailForPath email) = true
  /\ map uri_safe ["/"; "?"; "#"; "&"; "="; "@"; "+"; " "]%char
     = [false; false; false; false; false; false; false; false]
  /\ (string_forallb uri_unreserved (normalizeEmail email) = true ->
      sanitizeEmailForPath email = normalizeEmail email)
  /\ (String.length (normalizeEmail email)
      <= String.length (sanitizeEmailForPath email))%nat.
Proof.
  unfold sanitizeEmailForPath.
  split; [apply encodeURIComponent_safe|].
  split; [reflexivity|].
  split; [apply encodeURIComponent_unreserved|apply encodeURIComponent_length].
Qed.

(** ** The domain pattern *)

Lemma split_last_dot_none (s : string) :
  string_forallb (fun c => negb (Ascii.eqb c ".")) s = true ->
  split_last_dot s = None.
Proof.
  induction s as [|c s IH]; cbn [split_last_dot string_forallb]; [reflexivity|].
  intros Hs. apply andb_prop in Hs. destruct Hs as [Hc Hs].
  rewrite (IH Hs). now destruct (Ascii.eqb c ".").
Qed.

Lemma split_last_dot_sound (s a b : string) :
  split_last_dot s = Some (a, b) -> s = a ++ String "." b.
Proof.
  revert a. induction s as [|c s IH]; intros a; cbn [split_last_dot];
    [discriminate|].
  destruct (split_last_dot s) as [[a' b']|].
  - intros E. injection E as <- <-. now rewrite (IH a' eq_refl).
  - destruct (Ascii.eqb_spec c ".") as [->|_]; [|discriminate].
    intros E. now injection E as <- <-.
Qed.

Lemma split_last_dot_complete (a b : string) :
  string_forallb (fun c => negb (Ascii.eqb c ".")) b = true ->
  split_last_dot (a ++ String "." b) = Some (a, b).
Proof.
  intros Hb. induction a as [|c a IH]; cbn [append split_last_dot].
  - now rewrite (split_last_dot_none b Hb).
  - now rewrite IH.
Qed.

Lemma is_alpha_no_dot (c : ascii) :
  is_alpha c = true -> negb (Ascii.eqb c ".") = true.
Proof.
  destruct c as [[] [] [] [] [] [] [] []]; vm_compute; intros E; congruence.
Qed.

(** X16: the strings that the domain pattern accepts are exactly those
    made of a letter or digit, then one or more letters, digits, hyphens,
    underscores or dots, then a dot, then two or more letters.  An accepted
    domain therefore has five characters at least: no one-letter name such
    as [a.io] passes. *)
Theorem DOMAIN_REGEX_language (s : string) :
  (DOMAIN_REGEX_test s = true <->
   exists first middle tld,
     s = String first (middle ++ "." ++ tld)
     /\ is_alnum first = true
     /\ middle <> ""
     /\ string_forallb domain_char middle = true
     /\ (2 <= String.length tld)%nat
     /\ string_forallb is_alpha tld = true)
  /\ (DOMAIN_REGEX_test s = true -> (5 <= String.length s)%nat).
Proof.
  assert (Hiff :
    DOMAIN_REGEX_test s = true <->
    exists first middle tld,
      s = String first (middle ++ "." ++ tld)
      /\ is_alnum first = true
      /\ middle <> ""
      /\ string_forallb domain_char middle = true
      /\ (2 <= String.length tld)%nat
      /\ string_forallb is_alpha tld = true).
  { unfold DOMAIN_REGEX_test. split.
    - destruct (split_last_dot s) as [[[|first middle] tld]|] eqn:Hsplit;
        try discriminate.
      apply split_last_dot_sound in Hsplit. subst s.
      intros Hs.
      apply andb_prop in Hs. destruct Hs as [Hs Htld].
      apply andb_prop in Hs. destruct Hs as [Hs Hlen].
      apply andb_prop in Hs. destruct Hs as [Hs Hmid].
      apply andb_prop in Hs. destruct Hs as [Hfirst Hne].
      exists first, middle, tld. split; [reflexivity|].
      split; [exact Hfirst|].
      split; [intros ->; discriminate|].
      split; [exact Hmid|]. split; [now apply Nat.leb_le|exact Htld].
    - intros (first & middle & tld & -> & Hfirst & Hne & Hmid & Hlen & Htld).
      change (String first (middle ++ "." ++ tld))
        with (String first middle ++ String "." tld).
      rewrite split_last_dot_complete
        by (eapply string_forallb_impl; [exact is_alpha_no_dot|exact Htld]).
      rewrite Hfirst, Hmid, Htld.
      apply Nat.leb_le in Hlen. rewrite Hlen.
      destruct middle; [contradiction|reflexivity]. }
  split; [exact Hiff|].
  intros Hs. apply Hiff in Hs.
  destruct Hs as (first & middle & tld & -> & _ & Hne & _ & Hlen & _).
  cbn [String.length append]. rewrite length_append. cbn [String.length].
  destruct middle; [contradiction|]. cbn [String.length]. lia.
Qed.

(** * The endpoint functions *)

Local Open Scope list_scope.

Lemma validateEmail_throws (email : string) (e : Error) :
  validateEmail email = Throw e -> isValidationError e = true.
Proof.
  unfold validateEmail.
  destruct (String.eqb (trim email) "");
    [intros E; now injection E as <-|].
  destruct (negb (EMAIL_REGEX_test (trim email)));
    [intros E; now injection E as <-|].
  destruct (254 <? String.length (trim email))%nat;
    [intros E; now injection E as <-|discriminate].
Qed.

(** X17: an email that fails validation stops [checkEmail] and
    [getBreachAnalytics] before any host call: the Validation error is
    thrown with an empty trace and the host state untouched. *)
Theorem invalid_email_makes_no_call
        {RT : Runtime} {H : Type} {HO : Host H}
        (http : ResolvedConfig) (email : string)
        (check_options : CheckEmailOptions)
        (analytics_options : GetBreachAnalyticsOptions)
        (h : H) (e : Error) :
  validateEmail email = Throw e ->
  isValidationError e = true
  /\ checkEmail http email check_options h = (Throw e, [], h)
  /\ getBreachAnalytics http email analytics_options h = (Throw e, [], h).
Proof.
  intros Hbad. split; [exact (validateEmail_throws email Hbad)|].
  unfold checkEmail, getBreachAnalytics, bind, traced.
  rewrite Hbad. now split.
Qed.

Lemma invalid_email_makes_no_call_witness :
  checkEmail (RT := SimpleRuntime.runtime) (HO := ScriptHost.host)
             (Examples.config 3) "missing@domain" Examples.no_details
             [Examples.success]
  = (Throw (ValidationError "Invalid email format" (Some "email"%string)),
     [], [Examples.success]).
Proof.
  exact (proj1 (proj2 (invalid_email_makes_no_call
                         (RT := SimpleRuntime.runtime) (HO := ScriptHost.host)
                         (Examples.config 3) "missing@domain"
                         Examples.no_details Examples.no_token
                         [Examples.success]
                         (e := ValidationError "Invalid email format"
                                               (Some "email"%string))
                         eq_refl))).
Defined.

Lemma flat_arrays (groups : list (list Json)) :
  flat (map JArr groups) = List.concat groups.
Proof.
  unfold flat. induction groups as [|g groups IH]; cbn; [reflexivity|].
  now rewrite IH.
Qed.

Lemma checkEmail_result_throws (response : Json) (e : Error) :
  checkEmail_result response = Throw e -> isNotFoundError e = false.
Proof.
  unfold checkEmail_result.
  destruct response; cbn;
    try (intros E; now injection E as <-);
    try discriminate.
  now destruct (assoc "breaches" _) as [[| | | | |]|].
Qed.

(** X18: what [checkEmail] makes of the value of its request, for a valid
    email.  An object with an array [breaches] gives [found] true and the
    breaches flattened by one level, even when there are none; an object
    without one, or an array, gives [found] false and no breaches.  The
    email of the result is the [email] field of the response, not the
    argument.  The host calls are those of the request. *)
Theorem checkEmail_reshapes
        {RT : Runtime} {H : Type} {HO : Host H}
        (http : ResolvedConfig) (email : string)
        (options : CheckEmailOptions) (h : H) (response : Json) :
  validateEmail email = Return tt ->
  result_of (request http (checkEmail_endpoint email)
                     (checkEmail_request options) h) = Return response ->
  result_of (checkEmail http email options h) = checkEmail_result response
  /\ trace_of (checkEmail http email options h)
     = trace_of (request http (checkEmail_endpoint email)
                         (checkEmail_request options) h)
  /\ (forall fields breaches,
        response = JObj fields ->
        assoc "breaches" fields = Some (JArr breaches) ->
        checkEmail_result response
        = Return {| ce_email := assoc "email" fields;
                    ce_found := true;
                    ce_breaches := flat breaches |})
  /\ (forall fields,
        response = JObj fields ->
        (forall breaches, assoc "breaches" fields <> Some (JArr breaches)) ->
        checkEmail_result response
        = Return {| ce_email := assoc "email" fields;
                    ce_found := false;
                    ce_breaches := [] |})
  /\ (forall items,
        response = JArr items ->
        checkEmail_result response
        = Return {| ce_email := None; ce_found := false; ce_breaches := [] |})
  /\ (forall groups, flat (map JArr groups) = List.concat groups).
Proof.
  intros Hvalid Hreq.
  split; [|split].
  - unfold checkEmail, bind, try_catch, traced. rewrite Hvalid. cbn [fst snd].
    destruct (request http (checkEmail_endpoint email) _ h) as [[c t] h'].
    cbn [result_of fst] in Hreq. subst c. cbn [fst snd result_of].
    destruct (checkEmail_result response) as [v|e] eqn:E; [reflexivity|].
    now rewrite (checkEmail_result_throws _ E).
  - unfold checkEmail, bind, try_catch, traced. rewrite Hvalid. cbn [fst snd].
    destruct (request http (checkEmail_endpoint email) _ h) as [[c t] h'].
    cbn [result_of fst] in Hreq. subst c. cbn [fst snd trace_of].
    destruct (checkEmail_result response) as [v|e] eqn:E;
      [now rewrite !app_nil_r|].
    rewrite (checkEmail_result_throws _ E). cbn. now rewrite !app_nil_r.
  - split; [|split; [|split]].
    + intros fields breaches -> E. unfold checkEmail_result. cbn. now rewrite E.
    + intros fields -> Hno. unfold checkEmail_result. cbn.
      destruct (assoc "breaches" fields) as [[| | | |b|]|]; try reflexivity.
      now destruct (Hno b).
    + now intros items ->.
    + exact flat_arrays.
Qed.

Lemma checkEmail_reshapes_witness :
  result_of (checkEmail (RT := SimpleRuntime.runtime) (HO := ScriptHost.host)
               (Examples.config 3) "User@Example.com" Examples.no_details
               [Examples.json_response 200
                  (JObj [("breaches"%string,
                          JArr [JArr [JStr "Adobe"; JStr "LinkedIn"]]);
                         ("email"%string, JStr "user@example.com")])])
  = Return {| ce_email := Some (JStr "user@example.com");
              ce_found := true;
              ce_breaches := [JStr "Adobe"; JStr "LinkedIn"] |}.
Proof.
  exact (proj1 (checkEmail_reshapes
                  (RT := SimpleRuntime.runtime) (HO := ScriptHost.host)
                  (Examples.config 3) "User@Example.com" Examples.no_details
                  [Examples.json_response 200
                     (JObj [("breaches"%string,
                             JArr [JArr [JStr "Adobe"; JStr "LinkedIn"]]);
                            ("email"%string, JStr "user@example.com")])]
                  (response :=
                     JObj [("breaches"%string,
                            JArr [JArr [JStr "Adobe"; JStr "LinkedIn"]]);
                           ("email"%string, JStr "user@example.com")])
                  eq_refl eq_refl)).
Defined.

(** X19: [getBreaches] has no catch block: every error of its request,
    NotFound included, reaches the caller as it is.  From an object it
    returns the [exposedBreaches] field, and the empty list when the field
    is missing or [null]; a filter that is the empty string is not sent. *)
Theorem getBreaches_passes_through
        {RT : Runtime} {H : Type} {HO : Host H}
        (http : ResolvedConfig) (options : GetBreachesOptions) (h : H) :
  let run := request http "/v1/breaches" (getBreaches_request options) h in
  (forall e, result_of run = Throw e ->
             getBreaches http options h = (Throw e, trace_of run, host_of run))
  /\ (forall fields,
        result_of run = Return (JObj fields) ->
        result_of (getBreaches http options h)
        = Return (match assoc "exposedBreaches" fields with
                  | None | Some JNull => JArr []
                  | Some breaches => breaches
                  end))
  /\ (gb_domain options = Some ""%string \/ gb_domain options = None ->
      gb_breachId options = Some ""%string \/ gb_breachId options = None ->
      opt_params (getBreaches_request options) = Some []).
Proof.
  intros run. unfold getBreaches, bind, traced. fold run.
  destruct run as [[c t] h']. cbn [result_of trace_of host_of fst snd].
  split; [intros e ->; reflexivity|].
  split.
  - intros fields ->. cbn [fst snd]. unfold getBreaches_result. cbn.
    now destruct (assoc "exposedBreaches" fields) as [[| | | | |]|].
  - unfold getBreaches_request, filter_param. cbn [opt_params].
    intros [->| ->] [->| ->]; reflexivity.
Qed.

Lemma getBreaches_passes_through_witness :
  result_of (getBreaches (RT := SimpleRuntime.runtime) (HO := ScriptHost.host)
               (Examples.config 3)
               {| gb_domain := None; gb_breachId := Some "nowhere"%string |}
               [Examples.not_found])
  = Throw (NotFoundError "Not found").
Proof.
  exact (f_equal (fun run => result_of run)
           (proj1 (getBreaches_passes_through
                     (RT := SimpleRuntime.runtime) (HO := ScriptHost.host)
                     (Examples.config 3)
                     {| gb_domain := None; gb_breachId := Some "nowhere"%string |}
                     [Examples.not_found])
                  (NotFoundError "Not found") eq_refl)).
Defined.

Lemma breachAnalytics_result_throws {RT : Runtime}
      (email : string) (response : Json) (e : Error) :
  breachAnalytics_result email response = Throw e -> isNotFoundError e = false.
Proof.
  unfold breachAnalytics_result.
  destruct (get_prop response "ExposedBreaches") as [exposed|e0] eqn:E0.
  - cbv zeta.
    match goal with
    | |- match match ?details with _ => _ end with _ => _ end = _ -> _ =>
        destruct details as [d|]; [|discriminate]
    end.
    destruct d; cbn; try discriminate.
    intros E; now injection E as <-.
  - destruct response; cbn in E0; try discriminate.
    injection E0 as <-. intros E; now injection E as <-.
Qed.

Section EndpointRuns.
Context {RT : Runtime} {H : Type} {HO : Host H}.
Variable http : ResolvedConfig.

Lemma checkEmail_run (email : string) (options : CheckEmailOptions) (h : H)
      (response : Json) :
  validateEmail email = Return tt ->
  result_of (request http (checkEmail_endpoint email)
                     (checkEmail_request options) h) = Return response ->
  result_of (checkEmail http email options h) = checkEmail_result response.
Proof.
  intros Hvalid Hreq.
  unfold checkEmail, bind, try_catch, traced. rewrite Hvalid. cbn [fst snd].
  destruct (request http (checkEmail_endpoint email) _ h) as [[c t] h'].
  cbn [result_of fst] in Hreq. subst c. cbn [fst snd result_of].
  destruct (checkEmail_result response) as [v|e] eqn:E; [reflexivity|].
  now rewrite (checkEmail_result_throws _ E).
Qed.

Lemma getBreachAnalytics_run (email : string)
      (options : GetBreachAnalyticsOptions) (h : H) (response : Json) :
  validateEmail email = Return tt ->
  result_of (request http "/v1/breach-analytics"
                     (breachAnalytics_request email options) h)
  = Return response ->
  result_of (getBreachAnalytics http email options h)
  = breachAnalytics_result email response.
Proof.
  intros Hvalid Hreq.
  unfold getBreachAnalytics, bind, try_catch, traced.
  rewrite Hvalid. cbn [fst snd].
  destruct (request http "/v1/breach-analytics" _ h) as [[c t] h'].
  cbn [result_of fst] in Hreq. subst c. cbn [fst snd result_of].
  destruct (breachAnalytics_result email response) as [v|e] eqn:E;
    [reflexivity|].
  now rewrite (breachAnalytics_result_throws _ _ E).
Qed.

Lemma getBreaches_run (options : GetBreachesOptions) (h : H)
      (response : Json) :
  result_of (request http "/v1/breaches" (getBreaches_request options) h)
  = Return response ->
  result_of (getBreaches http options h) = getBreaches_result response.
Proof.
  intros Hreq. unfold getBreaches, bind, traced.
  destruct (request http "/v1/breaches" _ h) as [[c t] h'].
  cbn [result_of fst] in Hreq. subst c. reflexivity.
Qed.

End EndpointRuns.

(** X20: a success body that is no object.  [null], which is what an
    undecodable JSON body becomes, makes all three endpoint functions throw
    a plain [TypeError], outside the client's error classes.  A primitive,
    such as the text of a body that is not JSON, makes [checkEmail] throw a
    plain [TypeError], while [getBreachAnalytics] answers [found] false with
    the primitive as analytics and [getBreaches] answers the empty list. *)
Theorem non_object_success_body
        {RT : Runtime} {H : Type} {HO : Host H}
        (http : ResolvedConfig) (email : string)
        (check_options : CheckEmailOptions)
        (analytics_options : GetBreachAnalyticsOptions)
        (breaches_options : GetBreachesOptions) (h : H) :
  validateEmail email = Return tt ->
  let check_run := request http (checkEmail_endpoint email)
                           (checkEmail_request check_options) h in
  let analytics_run := request http "/v1/breach-analytics"
                               (breachAnalytics_request email analytics_options)
                               h in
  let breaches_run := request http "/v1/breaches"
                              (getBreaches_request breaches_options) h in
  (forall v, result_of check_run = Return v ->
             v = JNull \/ is_primitive v = true ->
             exists message,
               result_of (checkEmail http email check_options h)
               = Throw (Raw "TypeError" message))
  /\ (result_of analytics_run = Return JNull ->
      exists message,
        result_of (getBreachAnalytics http email analytics_options h)
        = Throw (Raw "TypeError" message))
  /\ (forall v, result_of analytics_run = Return v ->
                is_primitive v = true ->
                result_of (getBreachAnalytics http email analytics_options h)
                = Return {| ba_email := email; ba_found := false;
                            ba_analytics := v |})
  /\ (result_of breaches_run = Return JNull ->
      exists message,
        result_of (getBreaches http breaches_options h)
        = Throw (Raw "TypeError" message))
  /\ (forall v, result_of breaches_run = Return v ->
                is_primitive v = true ->
                result_of (getBreaches http breaches_options h)
                = Return (JArr [])).
Proof.
  intros Hvalid check_run analytics_run breaches_run.
  split; [|split; [|split; [|split]]].
  - intros v Hrun Hv.
    rewrite (checkEmail_run http email check_options h Hvalid Hrun).
    destruct Hv as [->|Hv]; [cbn; eauto|].
    destruct v; try discriminate; cbn; eauto.
  - intros Hrun.
    rewrite (getBreachAnalytics_run http email analytics_options h Hvalid Hrun).
    cbn. eauto.
  - intros v Hrun Hv.
    rewrite (getBreachAnalytics_run http email analytics_options h Hvalid Hrun).
    destruct v; try discriminate; reflexivity.
  - intros Hrun. rewrite (getBreaches_run http breaches_options h Hrun).
    cbn. eauto.
  - intros v Hrun Hv. rewrite (getBreaches_run http breaches_options h Hrun).
    destruct v; try discriminate; reflexivity.
Qed.

Lemma non_object_success_body_witness :
  (exists message,
     result_of (checkEmail (RT := SimpleRuntime.runtime) (HO := ScriptHost.host)
                  (Examples.config 3) "user@example.com" Examples.no_details
                  [Resolved Examples.broken_json])
     = Throw (Raw "TypeError" message))
  /\ result_of (getBreachAnalytics
                  (RT := SimpleRuntime.runtime) (HO := ScriptHost.host)
                  (Examples.config 3) "user@example.com" Examples.no_token
                  [Resolved Examples.plain_text])
     = Return {| ba_email := "user@example.com"; ba_found := false;
                 ba_analytics := JStr "pong" |}.
Proof.
  pose proof (non_object_success_body
                (RT := SimpleRuntime.runtime) (HO := ScriptHost.host)
                (Examples.config 3) "user@example.com"
                Examples.no_details Examples.no_token
                {| gb_domain := None; gb_breachId := None |}
                [Resolved Examples.broken_json] eq_refl) as Hnull.
  pose proof (non_object_success_body
                (RT := SimpleRuntime.runtime) (HO := ScriptHost.host)
                (Examples.config 3) "user@example.com"
                Examples.no_details Examples.no_token
                {| gb_domain := None; gb_breachId := None |}
                [Resolved Examples.plain_text] eq_refl) as Htext.
  split.
  - exact (proj1 Hnull JNull eq_refl (or_introl eq_refl)).
  - exact (proj1 (proj2 (proj2 Htext)) _ eq_refl eq_refl).
Defined.

Lemma gt_zero_length {RT : Runtime} (n : nat) :
  gt_zero (Some (JNum (inject_Z (Z.of_nat n)))) = (0 <? n)%nat.
Proof. destruct n; reflexivity. Qed.

(** X21: when [getBreachAnalytics] reports [found], for a valid email and
    a response that is an object.  With a list of breach details under
    [ExposedBreaches], [found] tells whether that list or the list of
    pastes has a member; without [ExposedBreaches], or with [null] there,
    or without [breaches_details], only the pastes count; pastes that are
    no array count as none.  [breaches_details: null] makes the function
    throw a plain [TypeError].  The result carries the email as it was
    passed and the response as it came. *)
Theorem breachAnalytics_found
        {RT : Runtime} {H : Type} {HO : Host H}
        (http : ResolvedConfig) (email : string)
        (options : GetBreachAnalyticsOptions) (h : H)
        (fields : list (string * Json)) :
  validateEmail email = Return tt ->
  result_of (request http "/v1/breach-analytics"
                     (breachAnalytics_request email options) h)
  = Return (JObj fields) ->
  let has_pastes :=
    match assoc "ExposedPastes" fields with
    | Some (JArr pastes) => (0 <? List.length pastes)%nat
    | _ => false
    end in
  let answer := result_of (getBreachAnalytics http email options h) in
  (forall exposed details,
     assoc "ExposedBreaches" fields = Some (JObj exposed) ->
     assoc "breaches_details" exposed = Some (JArr details) ->
     answer = Return {| ba_email := email;
                        ba_found := (0 <? List.length details)%nat || has_pastes;
                        ba_analytics := JObj fields |})
  /\ (assoc "ExposedBreaches" fields = None
      \/ assoc "ExposedBreaches" fields = Some JNull
      \/ (exists exposed,
             assoc "ExposedBreaches" fields = Some (JObj exposed)
             /\ assoc "breaches_details" exposed = None) ->
      answer = Return {| ba_email := email;
                         ba_found := has_pastes;
                         ba_analytics := JObj fields |})
  /\ (forall exposed,
        assoc "ExposedBreaches" fields = Some (JObj exposed) ->
        assoc "breaches_details" exposed = Some JNull ->
        exists message, answer = Throw (Raw "TypeError" message)).
Proof.
  intros Hvalid Hrun has_pastes answer. subst answer.
  rewrite (getBreachAnalytics_run http email options h Hvalid Hrun).
  unfold breachAnalytics_result. cbn [get_prop].
  split; [|split].
  - intros exposed details -> Hd. cbn [get_prop]. rewrite Hd.
    cbn [get_prop String.eqb Ascii.eqb Bool.eqb]. cbv zeta.
    rewrite gt_zero_length. subst has_pastes.
    now destruct (assoc "ExposedPastes" fields) as [[| | | | |]|].
  - subst has_pastes.
    intros [->|[->|(exposed & -> & Hd)]]; cbn [get_prop]; try rewrite Hd;
      now destruct (assoc "ExposedPastes" fields) as [[| | | | |]|].
  - intros exposed -> Hd. cbn [get_prop]. rewrite Hd. cbn. eauto.
Qed.

Lemma breachAnalytics_found_witness :
  result_of (getBreachAnalytics
               (RT := SimpleRuntime.runtime) (HO := ScriptHost.host)
               (Examples.config 3) "user@example.com" Examples.no_token
               [Examples.json_response 200
                  (JObj [("ExposedBreaches"%string,
                          JObj [("breaches_details"%string, JArr [])]);
                         ("ExposedPastes"%string, JArr [JStr "paste"])])])
  = Return {| ba_email := "user@example.com";
              ba_found := true;
              ba_analytics :=
                JObj [("ExposedBreaches"%string,
                       JObj [("breaches_details"%string, JArr [])]);
                      ("ExposedPastes"%string, JArr [JStr "paste"])] |}.
Proof.
  exact (proj1 (breachAnalytics_found
                  (RT := SimpleRuntime.runtime) (HO := ScriptHost.host)
                  (Examples.config 3) "user@example.com" Examples.no_token
                  [Examples.json_response 200
                     (JObj [("ExposedBreaches"%string,
                             JObj [("breaches_details"%string, JArr [])]);
                            ("ExposedPastes"%string, JArr [JStr "paste"])])]
                  (fields :=
                     [("ExposedBreaches"%string,
                       JObj [("breaches_details"%string, JArr [])]);
                      ("ExposedPastes"%string, JArr [JStr "paste"])])
                  eq_refl eq_refl)
               [("breaches_details"%string, JArr [])] [] eq_refl eq_refl).
Defined.

(** * The configuration of a constructed client *)

(** X22: [resolveConfig] tests the base URL, then the timeout, then the
    retries, and reports the first of them that is invalid, whatever the
    later ones are.  In an accepted configuration a header of the caller
    replaces the default of the same name and the other defaults stay. *)
Theorem resolveConfig_reports_first_invalid
        {RT : Runtime} (c : XposedOrNotConfig) :
  (https_url (effective_baseUrl c) = false ->
   exists message,
     XposedOrNot_new c
     = Throw (ValidationError message (Some "baseUrl"%string)))
  /\ (https_url (effective_baseUrl c) = true ->
      in_range 1000 300000 (effective_timeout c) = false ->
      exists message,
        XposedOrNot_new c
        = Throw (ValidationError message (Some "timeout"%string)))
  /\ (https_url (effective_baseUrl c) = true ->
      in_range 1000 300000 (effective_timeout c) = true ->
      Number_isInteger (effective_retries c)
      && in_range 0 10 (effective_retries c) = false ->
      exists message,
        XposedOrNot_new c
        = Throw (ValidationError message (Some "retries"%string)))
  /\ (forall resolved name,
        XposedOrNot_new c = Return resolved ->
        let given := match cfg_headers c with Some g => g | None => [] end in
        NoDup (map fst given) ->
        assoc name (headers resolved)
        = match assoc name given with
          | Some value => Some value
          | None => assoc name (headers DEFAULT_CONFIG)
          end).
Proof.
  unfold XposedOrNot_new, resolveConfig.
  fold (effective_baseUrl c) (effective_timeout c) (effective_retries c).
  destruct (validateBaseUrl_spec (effective_baseUrl c)) as [Hb1 Hb0].
  destruct (validateTimeout_spec (effective_timeout c)) as [Ht1 Ht0].
  destruct (validateRetries_spec (effective_retries c)) as [Hr1 Hr0].
  split; [|split; [|split]].
  - intros Hb. destruct (Hb0 Hb) as [m ->]. eauto.
  - intros Hb Ht. rewrite (Hb1 Hb). destruct (Ht0 Ht) as [m ->]. eauto.
  - intros Hb Ht Hr. rewrite (Hb1 Hb).
    destruct (Ht1 Ht) as (t & _ & ->). destruct (Hr0 Hr) as [m ->]. eauto.
  - intros resolved name.
    destruct (validateBaseUrl (effective_baseUrl c)); [|discriminate].
    destruct (validateTimeout (effective_timeout c)); [|discriminate].
    destruct (validateRetries (effective_retries c)); [|discriminate].
    intros E Hnodup. injection E as <-. cbn [headers].
    now apply assoc_spread.
Qed.

Lemma resolveConfig_accepts {RT : Runtime}
      (c : XposedOrNotConfig) (client : ResolvedConfig) :
  XposedOrNot_new c = Return client ->
  https_url (effective_baseUrl c) = true
  /\ in_range 1000 300000 (effective_timeout c) = true
  /\ Number_isInteger (effective_retries c)
     && in_range 0 10 (effective_retries c) = true
  /\ baseUrl client = effective_baseUrl c
  /\ effective_timeout c = Finite (timeout client)
  /\ exists q, effective_retries c = Finite q /\ retries client = Qfloor q.
Proof.
  unfold XposedOrNot_new, resolveConfig.
  fold (effective_baseUrl c) (effective_timeout c) (effective_retries c).
  destruct (validateBaseUrl_spec (effective_baseUrl c)) as [Hb1 Hb0].
  destruct (validateTimeout_spec (effective_timeout c)) as [Ht1 Ht0].
  destruct (validateRetries_spec (effective_retries c)) as [Hr1 Hr0].
  destruct (https_url (effective_baseUrl c));
    [|destruct (Hb0 eq_refl) as [m ->]; discriminate].
  rewrite (Hb1 eq_refl).
  destruct (in_range 1000 300000 (effective_timeout c));
    [|destruct (Ht0 eq_refl) as [m ->]; discriminate].
  destruct (Ht1 eq_refl) as (t & Et & ->).
  destruct (Number_isInteger (effective_retries c)
            && in_range 0 10 (effective_retries c));
    [|destruct (Hr0 eq_refl) as [m ->]; discriminate].
  destruct (Hr1 eq_refl) as (q & Eq & ->).
  intros E. injection E as <-. cbn [baseUrl timeout retries].
  repeat split; eauto.
Qed.

Lemma sum_of_delays_bound (n : nat) :
  (n <= 9)%nat ->
  fold_right Z.add 0
             (map (fun i => backoff_delay (1 + Z.of_nat i)) (seq 0 n))
  <= 65000.
Proof.
  intros Hn.
  do 10 (destruct n as [|n]; [vm_compute; discriminate|]).
  lia.
Qed.

(** X23: what construction guarantees of a client and of every request it
    runs: between 0 and 10 retries, a timeout between 1000 and 300000 ms,
    a base URL on https; hence at most 10 attempts, and at most 65000 ms
    of waiting between them. *)
Theorem constructed_client_bounds
        {RT : Runtime} {H : Type} {HO : Host H}
        (c : XposedOrNotConfig) (client : ResolvedConfig)
        (endpoint : string) (options : RequestOptions) (h : H) :
  XposedOrNot_new c = Return client ->
  0 <= retries client <= 10
  /\ (1000 <= timeout client)%Q /\ (timeout client <= 300000)%Q
  /\ https_url (baseUrl client) = true
  /\ let tr := trace_of (request client endpoint options h) in
     (attempts tr <= 10)%nat /\ 0 <= total_wait tr <= 65000.
Proof.
  intros Hnew.
  destruct (resolveConfig_accepts c Hnew)
    as (Hb & Ht & Hr & Hbase & Htimeout & q & Hq & Hretries).
  rename client into resolved.
  apply andb_prop in Hr. destruct Hr as [_ Hr].
  rewrite Htimeout in Ht. rewrite Hq in Hr. unfold in_range in Ht, Hr.
  apply andb_prop in Ht. destruct Ht as [Ht1 Ht2].
  apply andb_prop in Hr. destruct Hr as [Hr1 Hr2].
  apply Qle_bool_iff in Ht1, Ht2, Hr1, Hr2.
  assert (Hretries_range : 0 <= retries resolved <= 10).
  { rewrite Hretries. split.
    - change 0 with (Qfloor 0). now apply Qfloor_resp_le.
    - change 10 with (Qfloor 10). now apply Qfloor_resp_le. }
  split; [exact Hretries_range|].
  split; [exact Ht1|]. split; [exact Ht2|].
  split; [now rewrite Hbase|].
  intros tr.
  pose proof (request_attempts_le resolved endpoint options h) as Hle.
  fold tr in Hle.
  assert (Hten : (attempts tr <= 10)%nat) by lia.
  split; [exact Hten|].
  unfold total_wait, tr. rewrite request_sleeps. fold tr.
  split.
  - clear. induction (seq 0 (attempts tr - 1)) as [|i l IH]; cbn [map fold_right];
      [lia|].
    assert (Hi : 1 <= 1 + Z.of_nat i) by lia.
    pose proof (backoff_delay_bounds Hi). lia.
  - apply sum_of_delays_bound. lia.
Qed.

Lemma constructed_client_bounds_witness :
  (attempts (trace_of (request (RT := SimpleRuntime.runtime)
                               (HO := ScriptHost.host)
                               (Examples.config 3) "/v1/breaches"
                               Examples.no_options
                               [Examples.server_error]))
   <= 10)%nat.
Proof.
  exact (proj1 (proj2 (proj2 (proj2 (proj2
           (constructed_client_bounds
              (RT := SimpleRuntime.runtime) (HO := ScriptHost.host)
              Examples.default_config (client := Examples.config 3)
              "/v1/breaches" Examples.no_options
              [Examples.server_error] eq_refl)))))).
Defined.

(** * The query of a request URL *)

Lemma assoc_filter_other {A : Type} (key k : string) (l : list (string * A)) :
  String.eqb key k = false ->
  assoc k (filter (fun kv => negb (String.eqb (fst kv) key)) l) = assoc k l.
Proof.
  intros Hne. induction l as [|[k' w] l IH]; [reflexivity|].
  cbn [filter fst].
  destruct (String.eqb k' key) eqn:E; cbn [negb assoc].
  - apply String.eqb_eq in E. subst k'. now rewrite Hne.
  - now rewrite IH.
Qed.

Lemma assoc_searchParams_set (key value k : string)
      (l : list (string * string)) :
  assoc k (searchParams_set key value l)
  = if String.eqb key k then Some value else assoc k l.
Proof.
  induction l as [|[k' w] l IH]; cbn [searchParams_set assoc].
  - reflexivity.
  - destruct (String.eqb k' key) eqn:E; cbn [assoc].
    + apply String.eqb_eq in E. subst k'.
      destruct (String.eqb key k) eqn:Ek; [reflexivity|].
      now apply assoc_filter_other.
    + rewrite IH.
      destruct (String.eqb k' k) eqn:Ek; [|reflexivity].
      apply String.eqb_eq in Ek. subst k'.
      rewrite String.eqb_sym, E. reflexivity.
Qed.

Lemma occurrences_filter_same (key : string) (l : list (string * string)) :
  filter (fun kv => String.eqb (fst kv) key)
         (filter (fun kv => negb (String.eqb (fst kv) key)) l) = [].
Proof.
  induction l as [|[k w] l IH]; [reflexivity|].
  cbn [filter fst]. destruct (String.eqb k key) eqn:E; cbn [negb filter fst];
    [exact IH|]. now rewrite E.
Qed.

Lemma occurrences_filter_other (key k : string) (l : list (string * string)) :
  String.eqb key k = false ->
  filter (fun kv => String.eqb (fst kv) k)
         (filter (fun kv => negb (String.eqb (fst kv) key)) l)
  = filter (fun kv => String.eqb (fst kv) k) l.
Proof.
  intros Hne. induction l as [|[k' w] l IH]; [reflexivity|].
  cbn [filter fst].
  destruct (String.eqb k' key) eqn:E; cbn [negb filter fst].
  - apply String.eqb_eq in E. subst k'. now rewrite Hne.
  - now rewrite IH.
Qed.

Lemma occurrences_searchParams_set (key value k : string)
      (l : list (string * string)) :
  List.length (filter (fun kv => String.eqb (fst kv) k)
                      (searchParams_set key value l))
  = if String.eqb key k then 1%nat
    else List.length (filter (fun kv => String.eqb (fst kv) k) l).
Proof.
  induction l as [|[k' w] l IH]; cbn [searchParams_set filter fst].
  - now destruct (String.eqb key k).
  - destruct (String.eqb k' key) eqn:E; cbn [filter fst].
    + apply String.eqb_eq in E. subst k'.
      destruct (String.eqb key k) eqn:Ek.
      * apply String.eqb_eq in Ek. subst k.
        now rewrite occurrences_filter_same.
      * now rewrite occurrences_filter_other.
    + destruct (String.eqb k' k) eqn:Ek; cbn [List.length]; rewrite IH.
      * apply String.eqb_eq in Ek. subst k'.
        rewrite String.eqb_sym, E. reflexivity.
      * reflexivity.
Qed.

Lemma present_entries_keys (params : Params) (k : string) :
  In k (map fst (present_entries params)) -> In k (map fst params).
Proof.
  induction params as [|[k' [v|]] params IH]; cbn; tauto.
Qed.

Lemma fold_set_present_assoc (key : string) (params : Params) :
  forall acc,
    NoDup (map fst params) ->
    assoc key (fold_left set_present params acc)
    = match assoc key (present_entries params) with
      | Some v => Some v
      | None => assoc key acc
      end.
Proof.
  induction params as [|[k [v|]] params IH]; intros acc Hnodup;
    [reflexivity| |];
    cbn [map fst] in Hnodup; inversion Hnodup as [|? ? Hk Hrest]; subst;
    cbn [fold_left]; rewrite (IH _ Hrest); unfold set_present at 1;
    cbn [fst snd].
  - change (present_entries ((k, Some v) :: params))
      with ((k, String_of v) :: present_entries params).
    cbn [assoc]. rewrite assoc_searchParams_set.
    destruct (String.eqb k key) eqn:E; [|reflexivity].
    apply String.eqb_eq in E. subst k.
    rewrite assoc_absent; [reflexivity|].
    intros Hin. apply Hk. now apply present_entries_keys.
  - reflexivity.
Qed.

Lemma fold_set_present_occurrences (key : string) (params : Params) :
  forall acc,
    In key (map fst (present_entries params)) ->
    List.length (filter (fun kv => String.eqb (fst kv) key)
                        (fold_left set_present params acc)) = 1%nat.
Proof.
  assert (Hkeep : forall params acc,
             List.length (filter (fun kv => String.eqb (fst kv) key) acc)
             = 1%nat ->
             List.length (filter (fun kv => String.eqb (fst kv) key)
                                 (fold_left set_present params acc)) = 1%nat).
  { clear params. induction params as [|[k [v|]] params IH]; intros acc Hacc;
      [exact Hacc| |]; cbn [fold_left]; apply IH; unfold set_present;
      cbn [fst snd]; [|exact Hacc].
    rewrite occurrences_searchParams_set.
    now destruct (String.eqb k key). }
  induction params as [|[k [v|]] params IH]; intros acc Hin.
  - destruct Hin.
  - change (present_entries ((k, Some v) :: params))
      with ((k, String_of v) :: present_entries params) in Hin.
    cbn [map fst In] in Hin. cbn [fold_left].
    destruct (String.eqb k key) eqn:E.
    + apply Hkeep. unfold set_present. cbn [fst snd].
      rewrite occurrences_searchParams_set. now rewrite E.
    + apply IH. destruct Hin as [->|Hin]; [|exact Hin].
      now rewrite String.eqb_refl in E.
  - cbn [fold_left]. apply IH. exact Hin.
Qed.

(** X24: a query parameter of the call replaces what the endpoint string
    itself carries under that name: looking a name up in the query of the
    built URL gives the parameter of the call if it has a value, and the
    endpoint's own value otherwise; a name the call gives a value to occurs
    once in the built query, however often the endpoint had it. *)
Theorem buildUrl_overrides_endpoint_query
        {RT : Runtime} (config : ResolvedConfig)
        (endpoint : string) (params : Params) (url : URL) :
  URL_parse endpoint (Some (baseUrl config)) = Some url ->
  NoDup (map fst params) ->
  exists search,
    buildUrl config endpoint (Some params)
    = Return (URL_toString (mkURL (protocol url) (location url) search))
    /\ (forall name,
          assoc name search
          = match assoc name (present_entries params) with
            | Some value => Some value
            | None => assoc name (searchParams url)
            end)
    /\ (forall name,
          In name (map fst (present_entries params)) ->
          List.length (filter (fun kv => String.eqb (fst kv) name) search)
          = 1%nat).
Proof.
  intros Hurl Hnodup. unfold buildUrl. rewrite Hurl.
  eexists. split; [reflexivity|]. split.
  - intros name. now apply fold_set_present_assoc.
  - intros name. apply fold_set_present_occurrences.
Qed.

Lemma buildUrl_overrides_endpoint_query_witness :
  exists search,
    buildUrl (RT := QueryRuntime.runtime) (Examples.config 3)
             "/v1/breaches?domain=old.com&page=2&domain=older.com"
             (Some [("domain"%string, Some (PString "adobe.com"));
                    ("breach_id"%string, None)])
    = Return (SimpleRuntime.print_url
                (mkURL "https:" "api.xposedornot.com/v1/breaches" search))
    /\ assoc "domain" search = Some "adobe.com"%string
    /\ assoc "page" search = Some "2"%string
    /\ List.length (filter (fun kv => String.eqb (fst kv) "domain") search)
       = 1%nat.
Proof.
  destruct (buildUrl_overrides_endpoint_query
              (RT := QueryRuntime.runtime) (Examples.config 3)
              "/v1/breaches?domain=old.com&page=2&domain=older.com"
              [("domain"%string, Some (PString "adobe.com"));
               ("breach_id"%string, None)]
              eq_refl
              ltac:(repeat constructor; cbn; intuition discriminate))
    as (search & Hbuilt & Hlookup & Honce).
  exists search. split; [exact Hbuilt|].
  split; [exact (Hlookup "domain"%string)|].
  split; [exact (Hlookup "page"%string)|].
  apply Honce. cbn. now left.
Defined.

(** * The domain check *)

Lemma trimEnd_blank (s : string) :
  String.eqb (trimEnd s) "" = string_forallb is_space s.
Proof.
  induction s as [|c s IH]; [reflexivity|].
  cbn [trimEnd string_forallb]. rewrite IH.
  destruct (is_space c), (string_forallb is_space s); reflexivity.
Qed.

Lemma trimStart_blank (s : string) :
  string_forallb is_space (trimStart s) = string_forallb is_space s.
Proof.
  induction s as [|c s IH]; [reflexivity|].
  cbn [trimStart]. destruct (is_space c) eqn:Hc; [|reflexivity].
  cbn [string_forallb]. now rewrite Hc, IH.
Qed.

Lemma trim_blank (s : string) :
  String.eqb (trim s) "" = string_forallb is_space s.
Proof. unfold trim. now rewrite trimEnd_blank, trimStart_blank. Qed.

Lemma domain_char_no_space (c : ascii) :
  domain_char c = true -> negb (is_space c) = true.
Proof.
  destruct c as [[] [] [] [] [] [] [] []]; vm_compute; intros E; congruence.
Qed.

Lemma is_alnum_domain_char (c : ascii) :
  is_alnum c = true -> domain_char c = true.
Proof. unfold domain_char. now intros ->. Qed.

Lemma is_alpha_domain_char (c : ascii) :
  is_alpha c = true -> domain_char c = true.
Proof. unfold domain_char, is_alnum. now intros ->. Qed.

Lemma DOMAIN_REGEX_chars (s : string) :
  DOMAIN_REGEX_test s = true -> string_forallb domain_char s = true.
Proof.
  unfold DOMAIN_REGEX_test.
  destruct (split_last_dot s) as [[[|first middle] tld]|] eqn:E;
    try discriminate.
  apply split_last_dot_sound in E. subst s.
  intros Ht.
  apply andb_prop in Ht. destruct Ht as [Ht Htld].
  apply andb_prop in Ht. destruct Ht as [Ht _].
  apply andb_prop in Ht. destruct Ht as [Ht Hmiddle].
  apply andb_prop in Ht. destruct Ht as [Hfirst _].
  cbn [append string_forallb].
  rewrite (is_alnum_domain_char _ Hfirst), string_forallb_app, Hmiddle.
  cbn [string_forallb andb].
  apply string_forallb_impl with (p := is_alpha);
    [exact is_alpha_domain_char|exact Htld].
Qed.

(** X25: the verdicts of [validateDomain] on a string of ASCII
    characters.  An input of white space only, the empty string included,
    is reported as missing, and no other input is; any other input passes
    exactly when the pattern accepts it once trimmed, and is reported as
    malformed otherwise.  The verdict is that of the trimmed input, and an
    accepted domain holds no white space once trimmed.  [getBreaches] does
    not consult the check: it sends a domain filter that is not empty as it
    is given. *)
Theorem validateDomain_verdicts (domain : string) :
  is_ascii domain = true ->
  (string_forallb is_space domain = true <->
   validateDomain domain
   = Throw (ValidationError "Domain is required" (Some "domain"%string)))
  /\ (DOMAIN_REGEX_test (trim domain) = true <->
      validateDomain domain = Return tt)
  /\ (string_forallb is_space domain = false ->
      DOMAIN_REGEX_test (trim domain) = false ->
      validateDomain domain
      = Throw (ValidationError "Invalid domain format" (Some "domain"%string)))
  /\ validateDomain (trim domain) = validateDomain domain
  /\ (validateDomain domain = Return tt ->
      string_forallb (fun c => negb (is_space c)) (trim domain) = true)
  /\ (forall breachId,
        domain <> ""%string ->
        opt_params (getBreaches_request
                      {| gb_domain := Some domain; gb_breachId := breachId |})
        = Some (("domain"%string, Some (PString domain))
                  :: filter_param "breach_id" breachId)).
Proof.
  intros _.
  assert (Hempty : DOMAIN_REGEX_test "" = false) by reflexivity.
  unfold validateDomain. rewrite trim_idempotent. cbv zeta.
  rewrite trim_blank.
  destruct (string_forallb is_space domain) eqn:Hblank.
  - pose proof (trim_blank domain) as Ht. rewrite Hblank in Ht.
    apply String.eqb_eq in Ht. rewrite Ht, Hempty.
    repeat split; try discriminate; try reflexivity.
    intros breachId Hne. unfold getBreaches_request, filter_param.
    cbn [opt_params gb_domain gb_breachId].
    destruct (String.eqb_spec domain ""); [contradiction|reflexivity].
  - destruct (DOMAIN_REGEX_test (trim domain)) eqn:Hre; cbn [negb];
      repeat split; try discriminate; try reflexivity.
    + intros _.
      apply string_forallb_impl with (p := domain_char);
        [exact domain_char_no_space|exact (DOMAIN_REGEX_chars _ Hre)].
    + intros breachId Hne. unfold getBreaches_request, filter_param.
      cbn [opt_params gb_domain gb_breachId].
      destruct (String.eqb_spec domain ""); [contradiction|reflexivity].
    + intros breachId Hne. unfold getBreaches_request, filter_param.
      cbn [opt_params gb_domain gb_breachId].
      destruct (String.eqb_spec domain ""); [contradiction|reflexivity].
Qed.

Lemma validateDomain_verdicts_witness :
  validateDomain " example.com " = Return tt
  /\ validateDomain "   "
     = Throw (ValidationError "Domain is required" (Some "domain"%string)).
Proof.
  split.
  - exact (proj1 (proj1 (proj2 (validateDomain_verdicts " example.com "
                                  eq_refl)))
                 eq_refl).
  - exact (proj1 (proj1 (validateDomain_verdicts "   " eq_refl)) eq_refl).
Defined.
